(** * Deployment, invocation and metrics retrieval of [sebs/gcp/gcp.py]

    A shallow embedding of the [GCP] class of [src/sebs/gcp/gcp.py]: the
    code packager ([package_code]), the cache reconciler ([get_function]),
    the deployment client ([update_function]), the invocation poller
    ([invoke_sync]) and the metrics collector ([download_metrics]).

    Python values are modelled by their own data: dictionaries are finite
    maps with string keys, exceptions are a constructor of [result], the
    attributes of the [GCP] instance are optional record fields, and every
    call that leaves the class (storage, registry, cache, shell, logging)
    is recorded in a trace, its answer being supplied by an environment
    that may depend on the whole history. What the methods print on
    standard output is left out. *)

Set Warnings "-register-all".
From stdpp Require Import gmap strings list fin_maps pretty.
From Stdlib Require Import ZArith Lia Ascii.

Open Scope Z_scope.

(** ** Python strings and paths *)

Module Py.

(** [str.replace(old, new)] for a non-empty [old]: occurrences are found
    from the left and do not overlap; [skip] counts the characters of a
    match still to be dropped. *)
Fixpoint replace_from (old new : string) (skip : nat) (s : string) : string :=
  match s with
  | EmptyString => EmptyString
  | String c s' =>
      match skip with
      | S k => replace_from old new k s'
      | O =>
          if String.prefix old s
          then new +:+ replace_from old new (String.length old - 1) s'
          else String c (replace_from old new 0 s')
      end
  end.

(** With an empty [old], Python inserts [new] before every character and
    at the end. *)
Fixpoint intersperse_after (new : string) (s : string) : string :=
  match s with
  | EmptyString => EmptyString
  | String c s' => String c (new +:+ intersperse_after new s')
  end.

Definition replace (old new s : string) : string :=
  match old with
  | EmptyString => new +:+ intersperse_after new s
  | String _ _ => replace_from old new 0 s
  end.

(** The [in] operator on strings: [sub in s]. *)
Fixpoint contains (sub s : string) : bool :=
  String.prefix sub s ||
  match s with
  | EmptyString => false
  | String _ s' => contains sub s'
  end.

(** [str(n)] for an [int]. *)
Definition str_int (n : Z) : string := pretty n.

Fixpoint ends_with_slash (s : string) : bool :=
  match s with
  | EmptyString => false
  | String c EmptyString => bool_decide (c = "/"%char)
  | String _ s' => ends_with_slash s'
  end.

(** [os.path.join(a, b)] of [posixpath]. *)
Definition path_join (a b : string) : string :=
  if String.prefix "/" b then b
  else if bool_decide (a = EmptyString) || ends_with_slash a then a +:+ b
  else a +:+ "/" +:+ b.

(** [os.path.basename(p)]: what follows the last slash. *)
Fixpoint basename_from (acc : string) (p : string) : string :=
  match p with
  | EmptyString => acc
  | String c p' =>
      if bool_decide (c = "/"%char) then basename_from p' p'
      else basename_from acc p'
  end.

Definition basename (p : string) : string := basename_from p p.

(** The last character of a string, [default] for the empty one. *)
Fixpoint last_char (default : ascii) (s : string) : ascii :=
  match s with
  | EmptyString => default
  | String a s' => last_char a s'
  end.

End Py.

(** ** Values, exceptions and results *)

(** JSON-like Python values: what the registry answers, what the cache
    entry holds and what an invocation carries. *)
Inductive json :=
| JNull
| JBool (b : bool)
| JInt (n : Z)
| JStr (s : string)
| JList (l : list json)
| JObj (o : gmap string json).

(** The Python exceptions the class can meet. [ExternalError] stands for
    whatever a collaborator raises (transport, authentication, shell). *)
Inductive exn :=
| KeyError (key : string)
| AttributeError (attr : string)
| TypeError
| FileExistsError (name : string)
| FileNotFoundError (name : string)
| IsADirectoryError (name : string)
| ShutilError (name : string)
| RuntimeError
| ExternalError (msg : string).

(** The outcome of a call: a value, a raised exception, or no outcome
    within the allotted number of loop iterations. *)
Inductive result (A : Type) :=
| Ok (a : A)
| Raise (e : exn)
| OutOfFuel.
Arguments Ok {A} a.
Arguments Raise {A} e.
Arguments OutOfFuel {A}.

(** [d[key]] on a dictionary. *)
Definition dict_get {V} (d : gmap string V) (key : string) : result V :=
  match d !! key with
  | Some v => Ok v
  | None => Raise (KeyError key)
  end.

(** [v == s] for a string literal [s]. *)
Definition json_eq_str (v : json) (s : string) : bool :=
  match v with
  | JStr s' => bool_decide (s' = s)
  | _ => false
  end.

(** [v[key]] on an arbitrary value: only a dictionary can be indexed by a
    string. *)
Definition json_index (v : json) (key : string) : result json :=
  match v with
  | JObj o => dict_get o key
  | _ => Raise TypeError
  end.

(** [[f["name"] for f in v]]: every element is evaluated, so one
    malformed element raises even after a match. A string or a dictionary
    iterates over its characters or keys, which cannot be indexed by
    ["name"]; empty ones yield the empty list. *)
Fixpoint names_of_list (l : list json) : result (list json) :=
  match l with
  | [] => Ok []
  | f :: l' =>
      match json_index f "name" with
      | Ok n =>
          match names_of_list l' with
          | Ok ns => Ok (n :: ns)
          | Raise e => Raise e
          | OutOfFuel => OutOfFuel
          end
      | Raise e => Raise e
      | OutOfFuel => OutOfFuel
      end
  end.

Definition names_of (v : json) : result (list json) :=
  match v with
  | JList l => names_of_list l
  | JStr EmptyString => Ok []
  | JObj o => match map_to_list o with [] => Ok [] | _ :: _ => Raise TypeError end
  | _ => Raise TypeError
  end.

(** [s in names] for a string [s] and a list of values. *)
Definition str_in_values (s : string) (names : list json) : bool :=
  existsb (fun v => json_eq_str v s) names.

(** ** The build directory *)

(** An entry of the build directory. *)
Inductive node :=
| File (data : string)
| Dir (children : gmap string node).

(** The build directory, by entry name. [os.path.join(directory, name)]
    and, once the working directory is the build directory, the relative
    path [name] both designate the entry [name]. *)
Abbreviation directory_state := (gmap string node).

(** [shutil.move(src, dst)] between two entries of the directory. A move
    onto an existing directory moves inside it (onto itself: nothing
    happens), refusing to overwrite a child of the same name; a move onto
    a file replaces it; otherwise it is a rename. *)
Definition shutil_move (src dst : string) (fs : directory_state)
  : result directory_state :=
  match fs !! dst with
  | Some (Dir children) =>
      if bool_decide (src = dst) then Ok fs
      else
        match children !! src with
        | Some _ => Raise (ShutilError src)
        | None =>
            match fs !! src with
            | None => Raise (FileNotFoundError src)
            | Some n => Ok (<[dst := Dir (<[src := n]> children)]> (delete src fs))
            end
        end
  | Some (File _) =>
      match fs !! src with
      | None => Raise (FileNotFoundError src)
      | Some (File data) => Ok (<[dst := File data]> (delete src fs))
      | Some (Dir _) => Raise (FileExistsError dst)
      end
  | None =>
      match fs !! src with
      | None => Raise (FileNotFoundError src)
      | Some n => Ok (<[dst := n]> (delete src fs))
      end
  end.

(** [os.makedirs(name)]: the entry must not exist. *)
Definition makedirs (name : string) (fs : directory_state) : result directory_state :=
  match fs !! name with
  | Some _ => Raise (FileExistsError name)
  | None => Ok (<[name := Dir ∅]> fs)
  end.

(** [open(name, "w")], [write(data)], [close()]. *)
Definition write_file (name data : string) (fs : directory_state)
  : result directory_state :=
  match fs !! name with
  | Some (Dir _) => Raise (IsADirectoryError name)
  | _ => Ok (<[name := File data]> fs)
  end.

(** [os.path.getsize(name)]; a directory reports the size of its inode. *)
Definition getsize (name : string) (fs : directory_state) : result Z :=
  match fs !! name with
  | None => Raise (FileNotFoundError name)
  | Some (File data) => Ok (Z.of_nat (String.length data))
  | Some (Dir _) => Ok 4096
  end.

(** [os.listdir(directory)]. *)
Definition listdir (fs : directory_state) : list string := (map_to_list fs).*1.

(** The loop of [package_code] that relocates every listed entry outside
    [package_config] into the function directory. *)
Fixpoint relocate (package_config : list string) (function_dir : string)
    (listing : list string) (fs : directory_state) : result directory_state :=
  match listing with
  | [] => Ok fs
  | file :: rest =>
      if bool_decide (file ∈ package_config) then
        relocate package_config function_dir rest fs
      else
        match shutil_move file function_dir fs with
        | Ok fs' => relocate package_config function_dir rest fs'
        | Raise e => Raise e
        | OutOfFuel => OutOfFuel
        end
  end.

(** ** Descriptors, requests and the trace of outside calls *)

Record BenchmarkConfig := {
  timeout : Z;
  memory : Z
}.

(** What [get_function] and [package_code] read of a [Benchmark]. *)
Record Benchmark := {
  benchmark : string;
  language_name : string;
  language_version : string;
  hash : string;
  is_cached : bool;
  is_cached_valid : bool;
  cached_config : gmap string json;
  code_location : string;
  benchmark_config : BenchmarkConfig
}.

(** Modelled from the spec: the [Benchmark] class lies outside this file;
    its cache flags are described by the data model as "cache entry
    exists" and "the source hash in the Cache Entry and in the Benchmark
    Descriptor determine whether a cached deployment is still valid".
    [cache_entry] is the entry the descriptor was loaded from, if any. *)
Definition descriptor_of_cache (cp : Benchmark)
    (cache_entry : option (gmap string json)) : Prop :=
  match cache_entry with
  | Some entry =>
      is_cached cp = true ∧
      cached_config cp = entry ∧
      is_cached_valid cp =
        match entry !! "hash" with
        | Some h => json_eq_str h (hash cp)
        | None => false
        end
  | None => is_cached cp = false ∧ is_cached_valid cp = false
  end.

Record GCPConfig := {
  region : string;
  config_project_name : string
}.

(** The body of a [create] or [patch] request; its [httpsTrigger] is
    always the empty dictionary. *)
Record function_body := {
  body_name : string;
  body_entryPoint : string;
  body_runtime : string;
  body_availableMemoryMb : Z;
  body_timeout : string;
  body_sourceArchiveUrl : string
}.

(** A request on [projects().locations().functions()], as executed. *)
Inductive registry_request :=
| ReqList (parent : string)
| ReqCreate (location : string) (body : function_body)
| ReqPatch (name : string) (body : function_body)
| ReqGet (name : string)
| ReqCall (name : string) (data : string).

(** Every call that leaves the class, in the order it is made. *)
Inductive event :=
| EvDiscoveryBuild
| EvNewStorage (replace_existing : bool)
| EvGetStorageConfig (benchmark : string)
| EvAllocateBuckets (benchmark : string) (buckets : list Z)
| EvBuild (benchmark : string)
| EvExecute (cmd : string)
| EvDirectorySize (path : string)
| EvAddInputBucket (benchmark : string)
| EvAddOutputBucket (benchmark suffix : string)
| EvUpload (bucket name path : string)
| EvRegistry (req : registry_request)
| EvCacheAdd (deployment benchmark language code_package : string)
    (language_config : gmap string json) (input_buckets output_buckets : json)
| EvCacheUpdate (deployment benchmark language code_package : string)
    (cached_cfg : gmap string json)
| EvSleep (seconds : Z)
| EvLogInfo (msg : string)
| EvLogError (msg : string).

(** The collaborators. Each answer may depend on the whole history, whose
    last event is the request being answered. *)
Record Env := {
  (** [benchmark.build()]: the path of the build directory and its
      contents, given the contents it finds. *)
  env_build : list event → directory_state → result (string * directory_state);
  (** Modelled from the spec: [utils.execute] lies outside this file; the
      archiving command either yields the bytes of the archive it writes
      or fails, and "any file-system error during relocation or archiving
      is fatal and aborts packaging". *)
  env_execute : list event → directory_state → result string;
  env_directory_size : list event → result Z;
  env_add_input_bucket : list event → result (string * Z);
  env_add_output_bucket : list event → result string;
  env_storage_buckets : list event → json * json;
  env_registry : list event → result (gmap string json);
  env_unit : list event → result unit;
  (** [datetime.datetime.now()], in microseconds. *)
  env_now : list event → Z;
  (** Library renderings: [json.dumps], [str] of a value that is neither
      a string nor an integer, [str] of a [Benchmark], and ["{:2f}"] of a
      size in megabytes. *)
  json_dumps : json → string;
  py_repr : json → string;
  str_benchmark : Benchmark → string;
  format_mbytes : Z → string
}.

Inductive FunctionClient := CloudFunctionsV1.

Record GCPStorage := { replace_existing : bool }.

(** The attributes of a [GCP] instance; [None] is an attribute that was
    never assigned. *)
Record GCP := {
  config : GCPConfig;
  function_client : option FunctionClient;
  storage : option GCPStorage;
  location : option string;
  project_name : option string;
  func_name : option string
}.

(** [GCP.__init__]. *)
Definition init (cfg : GCPConfig) : GCP :=
  {| config := cfg; function_client := None; storage := None;
     location := None; project_name := None; func_name := None |}.

(** The state a method runs in. *)
Record World := {
  trace : list event;
  fs : directory_state;
  cwd : string;
  self : GCP
}.

Definition set_trace (t : list event) (w : World) : World :=
  {| trace := t; fs := fs w; cwd := cwd w; self := self w |}.
Definition set_fs (d : directory_state) (w : World) : World :=
  {| trace := trace w; fs := d; cwd := cwd w; self := self w |}.
Definition set_cwd (p : string) (w : World) : World :=
  {| trace := trace w; fs := fs w; cwd := p; self := self w |}.
Definition set_self (g : GCP) (w : World) : World :=
  {| trace := trace w; fs := fs w; cwd := cwd w; self := g |}.

(** ** The monad of methods: state and exceptions *)

Definition M (A : Type) : Type := World → result A * World.

Definition ret {A} (a : A) : M A := fun w => (Ok a, w).

Definition bind {A B} (m : M A) (f : A → M B) : M B :=
  fun w =>
    match m w with
    | (Ok a, w') => f a w'
    | (Raise e, w') => (Raise e, w')
    | (OutOfFuel, w') => (OutOfFuel, w')
    end.

Notation "x <- m ;; k" := (bind m (fun x => k))
  (at level 100, m at next level, right associativity).
Notation "m ;;; k" := (bind m (fun _ => k))
  (at level 100, right associativity).

Definition raise {A} (e : exn) : M A := fun w => (Raise e, w).
Definition out_of_fuel {A} : M A := fun w => (OutOfFuel, w).
Definition lift {A} (r : result A) : M A := fun w => (r, w).

(** Record an event. *)
Definition emit (ev : event) : M unit :=
  fun w => (Ok tt, set_trace (trace w ++ [ev]) w).

(** The calls made so far. *)
Definition history : M (list event) := fun w => (Ok (trace w), w).

(** Record a request and take the collaborator's answer to the history
    that ends with it. *)
Definition outside {A} (ev : event) (answer : list event → result A) : M A :=
  emit ev ;;; fun w => (answer (trace w), w).

(** An operation on the build directory. *)
Definition on_fs (op : directory_state → result directory_state) : M unit :=
  fun w =>
    match op (fs w) with
    | Ok d => (Ok tt, set_fs d w)
    | Raise e => (Raise e, w)
    | OutOfFuel => (OutOfFuel, w)
    end.

Definition read_fs {A} (op : directory_state → result A) : M A :=
  fun w => (op (fs w), w).

(** [self.attr]: an attribute never assigned raises. *)
Definition attribute {A} (name : string) (get : GCP → option A) : M A :=
  fun w =>
    match get (self w) with
    | Some a => (Ok a, w)
    | None => (Raise (AttributeError name), w)
    end.

Definition read_config : M GCPConfig := fun w => (Ok (config (self w)), w).
Definition update_self (f : GCP → GCP) : M unit :=
  fun w => (Ok tt, set_self (f (self w)) w).
Definition getcwd : M string := fun w => (Ok (cwd w), w).
Definition chdir (p : string) : M unit := fun w => (Ok tt, set_cwd p w).

Definition log_info (msg : string) : M unit := emit (EvLogInfo msg).
Definition log_error (msg : string) : M unit := emit (EvLogError msg).

(** ** The methods of [GCP] *)

(** [str.format] of a value: a string as it is, an integer in decimal,
    anything else through the library rendering. *)
Definition format_json (env : Env) (v : json) : string :=
  match v with
  | JStr s => s
  | JInt n => Py.str_int n
  | _ => py_repr env v
  end.

Definition CONFIG_FILES : gmap string (list string) :=
  list_to_map [("python", ["handler.py"; ".python_packages"]);
               ("nodejs", ["handler.js"; "node_modules"])].

Definition HANDLER : gmap string (string * string) :=
  list_to_map [("python", ("handler.py", "main.py"));
               ("nodejs", ("handler.js", "index.js"))].

(** The name the uncached path of [get_function] gives a function. *)
Definition derive_func_name (benchmark language_name : string) (memory : Z) : string :=
  let func_name :=
    "foo_" +:+ benchmark +:+ "-" +:+ language_name +:+ "-" +:+ Py.str_int memory in
  let func_name := Py.replace "-" "_" func_name in
  Py.replace "." "_" func_name.

Definition full_name (project_name location : string) (func_name : string) : string :=
  "projects/" +:+ project_name +:+ "/locations/" +:+ location
  +:+ "/functions/" +:+ func_name.

Definition parent_name (project_name location : string) : string :=
  "projects/" +:+ project_name +:+ "/locations/" +:+ location.

(** The body [get_function] and [update_function] send to the registry. *)
Definition make_body (full_func_name : string) (cp : Benchmark)
    (timeout memory : Z) (bucket code_package_name : string) : function_body :=
  {| body_name := full_func_name;
     body_entryPoint := "handler";
     body_runtime :=
       language_name cp +:+ Py.replace "." EmptyString (language_version cp);
     body_availableMemoryMb := memory;
     body_timeout := Py.str_int timeout +:+ "s";
     body_sourceArchiveUrl := "gs://" +:+ bucket +:+ "/" +:+ code_package_name |}.

(** The handle [GCPFunction(name, benchmark, hash, self)]. *)
Record GCPFunction := {
  function_name : json;
  function_benchmark : string;
  function_hash : string
}.

(** What [invoke_sync] returns. *)
Record Invocation := {
  invocation_return : json;
  client_time : Z
}.

Section Methods.

Variable env : Env.

(** [datetime.datetime.now()]. *)
Definition now : M Z := fun w => (Ok (env_now env (trace w)), w).

Definition registry (req : registry_request) : M (gmap string json) :=
  outside (EvRegistry req) (env_registry env).

(** [get_storage]: the bucket allocation runs when both [benchmark] and
    [buckets] are truthy. *)
Definition get_storage (replace : bool) (benchmark : option string)
    (buckets : option (list Z)) : M GCPStorage :=
  outside (EvNewStorage replace) (env_unit env) ;;;
  let st := {| replace_existing := replace |} in
  update_self (fun g =>
    {| config := config g; function_client := function_client g;
       storage := Some st; location := location g;
       project_name := project_name g; func_name := func_name g |}) ;;;
  match benchmark, buckets with
  | Some (String c b), Some (n :: ns) =>
      let name := String c b in
      outside (EvGetStorageConfig name) (env_unit env) ;;;
      outside (EvAllocateBuckets name (n :: ns)) (env_unit env) ;;;
      ret st
  | _, _ => ret st
  end.

Definition initialize : M unit :=
  outside EvDiscoveryBuild (env_unit env) ;;;
  update_self (fun g =>
    {| config := config g; function_client := Some CloudFunctionsV1;
       storage := storage g; location := location g;
       project_name := project_name g; func_name := func_name g |}) ;;;
  get_storage false None None ;;;
  ret tt.

Definition get_function_client : M FunctionClient :=
  attribute "function_client" function_client.

(** [benchmark.build()]: the collaborator leaves the build directory in
    the state it answers. *)
Definition build (cp : Benchmark) : M string :=
  emit (EvBuild (benchmark cp)) ;;;
  fun w =>
    match env_build env (trace w) (fs w) with
    | Ok (directory, d) => (Ok directory, set_fs d w)
    | Raise e => (Raise e, w)
    | OutOfFuel => (OutOfFuel, w)
    end.

(** [utils.execute("zip -qu -r9 {}.zip * .")] in the build directory:
    the archive becomes the entry [archive]. *)
Definition execute_zip (cmd archive : string) : M unit :=
  emit (EvExecute cmd) ;;;
  fun w =>
    match env_execute env (trace w) (fs w) with
    | Ok bytes => (Ok tt, set_fs (<[archive := File bytes]> (fs w)) w)
    | Raise e => (Raise e, w)
    | OutOfFuel => (OutOfFuel, w)
    end.

Definition package_code (cp : Benchmark) : M (string * Z) :=
  directory <- build cp ;;
  package_config <- lift (dict_get CONFIG_FILES (language_name cp)) ;;
  let function_dir := "function" in
  on_fs (makedirs function_dir) ;;;
  listing <- read_fs (fun d => Ok (listdir d)) ;;
  on_fs (relocate package_config function_dir listing) ;;;
  on_fs (write_file "requirements.txt" "google-cloud-storage") ;;;
  cur_dir <- getcwd ;;
  chdir directory ;;;
  names <- lift (dict_get HANDLER (language_name cp)) ;;
  let old_name := names.1 in
  let new_name := names.2 in
  on_fs (shutil_move old_name new_name) ;;;
  let archive := benchmark cp +:+ ".zip" in
  execute_zip ("zip -qu -r9 " +:+ archive +:+ " * .") archive ;;;
  let benchmark_archive := Py.path_join directory (benchmark cp) +:+ ".zip" in
  log_info ("Created " +:+ benchmark_archive +:+ " archive") ;;;
  bytes_size <- read_fs (getsize archive) ;;
  log_info ("Zip archive size " +:+ format_mbytes env bytes_size +:+ " MB") ;;;
  on_fs (shutil_move new_name old_name) ;;;
  chdir cur_dir ;;;
  ret (Py.path_join directory archive, bytes_size).

Definition update_function (benchmark full_func_name code_package_name : string)
    (cp : Benchmark) (timeout memory : Z) : M unit :=
  attribute "storage" storage ;;;
  bucket_idx <- outside (EvAddInputBucket benchmark) (env_add_input_bucket env) ;;
  let bucket := bucket_idx.1 in
  attribute "function_client" function_client ;;;
  registry (ReqPatch full_func_name
              (make_body full_func_name cp timeout memory bucket code_package_name)) ;;;
  log_info ("Updating GCP code of function " +:+ full_func_name
            +:+ " from " +:+ str_benchmark env cp) ;;;
  ret tt.

Definition get_function (cp : Benchmark) : M GCPFunction :=
  let benchmark := benchmark cp in
  cfg <- read_config ;;
  update_self (fun g =>
    {| config := config g; function_client := function_client g;
       storage := storage g; location := Some (region cfg);
       project_name := project_name g; func_name := func_name g |}) ;;;
  update_self (fun g =>
    {| config := config g; function_client := function_client g;
       storage := storage g; location := location g;
       project_name := Some (config_project_name cfg); func_name := func_name g |}) ;;;
  let project_name := config_project_name cfg in
  let location := region cfg in
  if is_cached cp && is_cached_valid cp then
    func_name <- lift (dict_get (cached_config cp) "name") ;;
    let code_location := code_location cp in
    log_info ("Using cached function " +:+ format_json env func_name
              +:+ " in " +:+ code_location) ;;;
    ret {| function_name := func_name; function_benchmark := benchmark;
           function_hash := hash cp |}
  else if is_cached cp then
    func_name <- lift (dict_get (cached_config cp) "name") ;;
    let full_func_name := full_name project_name location (format_json env func_name) in
    let code_location := code_location cp in
    let timeout := timeout (benchmark_config cp) in
    let memory := memory (benchmark_config cp) in
    packaged <- package_code cp ;;
    let package := packaged.1 in
    let code_package_name := Py.basename package in
    update_function benchmark full_func_name code_package_name cp timeout memory ;;;
    code_size <- outside (EvDirectorySize code_location) (env_directory_size env) ;;
    let cached_cfg := cached_config cp in
    let cached_cfg := <["code_size" := JInt code_size]> cached_cfg in
    let cached_cfg := <["timeout" := JInt timeout]> cached_cfg in
    let cached_cfg := <["memory" := JInt memory]> cached_cfg in
    let cached_cfg := <["hash" := JStr (hash cp)]> cached_cfg in
    outside (EvCacheUpdate "gcp" benchmark (language_name cp) package cached_cfg)
            (env_unit env) ;;;
    log_info ("Updating cached function " +:+ format_json env func_name
              +:+ " in " +:+ code_location) ;;;
    ret {| function_name := func_name; function_benchmark := benchmark;
           function_hash := hash cp |}
  else
    let code_location := code_location cp in
    let timeout := timeout (benchmark_config cp) in
    let memory := memory (benchmark_config cp) in
    let func_name := derive_func_name benchmark (language_name cp) memory in
    packaged <- package_code cp ;;
    let package := packaged.1 in
    let code_size := packaged.2 in
    let code_package_name := Py.basename package in
    attribute "storage" storage ;;;
    bucket_idx <- outside (EvAddInputBucket benchmark) (env_add_input_bucket env) ;;
    let bucket := bucket_idx.1 in
    attribute "storage" storage ;;;
    outside (EvUpload bucket code_package_name package) (env_unit env) ;;;
    log_info ("Uploading function " +:+ func_name +:+ " code to " +:+ bucket) ;;;
    attribute "function_client" function_client ;;;
    res <- registry (ReqList (parent_name project_name location)) ;;
    let full_func_name := full_name project_name location func_name in
    listed <-
      match res !! "functions" with
      | None => ret false
      | Some functions =>
          names <- lift (names_of functions) ;;
          ret (str_in_values full_func_name names)
      end ;;
    (if listed : bool then
       update_function benchmark full_func_name code_package_name cp timeout memory
     else
       attribute "function_client" function_client ;;;
       registry (ReqCreate (parent_name project_name location)
                   (make_body full_func_name cp timeout memory bucket code_package_name)) ;;;
       ret tt) ;;;
    attribute "function_client" function_client ;;;
    res <- registry (ReqGet full_func_name) ;;
    trigger <- lift (dict_get res "httpsTrigger") ;;
    invoke_url <- lift (json_index trigger "url") ;;
    attribute "storage" storage ;;;
    past <- history ;;
    let buckets := env_storage_buckets env past in
    outside (EvCacheAdd "gcp" benchmark (language_name cp) package
               (<["name" := JStr func_name]>
                (<["code_size" := JInt code_size]>
                 (<["runtime" := JStr (language_version cp)]>
                  (<["memory" := JInt memory]>
                   (<["timeout" := JInt timeout]>
                    (<["hash" := JStr (hash cp)]>
                     (<["url" := invoke_url]> ∅)))))))
               buckets.1 buckets.2)
            (env_unit env) ;;;
    ret {| function_name := JStr func_name; function_benchmark := benchmark;
           function_hash := hash cp |}.

Definition prepare_experiment (benchmark : string) : M string :=
  attribute "storage" storage ;;;
  outside (EvAddOutputBucket benchmark "logs") (env_add_output_bucket env).

(** The readiness loop of [invoke_sync]; [fuel] bounds the number of
    iterations the model follows. *)
Fixpoint wait_until_deployed (fuel : nat) (full_func_name : string) : M unit :=
  match fuel with
  | O => out_of_fuel
  | S fuel' =>
      status_res <- registry (ReqGet full_func_name) ;;
      status <- lift (dict_get status_res "status") ;;
      if json_eq_str status "ACTIVE" then ret tt
      else
        emit (EvSleep 5) ;;;
        wait_until_deployed fuel' full_func_name
  end.

Definition invoke_sync (fuel : nat) (name : string) (payload : json) : M Invocation :=
  project_name <- attribute "project_name" project_name ;;
  location <- attribute "location" location ;;
  func_name <- attribute "func_name" func_name ;;
  let full_func_name := full_name project_name location func_name in
  let payload := json_dumps env payload in
  attribute "function_client" function_client ;;;
  wait_until_deployed fuel full_func_name ;;;
  attribute "function_client" function_client ;;;
  begin <- now ;;
  res <- registry (ReqCall full_func_name payload) ;;
  end_ <- now ;;
  let failed :=
    match res !! "error" with
    | Some error => negb (json_eq_str error EmptyString)
    | None => false
    end in
  if failed then
    log_error ("Invocation of " +:+ name +:+ " failed!") ;;;
    log_error ("Input: " +:+ payload) ;;;
    raise RuntimeError
  else
    result <- lift (dict_get res "result") ;;
    ret {| invocation_return := result; client_time := end_ - begin |}.

Definition invoke_async (name : string) (payload : json) : M unit := ret tt.

Definition shutdown : M unit := ret tt.

Definition create_function_copies : M unit := ret tt.

Definition name : string := "gcp".

End Methods.

(** ** The metrics collector *)

Module Metrics.

Section Collector.

(** The type of the telemetry's floating-point means; they are only
    carried from a point to a sample. *)
Variable float : Type.

(** A data point: [point.value.distribution_value]. *)
Record point := {
  mean : float;
  count : Z
}.

(** A time series: [result.resource.labels] and [result.points]. *)
Record time_series := {
  labels : gmap string string;
  points : list point
}.

(** A collected sample: the dictionary with the mean under [mean_key]
    and the count under ["executions_count"]. *)
Record sample := {
  mean_key : string;
  mean_value : float;
  executions_count : Z
}.

(** A [client.list_time_series] call. *)
Record query := {
  query_project : string;
  query_filter : string;
  query_start_seconds : Z;
  query_end_seconds : Z
}.

(** The in/out accumulator: function name, then metric, then samples. *)
Abbreviation accumulator := (gmap string (gmap string (list sample))).

(** The telemetry backend answers the queries made so far, the last
    being the one asked. *)
Variable list_time_series : list query → result (list time_series).

(** The double quote that delimits the metric type in a filter. *)
Definition dquote : string := String "034"%char EmptyString.

Definition execution_times_filter : string :=
  "metric.type = " +:+ dquote
  +:+ "cloudfunctions.googleapis.com/function/execution_times" +:+ dquote.
Definition user_memory_bytes_filter : string :=
  "metric.type = " +:+ dquote
  +:+ "cloudfunctions.googleapis.com/function/user_memory_bytes" +:+ dquote.

(** [requests[function_name][metric] += [s]]. *)
Definition append_sample (function_name metric : string) (s : sample)
    (requests : accumulator) : result accumulator :=
  match requests !! function_name with
  | None => Raise (KeyError function_name)
  | Some buckets =>
      match buckets !! metric with
      | None => Raise (KeyError metric)
      | Some samples =>
          Ok (<[function_name := <[metric := samples ++ [s]]> buckets]> requests)
      end
  end.

(** The dictionary made of a point, its mean under [key]. *)
Definition sample_of (key : string) (p : point) : sample :=
  {| mean_key := key; mean_value := mean p; executions_count := count p |}.

(** [for point in result.points]: what was appended before an
    exception stays appended. *)
Fixpoint append_points (function_name metric key : string) (pts : list point)
    (requests : accumulator) : accumulator * result unit :=
  match pts with
  | [] => (requests, Ok tt)
  | p :: rest =>
      match append_sample function_name metric (sample_of key p) requests with
      | Ok requests' => append_points function_name metric key rest requests'
      | Raise e => (requests, Raise e)
      | OutOfFuel => (requests, OutOfFuel)
      end
  end.

(** [result.resource.labels.get("function_name") == function_name]. *)
Definition labelled (function_name : string) (series : time_series) : bool :=
  bool_decide (labels series !! "function_name" = Some function_name).

(** The samples of the points of the series labelled with
    [function_name], in the order of the answer. *)
Definition matching_samples (function_name key : string)
    (results : list time_series) : list sample :=
  flat_map (fun series =>
              if labelled function_name series
              then map (sample_of key) (points series) else [])
           results.

(** The two queries of a call. *)
Definition widened_query (cfg : GCPConfig) (metric_filter : string)
    (start_time end_time : Z) : query :=
  {| query_project := "projects/" +:+ config_project_name cfg;
     query_filter := metric_filter;
     query_start_seconds := start_time - 60;
     query_end_seconds := end_time + 60 |}.

(** [for result in results]. *)
Fixpoint collect (function_name metric key : string) (results : list time_series)
    (requests : accumulator) : accumulator * result unit :=
  match results with
  | [] => (requests, Ok tt)
  | series :: rest =>
      if labelled function_name series then
        match append_points function_name metric key (points series) requests with
        | (requests', Ok _) => collect function_name metric key rest requests'
        | failed => failed
        end
      else collect function_name metric key rest requests
  end.

(** What a call leaves behind: the accumulator, the queries made and
    the outcome. *)
Record outcome := {
  out_requests : accumulator;
  out_queries : list query;
  out_result : result unit
}.

Definition download_metrics (cfg : GCPConfig) (function_name : string)
    (start_time end_time : Z) (requests : accumulator) : outcome :=
  let project_name := "projects/" +:+ config_project_name cfg in
  let interval_start := start_time - 60 in
  let interval_end := end_time + 60 in
  let q1 := {| query_project := project_name;
               query_filter := execution_times_filter;
               query_start_seconds := interval_start;
               query_end_seconds := interval_end |} in
  match list_time_series [q1] with
  | Ok results =>
      match collect function_name "execution_times" "mean_time" results requests with
      | (requests1, Ok _) =>
          let q2 := {| query_project := project_name;
                       query_filter := user_memory_bytes_filter;
                       query_start_seconds := interval_start;
                       query_end_seconds := interval_end |} in
          match list_time_series [q1; q2] with
          | Ok results =>
              let '(requests2, r) :=
                collect function_name "user_memory_bytes" "mean_memory"
                        results requests1 in
              {| out_requests := requests2; out_queries := [q1; q2]; out_result := r |}
          | Raise e =>
              {| out_requests := requests1; out_queries := [q1; q2];
                 out_result := Raise e |}
          | OutOfFuel =>
              {| out_requests := requests1; out_queries := [q1; q2];
                 out_result := OutOfFuel |}
          end
      | (requests1, r) =>
          {| out_requests := requests1; out_queries := [q1]; out_result := r |}
      end
  | Raise e =>
      {| out_requests := requests; out_queries := [q1]; out_result := Raise e |}
  | OutOfFuel =>
      {| out_requests := requests; out_queries := [q1]; out_result := OutOfFuel |}
  end.

End Collector.

Arguments mean {float}.
Arguments count {float}.
Arguments labels {float}.
Arguments points {float}.
Arguments mean_key {float}.
Arguments mean_value {float}.
Arguments executions_count {float}.
Arguments out_requests {float}.
Arguments out_queries {float}.
Arguments out_result {float}.

End Metrics.

(** ** Notions used in the statements *)

(** The manifest [package_code] writes and the dependency it lists. *)
Definition manifest : string := "requirements.txt".
Definition storage_library : string := "google-cloud-storage".

Definition archive_name (cp : Benchmark) : string := benchmark cp +:+ ".zip".

Definition zip_command (cp : Benchmark) : string :=
  "zip -qu -r9 " +:+ archive_name cp +:+ " * .".

(** The events of a completed [package_code]. *)
Definition packaging_events (env : Env) (cp : Benchmark) (directory : string)
    (size : Z) : list event :=
  [EvBuild (benchmark cp);
   EvExecute (zip_command cp);
   EvLogInfo ("Created " +:+ (Py.path_join directory (benchmark cp) +:+ ".zip")
              +:+ " archive");
   EvLogInfo ("Zip archive size " +:+ format_mbytes env size +:+ " MB")].

(** The successive states of the build directory in a completed
    [package_code]: as built, after the relocation, at the archiving
    command, and at the end. *)
Record packaging_run := {
  run_directory : string;
  run_built : directory_state;
  run_package_config : list string;
  run_relocated : directory_state;
  run_names : string * string;
  run_renamed : directory_state;
  run_bytes : string;
  run_size : Z;
  run_final : directory_state
}.

Definition completed (env : Env) (cp : Benchmark) (w : World) (run : packaging_run)
  : Prop :=
  let with_function := <["function" := Dir ∅]> (run_built run) in
  let archived := <[archive_name cp := File (run_bytes run)]> (run_renamed run) in
  env_build env (trace w ++ [EvBuild (benchmark cp)]) (fs w)
    = Ok (run_directory run, run_built run) ∧
  dict_get CONFIG_FILES (language_name cp) = Ok (run_package_config run) ∧
  run_built run !! "function" = None ∧
  relocate (run_package_config run) "function" (listdir with_function) with_function
    = Ok (run_relocated run) ∧
  dict_get HANDLER (language_name cp) = Ok (run_names run) ∧
  shutil_move (run_names run).1 (run_names run).2
    (<[manifest := File storage_library]> (run_relocated run)) = Ok (run_renamed run) ∧
  env_execute env (trace w ++ [EvBuild (benchmark cp); EvExecute (zip_command cp)])
    (run_renamed run) = Ok (run_bytes run) ∧
  getsize (archive_name cp) archived = Ok (run_size run) ∧
  shutil_move (run_names run).2 (run_names run).1 archived = Ok (run_final run).

(** Classes of events. *)
Definition is_patch (ev : event) : bool :=
  match ev with EvRegistry (ReqPatch _ _) => true | _ => false end.
Definition is_create (ev : event) : bool :=
  match ev with EvRegistry (ReqCreate _ _) => true | _ => false end.
Definition is_registry (ev : event) : bool :=
  match ev with EvRegistry _ => true | _ => false end.
Definition is_upload (ev : event) : bool :=
  match ev with EvUpload _ _ _ => true | _ => false end.
Definition is_cache_write (ev : event) : bool :=
  match ev with EvCacheAdd _ _ _ _ _ _ _ | EvCacheUpdate _ _ _ _ _ => true | _ => false end.
Definition is_get (ev : event) : bool :=
  match ev with EvRegistry (ReqGet _) => true | _ => false end.
Definition is_call (ev : event) : bool :=
  match ev with EvRegistry (ReqCall _ _) => true | _ => false end.
Definition is_sleep (ev : event) : bool :=
  match ev with EvSleep _ => true | _ => false end.
Definition is_log (ev : event) : bool :=
  match ev with EvLogInfo _ | EvLogError _ => true | _ => false end.

(** The events of a completed [update_function]. *)
Definition update_events (env : Env) (full_func_name code_package_name : string)
    (cp : Benchmark) (bucket : string) : list event :=
  [EvAddInputBucket (benchmark cp);
   EvRegistry (ReqPatch full_func_name
     (make_body full_func_name cp (timeout (benchmark_config cp))
        (memory (benchmark_config cp)) bucket code_package_name));
   EvLogInfo ("Updating GCP code of function " +:+ full_func_name
              +:+ " from " +:+ str_benchmark env cp)].

(** The cache entry the stale path of [get_function] writes back. *)
Definition refreshed_entry (cp : Benchmark) (code_size : Z) : gmap string json :=
  <["hash" := JStr (hash cp)]>
  (<["memory" := JInt (memory (benchmark_config cp))]>
   (<["timeout" := JInt (timeout (benchmark_config cp))]>
    (<["code_size" := JInt code_size]> (cached_config cp)))).

(** [self] once [get_function] has recorded the region and the project. *)
Definition located (g : GCP) : GCP :=
  {| config := config g; function_client := function_client g;
     storage := storage g; location := Some (region (config g));
     project_name := Some (config_project_name (config g));
     func_name := func_name g |}.

(** The cache entry the uncached path of [get_function] records. *)
Definition new_entry (cp : Benchmark) (func_name : string) (code_size : Z)
    (invoke_url : json) : gmap string json :=
  <["name" := JStr func_name]>
  (<["code_size" := JInt code_size]>
   (<["runtime" := JStr (language_version cp)]>
    (<["memory" := JInt (memory (benchmark_config cp))]>
     (<["timeout" := JInt (timeout (benchmark_config cp))]>
      (<["hash" := JStr (hash cp)]>
       (<["url" := invoke_url]> ∅)))))).

(** The events of the uncached path of [get_function] between packaging
    and the create-or-update decision: the archive is staged, then the
    registry is listed. *)
Definition staging_events (cp : Benchmark) (func_name bucket package parent : string)
  : list event :=
  [EvAddInputBucket (benchmark cp);
   EvUpload bucket (Py.basename package) package;
   EvLogInfo ("Uploading function " +:+ func_name +:+ " code to " +:+ bucket);
   EvRegistry (ReqList parent)].

(** The archives the [patch] requests of a trace point at, and the
    objects its [upload] calls stage, as [gs://bucket/name] locations. *)
Fixpoint patched_archives (t : list event) : list string :=
  match t with
  | [] => []
  | EvRegistry (ReqPatch _ body) :: t' => body_sourceArchiveUrl body :: patched_archives t'
  | _ :: t' => patched_archives t'
  end.

Fixpoint staged_archives (t : list event) : list string :=
  match t with
  | [] => []
  | EvUpload bucket name _ :: t' =>
      ("gs://" +:+ bucket +:+ "/" +:+ name) :: staged_archives t'
  | _ :: t' => staged_archives t'
  end.

(** The keys the stale path of [get_function] overwrites. *)
Definition refreshed_keys : list string := ["code_size"; "timeout"; "memory"; "hash"].

(** [k] rounds of the readiness loop that found the function not yet
    active: a [get], then a sleep of 5. *)
Fixpoint polls (full_func_name : string) (k : nat) : list event :=
  match k with
  | O => []
  | S k' => EvRegistry (ReqGet full_func_name) :: EvSleep 5 :: polls full_func_name k'
  end.

(** What the registry reports to a [get] made after the history [t]. *)
Definition reported_status (env : Env) (t : list event) (full_func_name : string)
  : option json :=
  match env_registry env (t ++ [EvRegistry (ReqGet full_func_name)]) with
  | Ok res => res !! "status"
  | _ => None
  end.

Definition reports_active (env : Env) (t : list event) (full_func_name : string) : Prop :=
  ∃ status, reported_status env t full_func_name = Some status ∧
            json_eq_str status "ACTIVE" = true.

Definition reports_pending (env : Env) (t : list event) (full_func_name : string) : Prop :=
  ∃ status, reported_status env t full_func_name = Some status ∧
            json_eq_str status "ACTIVE" = false.

(** The response carries an error field that is not the empty string. *)
Definition error_field_nonempty (res : gmap string json) : bool :=
  match res !! "error" with
  | Some error => negb (json_eq_str error EmptyString)
  | None => false
  end.

(** The registry requests of [invoke_sync] all name [full_func_name]. *)
Definition targets (full_func_name : string) (ev : event) : Prop :=
  match ev with
  | EvRegistry (ReqGet name) | EvRegistry (ReqCall name _) => name = full_func_name
  | EvRegistry _ => False
  | _ => True
  end.

(** The events of a trace that are not log lines. *)
Definition without_logs (t : list event) : list event :=
  List.filter (fun ev => negb (is_log ev)) t.

(** The two lines [invoke_sync] logs before it raises. *)
Definition failure_logs (name payload : string) : list event :=
  [EvLogError ("Invocation of " +:+ name +:+ " failed!");
   EvLogError ("Input: " +:+ payload)].

(** The instance knows its project, its region, a function name and its
    registry client. *)
Definition established (g : GCP) (p l f : string) : Prop :=
  project_name g = Some p ∧ location g = Some l ∧ func_name g = Some f ∧
  is_Some (function_client g).

(** A method leaves a component of the instance as it found it, whatever
    its outcome. *)
Definition keeps {A X : Type} (proj : GCP → X) (m : M A) : Prop :=
  ∀ w, proj (self (m w).2) = proj (self w).

(** A call of a method that runs on the instance, with its arguments.
    ([download_metrics] reads the configuration only and is modelled apart,
    in [Metrics].) *)
Inductive method_call :=
| CallInitialize
| CallGetFunctionClient
| CallGetStorage (replace : bool) (benchmark : option string) (buckets : option (list Z))
| CallPackageCode (cp : Benchmark)
| CallGetFunction (cp : Benchmark)
| CallUpdateFunction (benchmark full_func_name code_package_name : string)
    (cp : Benchmark) (timeout memory : Z)
| CallPrepareExperiment (benchmark : string)
| CallInvokeSync (fuel : nat) (name : string) (payload : json)
| CallInvokeAsync (name : string) (payload : json)
| CallShutdown
| CallCreateFunctionCopies.

(** Run a call for its effect. *)
Definition run (env : Env) (c : method_call) : M unit :=
  match c with
  | CallInitialize => initialize env
  | CallGetFunctionClient => get_function_client ;;; ret tt
  | CallGetStorage replace benchmark buckets =>
      get_storage env replace benchmark buckets ;;; ret tt
  | CallPackageCode cp => package_code env cp ;;; ret tt
  | CallGetFunction cp => get_function env cp ;;; ret tt
  | CallUpdateFunction benchmark full_func_name code_package_name cp timeout memory =>
      update_function env benchmark full_func_name code_package_name cp timeout memory
  | CallPrepareExperiment benchmark => prepare_experiment env benchmark ;;; ret tt
  | CallInvokeSync fuel name payload => invoke_sync env fuel name payload ;;; ret tt
  | CallInvokeAsync name payload => invoke_async name payload
  | CallShutdown => shutdown
  | CallCreateFunctionCopies => create_function_copies
  end.

(** Run calls one after the other, whatever their outcomes. *)
Fixpoint run_all (env : Env) (calls : list method_call) (w : World) : World :=
  match calls with
  | [] => w
  | c :: rest => run_all env rest (run env c w).2
  end.

Definition is_get_function (c : method_call) : bool :=
  match c with CallGetFunction _ => true | _ => false end.

(** ** Concrete collaborators and states, for evaluating the methods *)

Module Mock.

Definition count_gets (t : list event) : nat := length (List.filter is_get t).

(** A registry that lists [functions], answers the first [pending]
    [get] requests with a [DEPLOY_IN_PROGRESS] status and the later ones
    with [ACTIVE] and a trigger url, and answers a [call] with
    [call_response]. *)
Definition registry_answer (functions : list json) (pending : nat)
    (call_response : gmap string json) (t : list event)
  : result (gmap string json) :=
  match last t with
  | Some (EvRegistry (ReqList _)) => Ok (<["functions" := JList functions]> ∅)
  | Some (EvRegistry (ReqGet _)) =>
      if bool_decide (count_gets t ≤ pending)%nat
      then Ok (<["status" := JStr "DEPLOY_IN_PROGRESS"]> ∅)
      else Ok (<["status" := JStr "ACTIVE"]>
               (<["httpsTrigger" := JObj (<["url" := JStr "https://fn.example/f"]> ∅)]> ∅))
  | Some (EvRegistry (ReqCall _ _)) => Ok call_response
  | _ => Ok ∅
  end.

(** Collaborators that all succeed: the archive has [archive] as its
    bytes when [zip] is [Some archive], and the archiving command fails
    when it is [None]; a call takes 1500 microseconds. *)
Definition env (zip : option string) (functions : list json) (pending : nat)
    (call_response : gmap string json) : Env :=
  {| env_build := fun _ d => Ok ("/tmp/build", d);
     env_execute := fun _ _ =>
       match zip with
       | Some archive => Ok archive
       | None => Raise (ExternalError "zip failed")
       end;
     env_directory_size := fun _ => Ok 2048;
     env_add_input_bucket := fun _ => Ok ("bucket-input", 0);
     env_add_output_bucket := fun _ => Ok "bucket-logs";
     env_storage_buckets := fun _ =>
       (JList [JStr "bucket-input"], JList [JStr "bucket-output"]);
     env_registry := registry_answer functions pending call_response;
     env_unit := fun _ => Ok tt;
     env_now := fun t => 1500 * Z.of_nat (length (List.filter is_call t));
     json_dumps := fun _ => "{}";
     py_repr := fun _ => "<object>";
     str_benchmark := fun _ => "<Benchmark>";
     format_mbytes := fun _ => "0.000000" |}.

(** A build directory as [build] leaves it for a Python benchmark. *)
Definition python_directory : directory_state :=
  list_to_map [("handler.py", File "def handler(): pass");
               ("function.py", File "def f(): pass");
               ("requirements.txt", File "numpy");
               (".python_packages", Dir ∅)].

Definition gcp_config : GCPConfig :=
  {| region := "europe-west1"; config_project_name := "proj" |}.

(** An initialised instance and its state. *)
Definition instance (name : option string) : GCP :=
  {| config := gcp_config;
     function_client := Some CloudFunctionsV1;
     storage := Some {| replace_existing := false |};
     location := None; project_name := None; func_name := name |}.

Definition world (d : directory_state) (name : option string) : World :=
  {| trace := []; fs := d; cwd := "/home/user"; self := instance name |}.

Definition cache_entry (h : string) : gmap string json :=
  list_to_map [("name", JStr "foo_b1_python_256"); ("code_size", JInt 10);
               ("runtime", JStr "3.8"); ("memory", JInt 128);
               ("timeout", JInt 30); ("hash", JStr h);
               ("url", JStr "https://fn.example/f")].

(** Benchmark [b1], Python 3.8, memory 256, with source hash [h] and
    the given cache state. *)
Definition b1 (h : string) (cached valid : bool) (entry : gmap string json)
  : Benchmark :=
  {| benchmark := "b1"; language_name := "python"; language_version := "3.8";
     hash := h; is_cached := cached; is_cached_valid := valid;
     cached_config := entry; code_location := "/tmp/build";
     benchmark_config := {| timeout := 60; memory := 256 |} |}.

(** The runs the statements are tried on: all collaborators succeed,
    or the archiving command alone fails; the registry lists nothing
    and is active at once. *)
Definition succeeding : Env := env (Some "PK") [] 0 ∅.
Definition failing_zip : Env := env None [] 0 ∅.
Definition fresh_world : World := world python_directory None.

(** An instance on which project, region and a function name are set,
    and its state. *)
Definition ready_world : World :=
  {| trace := []; fs := python_directory; cwd := "/home/user";
     self := {| config := gcp_config;
                function_client := Some CloudFunctionsV1;
                storage := Some {| replace_existing := false |};
                location := Some "europe-west1"; project_name := Some "proj";
                func_name := Some "foo_b1_python_256" |} |}.

Definition ready_name : string :=
  "projects/proj/locations/europe-west1/functions/foo_b1_python_256".

(** The registry reports the function active at the third [get] and
    answers the call with a result. *)
Definition slow_registry : Env :=
  env None [] 2 (<["result" := JStr "ok"]> ∅).

(** The registry is active at once and answers the call with an empty
    response, or with an error. *)
Definition empty_response : Env := env None [] 0 ∅.
Definition error_response : Env := env None [] 0 (<["error" := JStr "boom"]> ∅).

Definition uncached_b1 : Benchmark := b1 "h1" false false ∅.
Definition valid_b1 : Benchmark := b1 "h1" true true (cache_entry "h1").
Definition stale_b1 : Benchmark := b1 "h2" true false (cache_entry "h1").

(** A telemetry backend with integer-valued means: two series for the
    execution times, one of them of another function, and one series
    for the memory. *)
Definition labelled_series (function_name : string) (pts : list (Z * Z))
  : Metrics.time_series Z :=
  {| Metrics.labels := {["function_name" := function_name]};
     Metrics.points :=
       map (fun p => {| Metrics.mean := p.1; Metrics.count := p.2 |}) pts |}.

Definition telemetry (queries : list Metrics.query)
  : result (list (Metrics.time_series Z)) :=
  match queries with
  | [_] => Ok [labelled_series "f" [(120, 3); (80, 1)]; labelled_series "g" [(5, 1)]]
  | [_; _] => Ok [labelled_series "f" [(4096, 4)]]
  | _ => Ok []
  end.

Definition earlier_sample : Metrics.sample Z :=
  {| Metrics.mean_key := "mean_time"; Metrics.mean_value := 100;
     Metrics.executions_count := 2 |}.

(** An accumulator that already holds a sample for [f]. *)
Definition requests : gmap string (gmap string (list (Metrics.sample Z))) :=
  {["f" := <["execution_times" := [earlier_sample]]>
           (<["user_memory_bytes" := []]> ∅)]}.

End Mock.

(** ** Further notions used in the statements *)

(** Whether the listing [res] of the registry names [full_func_name]:
    the test of [get_function] before it updates or creates. *)
Definition listed_in (res : gmap string json) (full_func_name : string) : result bool :=
  match res !! "functions" with
  | None => Ok false
  | Some functions =>
      match names_of functions with
      | Ok names => Ok (str_in_values full_func_name names)
      | Raise e => Raise e
      | OutOfFuel => OutOfFuel
      end
  end.

(** The separators [get_function] normalises in a derived name. *)
Definition normalise (s : string) : string :=
  Py.replace "." "_" (Py.replace "-" "_" s).

(** The state [get_function] works in once it has recorded the region and
    the project. *)
Definition located_world (w : World) : World := set_self (located (self w)) w.

Definition is_execute (ev : event) : bool :=
  match ev with EvExecute _ => true | _ => false end.

(** The events [package_code] may record. *)
Definition is_packaging (ev : event) : bool :=
  match ev with
  | EvBuild _ | EvExecute _ | EvLogInfo _ => true
  | _ => false
  end.

(** The entries of the build directory when [package_code] returns: the
    archive, the manifest, the function directory holding what was
    relocated, and the entries of [package_config] where [build] left
    them. *)
Definition packaged_entry (cp : Benchmark) (package_config : list string)
    (built : directory_state) (bytes : string) (k : string) : option node :=
  if bool_decide (k = archive_name cp) then Some (File bytes)
  else if bool_decide (k = manifest) then Some (File storage_library)
  else if bool_decide (k = "function") then
    Some (Dir (filter (fun entry => entry.1 ∉ package_config) built))
  else if bool_decide (k ∈ package_config) then built !! k
  else None.

(** Whatever its outcome, a method records only events of a given kind. *)
Definition records {A : Type} (kind : event → bool) (m : M A) : Prop :=
  ∀ w, ∃ t, trace (m w).2 = trace w ++ t ∧ forallb kind t = true.

(** The events [invoke_sync] may record. *)
Definition is_invocation (ev : event) : bool :=
  match ev with
  | EvRegistry (ReqGet _) | EvRegistry (ReqCall _ _) | EvSleep _ | EvLogError _ => true
  | _ => false
  end.

(** The events [update_function] may record. *)
Definition is_update (ev : event) : bool :=
  match ev with
  | EvAddInputBucket _ | EvRegistry (ReqPatch _ _) | EvLogInfo _ => true
  | _ => false
  end.

(** ** Further concrete collaborators and states *)

Module Scenario.

(** Benchmark [b1] in a language outside the tables. *)
Definition ruby_b1 : Benchmark :=
{| benchmark := "b1"; language_name := "ruby"; language_version := "3.2";
   hash := "h1"; is_cached := false; is_cached_valid := false;
   cached_config := ∅; code_location := "/tmp/build";
   benchmark_config := {| timeout := 60; memory := 256 |} |}.

(** Benchmark [b1] with a cache entry that has no name. *)
Definition nameless_b1 : Benchmark :=
Mock.b1 "h2" true false (delete "name" (Mock.cache_entry "h1")).

(** A built directory without the handler. *)
Definition no_handler_directory : directory_state :=
list_to_map [("function.py", File "def f(): pass");
             ("requirements.txt", File "numpy")].

(** An instance just made, on which nothing was initialised. *)
Definition unset_world : World :=
{| trace := []; fs := Mock.python_directory; cwd := "/home/user";
   self := init Mock.gcp_config |}.

Definition full_b1 : string :=
"projects/proj/locations/europe-west1/functions/foo_b1_python_256".

(** Collaborators whose registry already lists the function of [b1]. *)
Definition listing : Env :=
Mock.env (Some "PK") [JObj {["name" := JStr full_b1]}] 0 ∅.

(** Collaborators whose registry answers the second poll without a
  status, and collaborators whose registry raises on the call. *)
Definition with_registry (answer : list event → result (gmap string json)) : Env :=
{| env_build := env_build Mock.succeeding;
   env_execute := env_execute Mock.succeeding;
   env_directory_size := env_directory_size Mock.succeeding;
   env_add_input_bucket := env_add_input_bucket Mock.succeeding;
   env_add_output_bucket := env_add_output_bucket Mock.succeeding;
   env_storage_buckets := env_storage_buckets Mock.succeeding;
   env_registry := answer;
   env_unit := env_unit Mock.succeeding;
   env_now := env_now Mock.succeeding;
   json_dumps := json_dumps Mock.succeeding;
   py_repr := py_repr Mock.succeeding;
   str_benchmark := str_benchmark Mock.succeeding;
   format_mbytes := format_mbytes Mock.succeeding |}.

Definition statusless : Env :=
with_registry (fun t =>
  if bool_decide (Mock.count_gets t ≤ 1)%nat
  then Ok {["status" := JStr "DEPLOY_IN_PROGRESS"]}
  else Ok ∅).

Definition refusing_calls : Env :=
with_registry (fun t =>
  match last t with
  | Some (EvRegistry (ReqCall _ _)) => Raise (ExternalError "unavailable")
  | _ => Ok {["status" := JStr "ACTIVE"]}
  end).

(** An accumulator whose entry for [f] has no list of memory samples, and
  a telemetry backend that raises. *)
Definition requests_without_memory
: gmap string (gmap string (list (Metrics.sample Z))) :=
{["f" := {["execution_times" := [Mock.earlier_sample]]}]}.

Definition failing_telemetry (queries : list Metrics.query)
: result (list (Metrics.time_series Z)) :=
Raise (ExternalError "deadline exceeded").

End Scenario.

(** * Properties *)

(** ** Strings *)

Section StringFacts.

Implicit Types (s : string) (c d : ascii).

Lemma prefix_single c a s :
  String.prefix (String c EmptyString) (String a s) = bool_decide (c = a).
Proof.
  simpl. destruct (ascii_dec c a) as [->|Hne].
  - rewrite bool_decide_eq_true_2 by done. by destruct s.
  - by rewrite bool_decide_eq_false_2.
Qed.

Lemma contains_single_cons c a s :
  Py.contains (String c EmptyString) (String a s)
  = bool_decide (c = a) || Py.contains (String c EmptyString) s.
Proof.
  change (Py.contains (String c EmptyString) (String a s))
    with (String.prefix (String c EmptyString) (String a s)
          || Py.contains (String c EmptyString) s).
  by rewrite prefix_single.
Qed.

Lemma replace_single_cons c d a s :
  Py.replace (String c EmptyString) (String d EmptyString) (String a s)
  = String (if bool_decide (c = a) then d else a)
           (Py.replace (String c EmptyString) (String d EmptyString) s).
Proof.
  unfold Py.replace.
  change (Py.replace_from (String c EmptyString) (String d EmptyString) 0 (String a s))
    with (if String.prefix (String c EmptyString) (String a s)
          then String d EmptyString
               +:+ Py.replace_from (String c EmptyString) (String d EmptyString) 0 s
          else String a (Py.replace_from (String c EmptyString)
                           (String d EmptyString) 0 s)).
  rewrite prefix_single. by case_bool_decide.
Qed.

(** Replacing a character by another one removes it. *)
Lemma replace_single_removes c d s :
  c ≠ d →
  Py.contains (String c EmptyString)
    (Py.replace (String c EmptyString) (String d EmptyString) s) = false.
Proof.
  intros Hcd. induction s as [|a s IH]; [done|].
  rewrite replace_single_cons, contains_single_cons, IH, orb_false_r.
  apply bool_decide_eq_false_2. case_bool_decide; congruence.
Qed.

(** Replacing a character does not bring in a character other than the
    replacement. *)
Lemma replace_single_keeps_absent c d e s :
  e ≠ d →
  Py.contains (String e EmptyString) s = false →
  Py.contains (String e EmptyString)
    (Py.replace (String c EmptyString) (String d EmptyString) s) = false.
Proof.
  intros Hed. induction s as [|a s IH]; [done|].
  rewrite replace_single_cons, !contains_single_cons.
  intros [Hea Hs]%orb_false_elim. rewrite (IH Hs), orb_false_r.
  apply bool_decide_eq_false_2. apply bool_decide_eq_false_1 in Hea.
  case_bool_decide; congruence.
Qed.

Lemma last_char_app default s a t :
  Py.last_char default (s +:+ String a t) = Py.last_char a t.
Proof. revert default. induction s as [|b s IH]; intros; simpl; [done|apply IH]. Qed.

(** An archive name is none of the names [package_code] handles. *)
Lemma archive_name_ne b s :
  Py.last_char "000"%char s ≠ "p"%char → b +:+ ".zip" ≠ s.
Proof.
  intros Hs Heq. apply Hs. rewrite <- Heq.
  by rewrite (last_char_app _ b "."%char "zip").
Qed.

End StringFacts.

Lemma derive_func_name_clean b l m :
  Py.contains "-" (derive_func_name b l m) = false ∧
  Py.contains "." (derive_func_name b l m) = false.
Proof.
  unfold derive_func_name. split.
  - apply (replace_single_keeps_absent "."%char "_"%char "-"%char); [done|].
    by apply (replace_single_removes "-"%char "_"%char).
  - by apply (replace_single_removes "."%char "_"%char).
Qed.

(** ** Running a method step by step *)

Section Steps.

Context {A B : Type}.

Lemma bind_ok (m : M A) (f : A → M B) w b w' :
  bind m f w = (Ok b, w') →
  ∃ a w1, m w = (Ok a, w1) ∧ f a w1 = (Ok b, w').
Proof.
  unfold bind. destruct (m w) as [[a| |] w1]; [eauto|done..].
Qed.

Lemma bind_run (m : M A) (f : A → M B) w a w1 :
  m w = (Ok a, w1) → bind m f w = f a w1.
Proof. unfold bind. by intros ->. Qed.

Lemma lift_ok (r : result A) w a w' :
  lift r w = (Ok a, w') → r = Ok a ∧ w' = w.
Proof. unfold lift. by intros [= -> ->]. Qed.

Lemma outside_run ev (answer : list event → result A) w :
  outside ev answer w
  = (answer (trace w ++ [ev]), set_trace (trace w ++ [ev]) w).
Proof. done. Qed.

Lemma outside_ok ev (answer : list event → result A) w a w' :
  outside ev answer w = (Ok a, w') →
  answer (trace w ++ [ev]) = Ok a ∧ w' = set_trace (trace w ++ [ev]) w.
Proof. rewrite outside_run. by intros [= -> ->]. Qed.

Lemma read_fs_ok (op : directory_state → result A) w a w' :
  read_fs op w = (Ok a, w') → op (fs w) = Ok a ∧ w' = w.
Proof. unfold read_fs. by intros [= -> ->]. Qed.

Lemma attribute_ok name (get : GCP → option A) w a w' :
  attribute name get w = (Ok a, w') → get (self w) = Some a ∧ w' = w.
Proof.
  unfold attribute. destruct (get (self w)); [|done]. by intros [= -> ->].
Qed.

End Steps.

Lemma emit_ok ev w u w' :
  emit ev w = (Ok u, w') → w' = set_trace (trace w ++ [ev]) w.
Proof. unfold emit. by intros [= _ <-]. Qed.

Lemma on_fs_ok op w u w' :
  on_fs op w = (Ok u, w') → ∃ d, op (fs w) = Ok d ∧ w' = set_fs d w.
Proof.
  unfold on_fs. destruct (op (fs w)) as [d| |]; [|done..].
  intros [= _ <-]. eauto.
Qed.

Lemma build_ok env cp w directory w' :
  build env cp w = (Ok directory, w') →
  ∃ d, env_build env (trace w ++ [EvBuild (benchmark cp)]) (fs w) = Ok (directory, d) ∧
       w' = set_fs d (set_trace (trace w ++ [EvBuild (benchmark cp)]) w).
Proof.
  unfold build. intros (u & w1 & ->%emit_ok & H)%bind_ok. simpl in H.
  destruct (env_build _ _ _) as [[dir d]| |]; [|done..].
  injection H as -> <-. eauto.
Qed.

Lemma execute_zip_ok env cmd archive w u w' :
  execute_zip env cmd archive w = (Ok u, w') →
  ∃ bytes, env_execute env (trace w ++ [EvExecute cmd]) (fs w) = Ok bytes ∧
           w' = set_fs (<[archive := File bytes]> (fs w))
                  (set_trace (trace w ++ [EvExecute cmd]) w).
Proof.
  unfold execute_zip. intros (u' & w1 & ->%emit_ok & H)%bind_ok. simpl in H.
  destruct (env_execute _ _ _) as [bytes| |]; [|done..].
  injection H as <-. eauto.
Qed.

(** ** The build directory *)

Section Directory.

Implicit Types (d : directory_state) (k src dst : string).

(** A move touches its two names only. *)
Lemma shutil_move_other src dst d d' k :
  shutil_move src dst d = Ok d' → k ≠ src → k ≠ dst → d' !! k = d !! k.
Proof.
  unfold shutil_move. intros H Hsrc Hdst.
  repeat (case_match || case_bool_decide); simplify_eq; try done;
    by rewrite lookup_insert_ne, ?lookup_delete_ne by done.
Qed.

(** A rename onto a free name: the source must exist, and its node ends
    under the destination. *)
Lemma shutil_move_rename src dst d d' :
  shutil_move src dst d = Ok d' → d !! dst = None → src ≠ dst →
  ∃ n, d !! src = Some n ∧ d' = <[dst := n]> (delete src d).
Proof.
  unfold shutil_move. intros H Hdst Hne. rewrite Hdst in H.
  destruct (d !! src) as [n|]; [|done]. injection H as <-. eauto.
Qed.

(** A move into a directory leaves no entry under the source name and
    keeps the destination a directory. *)
Lemma shutil_move_into src dst d d' children :
  shutil_move src dst d = Ok d' → d !! dst = Some (Dir children) → src ≠ dst →
  d' !! src = None ∧ ∃ children', d' !! dst = Some (Dir children').
Proof.
  unfold shutil_move. intros H Hdst Hne. rewrite Hdst in H.
  rewrite bool_decide_eq_false_2 in H by done.
  destruct (children !! src); [done|].
  destruct (d !! src) as [n|]; [|done]. injection H as <-.
  rewrite lookup_insert_ne, lookup_delete_eq, lookup_insert_eq by done. eauto.
Qed.

Lemma shutil_move_same dst d d' children :
  shutil_move dst dst d = Ok d' → d !! dst = Some (Dir children) → d' = d.
Proof.
  unfold shutil_move. intros H Hdst. rewrite Hdst in H.
  rewrite bool_decide_eq_true_2 in H by done. by injection H.
Qed.

(** The relocation loop, when it completes: the names of
    [package_config] are untouched, and of the other names only the
    function directory is left. *)
Lemma relocate_ok package_config function_dir listing d d' children :
  relocate package_config function_dir listing d = Ok d' →
  d !! function_dir = Some (Dir children) →
  function_dir ∉ package_config →
  (∃ children', d' !! function_dir = Some (Dir children')) ∧
  (∀ k, k ∈ package_config → d' !! k = d !! k) ∧
  (∀ k, k ∉ package_config → k ≠ function_dir →
        k ∈ listing ∨ d !! k = None → d' !! k = None).
Proof.
  intros H Hdir Hfd. revert d children H Hdir.
  induction listing as [|file rest IH]; intros d children H Hdir; simpl in H.
  - injection H as <-. split; [eauto|]. split; [done|].
    intros k _ _ [Hin|Hnone]; [by apply elem_of_nil in Hin|done].
  - case_bool_decide as Hin.
    + destruct (IH _ _ H Hdir) as (Hd & Hkeep & Hgone).
      split; [done|]. split; [done|].
      intros k Hk Hkf [Hkin|Hnone]; [|by apply Hgone; auto].
      apply elem_of_cons in Hkin as [->|Hkin]; [done|]. by apply Hgone; auto.
    + destruct (shutil_move file function_dir d) as [d1| |] eqn:Hmove; [|done..].
      destruct (decide (file = function_dir)) as [->|Hne].
      * apply (shutil_move_same _ _ _ children) in Hmove as ->; [|done].
        destruct (IH _ _ H Hdir) as (Hd & Hkeep & Hgone).
        split; [done|]. split; [done|].
        intros k Hk Hkf [Hkin|Hnone]; [|by apply Hgone; auto].
        apply elem_of_cons in Hkin as [->|Hkin]; [done|]. by apply Hgone; auto.
      * destruct (shutil_move_into _ _ _ _ _ Hmove Hdir Hne)
          as (Hsrc & children1 & Hdir1).
        destruct (IH _ _ H Hdir1) as (Hd & Hkeep & Hgone).
        split; [done|]. split.
        -- intros k Hk. rewrite (Hkeep k Hk).
           apply (shutil_move_other _ _ _ _ _ Hmove); congruence.
        -- intros k Hk Hkf [Hkin|Hnone].
           ++ apply elem_of_cons in Hkin as [->|Hkin]; apply Hgone; auto.
           ++ apply Hgone; [done..|]. right.
              destruct (decide (k = file)) as [->|Hkfile]; [done|].
              by rewrite (shutil_move_other _ _ _ _ _ Hmove).
Qed.

Lemma elem_of_listdir d k : k ∈ listdir d ↔ is_Some (d !! k).
Proof.
  unfold listdir. rewrite list_elem_of_fmap. split.
  - intros ([k' n] & -> & Hin). apply elem_of_map_to_list in Hin. eauto.
  - intros [n Hn]. exists (k, n). split; [done|]. by apply elem_of_map_to_list.
Qed.

Lemma makedirs_ok name d d' :
  makedirs name d = Ok d' → d !! name = None ∧ d' = <[name := Dir ∅]> d.
Proof. unfold makedirs. destruct (d !! name); [done|]. by intros [= <-]. Qed.

Lemma write_file_ok name data d d' :
  write_file name data d = Ok d' → d' = <[name := File data]> d.
Proof. unfold write_file. repeat case_match; by intros [= <-]. Qed.

Lemma config_files_lookup language pc :
  dict_get CONFIG_FILES language = Ok pc →
  (language = "python" ∧ pc = ["handler.py"; ".python_packages"]) ∨
  (language = "nodejs" ∧ pc = ["handler.js"; "node_modules"]).
Proof.
  unfold dict_get, CONFIG_FILES. simpl.
  destruct (decide (language = "python")) as [->|Hp].
  { rewrite lookup_insert_eq. intros [= <-]. auto. }
  rewrite lookup_insert_ne by done.
  destruct (decide (language = "nodejs")) as [->|Hn].
  { rewrite lookup_insert_eq. intros [= <-]. auto. }
  by rewrite lookup_insert_ne, lookup_empty by done.
Qed.

Lemma handler_lookup language names :
  dict_get HANDLER language = Ok names →
  (language = "python" ∧ names = ("handler.py", "main.py")) ∨
  (language = "nodejs" ∧ names = ("handler.js", "index.js")).
Proof.
  unfold dict_get, HANDLER. simpl.
  destruct (decide (language = "python")) as [->|Hp].
  { rewrite lookup_insert_eq. intros [= <-]. auto. }
  rewrite lookup_insert_ne by done.
  destruct (decide (language = "nodejs")) as [->|Hn].
  { rewrite lookup_insert_eq. intros [= <-]. auto. }
  by rewrite lookup_insert_ne, lookup_empty by done.
Qed.

(** The two tables of [package_code] are read at the same language. *)
Lemma tables_agree language pc names :
  dict_get CONFIG_FILES language = Ok pc →
  dict_get HANDLER language = Ok names →
  (pc = ["handler.py"; ".python_packages"] ∧ names = ("handler.py", "main.py")) ∨
  (pc = ["handler.js"; "node_modules"] ∧ names = ("handler.js", "index.js")).
Proof.
  intros [[-> ->]|[-> ->]]%config_files_lookup [[? ->]|[? ->]]%handler_lookup;
    (done || auto).
Qed.

End Directory.

(** ** The code packager *)

Section Packager.

Variable env : Env.

(** A completed [package_code] went through every step. *)
Lemma package_code_ok cp w p w' :
  package_code env cp w = (Ok p, w') →
  ∃ run,
    completed env cp w run ∧
    p = (Py.path_join (run_directory run) (archive_name cp), run_size run) ∧
    w' = {| trace := trace w
                     ++ packaging_events env cp (run_directory run) (run_size run);
            fs := run_final run; cwd := cwd w; self := self w |}.
Proof.
  unfold package_code. intros H.
  apply bind_ok in H; destruct H as (directory & w1 & (built & Hbuild & ->)%build_ok & H).
  apply bind_ok in H; destruct H as (pc & ? & [Hpc ->]%lift_ok & H).
  apply bind_ok in H; destruct H as (? & ? & (d1 & [Hfree ->]%makedirs_ok & ->)%on_fs_ok & H).
  apply bind_ok in H; destruct H as (listing & ? & [[= <-] ->]%read_fs_ok & H).
  apply bind_ok in H; destruct H as (? & ? & (relocated & Hreloc & ->)%on_fs_ok & H).
  apply bind_ok in H; destruct H as (? & ? & (d2 & ->%write_file_ok & ->)%on_fs_ok & H).
  apply bind_ok in H; destruct H as (cur_dir & ? & [= <- <-] & H).
  apply bind_ok in H; destruct H as (? & ? & [= <-] & H).
  apply bind_ok in H; destruct H as (names & ? & [Hnames ->]%lift_ok & H).
  apply bind_ok in H; destruct H as (? & ? & (renamed & Hrename & ->)%on_fs_ok & H).
  apply bind_ok in H; destruct H as (? & ? & (bytes & Hzip & ->)%execute_zip_ok & H).
  apply bind_ok in H; destruct H as (? & ? & ->%emit_ok & H).
  apply bind_ok in H; destruct H as (size & ? & [Hsize ->]%read_fs_ok & H).
  apply bind_ok in H; destruct H as (? & ? & ->%emit_ok & H).
  apply bind_ok in H; destruct H as (? & ? & (final & Hback & ->)%on_fs_ok & H).
  apply bind_ok in H; destruct H as (? & ? & [= <-] & H).
  injection H as <- <-.
  exists {| run_directory := directory; run_built := built;
            run_package_config := pc; run_relocated := relocated;
            run_names := names; run_renamed := renamed; run_bytes := bytes;
            run_size := size; run_final := final |}.
  subst. simpl in *. rewrite <- !app_assoc in *. simpl in *.
  split; [|done]. by repeat split.
Qed.

(** In a completed run the handler is renamed onto a free name before
    the archiving command and renamed back after it; nothing else
    happens to the directory after the relocation but the writing of
    the manifest and of the archive. *)
Lemma completed_states cp w run :
  completed env cp w run →
  let old_name := (run_names run).1 in
  let new_name := (run_names run).2 in
  ∃ handler,
    (old_name ≠ new_name ∧ manifest ≠ old_name ∧ manifest ≠ new_name ∧
     archive_name cp ≠ old_name ∧ archive_name cp ≠ new_name ∧
     archive_name cp ≠ manifest) ∧
    run_built run !! old_name = Some handler ∧
    run_renamed run
      = <[new_name := handler]>
          (delete old_name (<[manifest := File storage_library]> (run_relocated run))) ∧
    run_final run
      = <[old_name := handler]>
          (delete new_name (<[archive_name cp := File (run_bytes run)]> (run_renamed run))).
Proof.
  intros (Hbuild & Hpc & Hfree & Hreloc & Hnames & Hrename & Hzip & Hsize & Hback).
  destruct run as [directory built pc relocated [old_name new_name] renamed bytes
                   size final]; simpl in *.
  assert (archive_name cp ≠ manifest) as Ham by (by apply archive_name_ne).
  assert (old_name ∈ pc ∧ (new_name ∉ pc) ∧ ("function" ∉ pc) ∧
          old_name ≠ "function" ∧ new_name ≠ "function" ∧ old_name ≠ new_name ∧
          manifest ≠ old_name ∧ manifest ≠ new_name ∧
          archive_name cp ≠ old_name ∧ archive_name cp ≠ new_name)
    as (Hold & Hnew & Hfun & Hof & Hnf & Hon & Hmo & Hmn & Hao & Han).
  { destruct (tables_agree _ _ _ Hpc Hnames) as [[-> [= -> ->]]|[-> [= -> ->]]];
      repeat split; try done; try (by apply (bool_decide_unpack _));
      by apply archive_name_ne. }
  eapply relocate_ok in Hreloc as (_ & Hkeep & Hgone);
    [|apply lookup_insert_eq|done].
  assert (relocated !! new_name = None) as Hfree_new.
  { apply Hgone; [done..|].
    destruct (<["function" := Dir ∅]> built !! new_name) eqn:E; [left|by right].
    apply elem_of_listdir. by rewrite E. }
  apply shutil_move_rename in Hrename as (handler & Hhandler & ->);
    [|by rewrite lookup_insert_ne|done].
  rewrite lookup_insert_ne, (Hkeep _ Hold), lookup_insert_ne in Hhandler by done.
  apply shutil_move_rename in Hback as (handler' & Hhandler' & ->); [|
    by rewrite lookup_insert_ne, lookup_insert_ne, lookup_delete_eq by done|done].
  rewrite lookup_insert_ne, lookup_insert_eq in Hhandler' by done.
  injection Hhandler' as <-.
  exists handler. by repeat split.
Qed.

End Packager.

(** C1, as the code has it: when [package_code] completes, the handler
    that [build] left under its original name is under the platform's
    entry-point name (and no longer under its own) in the directory the
    archiving command runs on, and is back under its original name (the
    entry-point name free again, the working directory restored) when
    [package_code] returns. *)
Theorem package_code_renames_and_restores env cp w p w' :
  package_code env cp w = (Ok p, w') →
  ∃ run handler,
    completed env cp w run ∧
    run_built run !! (run_names run).1 = Some handler ∧
    run_renamed run !! (run_names run).2 = Some handler ∧
    run_renamed run !! (run_names run).1 = None ∧
    fs w' !! (run_names run).1 = Some handler ∧
    fs w' !! (run_names run).2 = None ∧
    cwd w' = cwd w.
Proof.
  intros (run & Hrun & _ & ->)%package_code_ok.
  destruct (completed_states env cp w run Hrun)
    as (handler & (Hon & _) & Hbuilt & Hrenamed & Hfinal).
  exists run, handler. simpl. split; [done|]. split; [done|].
  rewrite Hfinal, Hrenamed. simplify_map_eq. done.
Qed.

(** C10: whatever the benchmark and its language, when [package_code]
    completes the manifest at the root of the build directory is the one
    it wrote, listing the storage client library. *)
Theorem package_code_injects_storage_library env cp w p w' :
  package_code env cp w = (Ok p, w') →
  fs w' !! manifest = Some (File storage_library) ∧
  Py.contains "google-cloud-storage" storage_library = true.
Proof.
  intros (run & Hrun & _ & ->)%package_code_ok.
  destruct (completed_states env cp w run Hrun)
    as (handler & (Hon & Hmo & Hmn & Hao & Han & Ham) & Hbuilt & Hrenamed & Hfinal).
  simpl. rewrite Hfinal, Hrenamed. simplify_map_eq. done.
Qed.

Lemma package_code_renames_and_restores_witness :
  let w' := (package_code Mock.succeeding Mock.uncached_b1 Mock.fresh_world).2 in
  ∃ run handler,
    completed Mock.succeeding Mock.uncached_b1 Mock.fresh_world run ∧
    run_built run !! (run_names run).1 = Some handler ∧
    run_renamed run !! (run_names run).2 = Some handler ∧
    run_renamed run !! (run_names run).1 = None ∧
    fs w' !! (run_names run).1 = Some handler ∧
    fs w' !! (run_names run).2 = None ∧
    cwd w' = "/home/user".
Proof.
  apply (package_code_renames_and_restores Mock.succeeding Mock.uncached_b1
           Mock.fresh_world ("/tmp/build/b1.zip", 2)).
  vm_compute. reflexivity.
Defined.

(** C1 fails when the archiving command fails: [package_code] raises,
    and the handler that was in the build directory as [handler.py] is
    left there as [main.py], the working directory still being the build
    directory. *)
Lemma package_code_failure_keeps_entry_point_name :
  let r := package_code Mock.failing_zip Mock.uncached_b1 Mock.fresh_world in
  fs Mock.fresh_world !! "handler.py" = Some (File "def handler(): pass") ∧
  r.1 = Raise (ExternalError "zip failed") ∧
  fs r.2 !! "handler.py" = None ∧
  fs r.2 !! "main.py" = Some (File "def handler(): pass") ∧
  cwd r.2 = "/tmp/build".
Proof. vm_compute. done. Qed.

Lemma package_code_injects_storage_library_witness :
  let w' := (package_code Mock.succeeding Mock.uncached_b1 Mock.fresh_world).2 in
  fs w' !! "requirements.txt" = Some (File "google-cloud-storage") ∧
  Py.contains "google-cloud-storage" "google-cloud-storage" = true.
Proof.
  apply (package_code_injects_storage_library Mock.succeeding Mock.uncached_b1
           Mock.fresh_world ("/tmp/build/b1.zip", 2)).
  vm_compute. reflexivity.
Defined.

(** ** The cache reconciler and the deployment client *)

Section Reconciler.

Variable env : Env.

Lemma update_function_ok b full_func_name code_package_name cp w u w' :
  update_function env b full_func_name code_package_name cp
    (timeout (benchmark_config cp)) (memory (benchmark_config cp)) w = (Ok u, w') →
  b = benchmark cp →
  ∃ bucket idx,
    env_add_input_bucket env (trace w ++ [EvAddInputBucket b]) = Ok (bucket, idx) ∧
    w' = set_trace
           (trace w ++ update_events env full_func_name code_package_name cp bucket) w.
Proof.
  unfold update_function. intros H ->.
  apply bind_ok in H; destruct H as (? & ? & [_ ->]%attribute_ok & H).
  apply bind_ok in H; destruct H as ([bucket idx] & ? & [Hbucket ->]%outside_ok & H).
  apply bind_ok in H; destruct H as (? & ? & [_ ->]%attribute_ok & H).
  apply bind_ok in H; destruct H as (? & ? & [_ ->]%outside_ok & H).
  apply bind_ok in H; destruct H as (? & ? & ->%emit_ok & H).
  injection H as _ <-. exists bucket, idx. split; [done|].
  unfold set_trace, update_events. simpl. by rewrite <- !app_assoc.
Qed.

(** The stale path, when it completes: packaging, the update, the
    size query and the cache write, in this order. *)
Lemma get_function_stale_ok cp w f w' :
  is_cached cp = true → is_cached_valid cp = false →
  get_function env cp w = (Ok f, w') →
  ∃ name run bucket code_size,
    cached_config cp !! "name" = Some name ∧
    completed env cp w run ∧
    f = {| function_name := name; function_benchmark := benchmark cp;
           function_hash := hash cp |} ∧
    self w' = located (self w) ∧
    let package := Py.path_join (run_directory run) (archive_name cp) in
    let full_func_name :=
      full_name (config_project_name (config (self w))) (region (config (self w)))
        (format_json env name) in
    trace w' =
      trace w
      ++ packaging_events env cp (run_directory run) (run_size run)
      ++ update_events env full_func_name (Py.basename package) cp bucket
      ++ [EvDirectorySize (code_location cp);
          EvCacheUpdate "gcp" (benchmark cp) (language_name cp) package
            (refreshed_entry cp code_size);
          EvLogInfo ("Updating cached function " +:+ format_json env name
                     +:+ " in " +:+ code_location cp)].
Proof.
  intros Hc Hv H. unfold get_function in H.
  apply bind_ok in H; destruct H as (cfg & ? & [= <- <-] & H).
  apply bind_ok in H; destruct H as (? & ? & [= <-] & H).
  apply bind_ok in H; destruct H as (? & ? & [= <-] & H).
  rewrite Hc, Hv in H. simpl in H.
  apply bind_ok in H; destruct H as (name & ? & [Hname ->]%lift_ok & H).
  apply bind_ok in H;
    destruct H as (packaged & ? & (run & Hrun & -> & ->)%package_code_ok & H).
  apply bind_ok in H;
    destruct H as (? & ? & (bucket & idx & _ & ->)%update_function_ok & H); [|done].
  apply bind_ok in H; destruct H as (code_size & ? & [_ ->]%outside_ok & H).
  apply bind_ok in H; destruct H as (? & ? & [_ ->]%outside_ok & H).
  apply bind_ok in H; destruct H as (? & ? & ->%emit_ok & H).
  injection H as <- <-. subst.
  exists name, run, bucket, code_size. simpl in *.
  unfold dict_get in Hname. destruct (cached_config cp !! "name"); [|done].
  injection Hname as ->.
  split; [done|]. split; [done|]. split; [done|]. split; [done|].
  by rewrite <- !app_assoc.
Qed.

(** Looking for the function in the listing changes nothing. *)
Lemma listing_decision_pure (functions : option json) (found : list json → bool)
    w b w' :
  match functions with
  | None => ret false
  | Some functions => names <- lift (names_of functions) ;; ret (found names)
  end w = (Ok b, w') →
  w' = w.
Proof.
  destruct functions as [functions|]; [|by intros [= _ <-]].
  intros H. apply bind_ok in H; destruct H as (? & ? & [_ ->]%lift_ok & H).
  by injection H as _ <-.
Qed.

(** The uncached path, when it completes: packaging, staging and
    listing, then an update or a creation, then the query of the new
    function and the cache write. *)
Lemma get_function_uncached_ok cp w f w' :
  is_cached cp = false →
  get_function env cp w = (Ok f, w') →
  let func_name :=
    derive_func_name (benchmark cp) (language_name cp) (memory (benchmark_config cp)) in
  let parent :=
    parent_name (config_project_name (config (self w))) (region (config (self w))) in
  let full_func_name :=
    full_name (config_project_name (config (self w))) (region (config (self w)))
      func_name in
  ∃ run bucket deployment invoke_url input_buckets output_buckets,
    completed env cp w run ∧
    f = {| function_name := JStr func_name; function_benchmark := benchmark cp;
           function_hash := hash cp |} ∧
    self w' = located (self w) ∧
    let package := Py.path_join (run_directory run) (archive_name cp) in
    ((∃ bucket',
        deployment = update_events env full_func_name (Py.basename package) cp bucket') ∨
     deployment =
       [EvRegistry (ReqCreate parent
          (make_body full_func_name cp (timeout (benchmark_config cp))
             (memory (benchmark_config cp)) bucket (Py.basename package)))]) ∧
    trace w' =
      trace w
      ++ packaging_events env cp (run_directory run) (run_size run)
      ++ staging_events cp func_name bucket package parent
      ++ deployment
      ++ [EvRegistry (ReqGet full_func_name);
          EvCacheAdd "gcp" (benchmark cp) (language_name cp) package
            (new_entry cp func_name (run_size run) invoke_url)
            input_buckets output_buckets].
Proof.
  intros Hc H. unfold get_function in H.
  apply bind_ok in H; destruct H as (cfg & ? & [= <- <-] & H).
  apply bind_ok in H; destruct H as (? & ? & [= <-] & H).
  apply bind_ok in H; destruct H as (? & ? & [= <-] & H).
  rewrite Hc in H. simpl in H.
  apply bind_ok in H;
    destruct H as (packaged & ? & (run & Hrun & -> & ->)%package_code_ok & H).
  apply bind_ok in H; destruct H as (? & ? & [_ ->]%attribute_ok & H).
  apply bind_ok in H; destruct H as ([bucket idx] & ? & [_ ->]%outside_ok & H).
  apply bind_ok in H; destruct H as (? & ? & [_ ->]%attribute_ok & H).
  apply bind_ok in H; destruct H as (? & ? & [_ ->]%outside_ok & H).
  apply bind_ok in H; destruct H as (? & ? & ->%emit_ok & H).
  apply bind_ok in H; destruct H as (? & ? & [_ ->]%attribute_ok & H).
  apply bind_ok in H; destruct H as (res & ? & [_ ->]%outside_ok & H).
  apply bind_ok in H; destruct H as (listed & w1 & Hlisted & H).
  apply listing_decision_pure in Hlisted as ->.
  apply bind_ok in H; destruct H as (? & w2 & Hdeploy & H).
  apply bind_ok in H; destruct H as (? & ? & [_ ->]%attribute_ok & H).
  apply bind_ok in H; destruct H as (res' & ? & [_ ->]%outside_ok & H).
  apply bind_ok in H; destruct H as (trigger & ? & [_ ->]%lift_ok & H).
  apply bind_ok in H; destruct H as (invoke_url & ? & [_ ->]%lift_ok & H).
  apply bind_ok in H; destruct H as (? & ? & [_ ->]%attribute_ok & H).
  apply bind_ok in H; destruct H as (past & ? & [= <- <-] & H).
  apply bind_ok in H; destruct H as (? & ? & [_ ->]%outside_ok & H).
  injection H as <- <-. 
  destruct listed.
  - apply update_function_ok in Hdeploy as (bucket' & idx' & _ & ->); [|done].
    subst. simpl in *.
    eexists run, bucket, _, invoke_url, _, _.
    split; [done|]. split; [done|]. split; [done|]. split; [left; by eexists|].
    rewrite <- !app_assoc. simpl. reflexivity.
  - apply bind_ok in Hdeploy; destruct Hdeploy as (? & ? & [_ ->]%attribute_ok & Hd).
    apply bind_ok in Hd; destruct Hd as (? & ? & [_ ->]%outside_ok & Hd).
    injection Hd as _ <-. subst. simpl in *.
    eexists run, bucket, _, invoke_url, _, _.
    split; [done|]. split; [done|]. split; [done|]. split; [by right|].
    rewrite <- !app_assoc. simpl. reflexivity.
Qed.

End Reconciler.

Lemma descriptor_valid cp entry :
  descriptor_of_cache cp (Some entry) →
  entry !! "hash" = Some (JStr (hash cp)) →
  is_cached cp = true ∧ is_cached_valid cp = true ∧ cached_config cp = entry.
Proof.
  intros (Hc & Hcfg & Hv) Hh. rewrite Hh in Hv. simpl in Hv.
  by rewrite bool_decide_eq_true_2 in Hv.
Qed.

Lemma descriptor_stale cp entry :
  descriptor_of_cache cp (Some entry) →
  entry !! "hash" ≠ Some (JStr (hash cp)) →
  is_cached cp = true ∧ is_cached_valid cp = false ∧ cached_config cp = entry.
Proof.
  intros (Hc & Hcfg & Hv) Hh. split; [done|]. split; [|done].
  rewrite Hv. destruct (entry !! "hash") as [h|]; [|done].
  destruct h; try done. simpl. apply bool_decide_eq_false_2. congruence.
Qed.

(** C4: when the cache entry exists and its hash is the benchmark's,
    [get_function] returns the handle made of the cached name and the
    benchmark's hash; the only thing it does outside the instance is to
    write one log line: no registry request, no packaging, no storage or
    cache operation, and the build directory is left as it was. *)
Theorem get_function_reuses_valid_cache env cp w entry name :
  descriptor_of_cache cp (Some entry) →
  entry !! "hash" = Some (JStr (hash cp)) →
  entry !! "name" = Some name →
  ∃ w',
    get_function env cp w
      = (Ok {| function_name := name; function_benchmark := benchmark cp;
               function_hash := hash cp |}, w') ∧
    trace w' = trace w ++ [EvLogInfo ("Using cached function " +:+ format_json env name
                                      +:+ " in " +:+ code_location cp)] ∧
    fs w' = fs w ∧ cwd w' = cwd w.
Proof.
  intros Hd Hh Hname. destruct (descriptor_valid _ _ Hd Hh) as (Hc & Hv & Hcfg).
  eexists. unfold get_function, bind, read_config, update_self, lift, dict_get.
  simpl. rewrite Hc, Hv, Hcfg, Hname. simpl. done.
Qed.

Lemma get_function_reuses_valid_cache_witness :
  ∃ w',
    get_function Mock.succeeding Mock.valid_b1 Mock.fresh_world
      = (Ok {| function_name := JStr "foo_b1_python_256"; function_benchmark := "b1";
               function_hash := "h1" |}, w') ∧
    trace w' = [EvLogInfo "Using cached function foo_b1_python_256 in /tmp/build"] ∧
    fs w' = Mock.python_directory ∧ cwd w' = "/home/user".
Proof.
  apply (get_function_reuses_valid_cache Mock.succeeding Mock.valid_b1 Mock.fresh_world
           (Mock.cache_entry "h1") (JStr "foo_b1_python_256")).
  - repeat split.
  - reflexivity.
  - reflexivity.
Defined.

(** C5: when the cache entry exists and its hash is not the benchmark's,
    a [get_function] that completes issues one [patch] and no [create],
    and writes the cache once, through [update_function] of the cache
    client (which carries no bucket configuration): the entry it writes
    is the cached one with [code_size], [timeout], [memory] and [hash]
    overwritten, the hash being the benchmark's, and every other key (the
    name and the url among them) as it was. *)
Theorem get_function_updates_stale_cache env cp w entry f w' :
  descriptor_of_cache cp (Some entry) →
  entry !! "hash" ≠ Some (JStr (hash cp)) →
  get_function env cp w = (Ok f, w') →
  ∃ t package code_size written,
    trace w' = trace w ++ t ∧
    length (List.filter is_patch t) = 1%nat ∧
    List.filter is_create t = [] ∧
    List.filter is_cache_write t
      = [EvCacheUpdate "gcp" (benchmark cp) (language_name cp) package written] ∧
    written !! "code_size" = Some (JInt code_size) ∧
    written !! "timeout" = Some (JInt (timeout (benchmark_config cp))) ∧
    written !! "memory" = Some (JInt (memory (benchmark_config cp))) ∧
    written !! "hash" = Some (JStr (hash cp)) ∧
    (∀ key, key ∉ refreshed_keys → written !! key = entry !! key) ∧
    function_name <$> Some f = entry !! "name".
Proof.
  intros Hd Hh H. destruct (descriptor_stale _ _ Hd Hh) as (Hc & Hv & Hcfg).
  apply get_function_stale_ok in H
    as (name & run & bucket & code_size & Hname & _ & -> & _ & Htrace); [|done..].
  simpl in Htrace. eexists _, _, code_size, (refreshed_entry cp code_size).
  split; [exact Htrace|]. split; [done|]. split; [done|]. split; [done|].
  unfold refreshed_entry. rewrite Hcfg in *.
  split; [by simplify_map_eq|]. split; [by simplify_map_eq|].
  split; [by simplify_map_eq|]. split; [by simplify_map_eq|].
  split; [|done].
  intros key Hkey. unfold refreshed_keys in Hkey.
  rewrite !not_elem_of_cons in Hkey. destruct Hkey as (? & ? & ? & ? & _).
  by rewrite !lookup_insert_ne by done.
Qed.

Lemma get_function_updates_stale_cache_witness :
  ∃ t package code_size written,
    trace (get_function Mock.succeeding Mock.stale_b1 Mock.fresh_world).2 = [] ++ t ∧
    length (List.filter is_patch t) = 1%nat ∧
    List.filter is_create t = [] ∧
    List.filter is_cache_write t = [EvCacheUpdate "gcp" "b1" "python" package written] ∧
    written !! "code_size" = Some (JInt code_size) ∧
    written !! "timeout" = Some (JInt 60) ∧
    written !! "memory" = Some (JInt 256) ∧
    written !! "hash" = Some (JStr "h2") ∧
    (∀ key, key ∉ refreshed_keys → written !! key = Mock.cache_entry "h1" !! key) ∧
    function_name <$> Some {| function_name := JStr "foo_b1_python_256";
                               function_benchmark := "b1"; function_hash := "h2" |}
      = Mock.cache_entry "h1" !! "name".
Proof.
  apply (get_function_updates_stale_cache Mock.succeeding Mock.stale_b1 Mock.fresh_world
           (Mock.cache_entry "h1")).
  - repeat split.
  - vm_compute. discriminate.
  - vm_compute. reflexivity.
Defined.

(** The stale path never stages the archive: whatever the collaborators
    answer, a completed run uploads nothing, while it patches the
    function with the location of an archive in the input bucket. *)
Lemma stale_path_never_uploads env cp w f w' :
  is_cached cp = true → is_cached_valid cp = false →
  get_function env cp w = (Ok f, w') →
  ∃ t location,
    trace w' = trace w ++ t ∧ staged_archives t = [] ∧ patched_archives t = [location].
Proof.
  intros Hc Hv H.
  apply get_function_stale_ok in H
    as (name & run & bucket & code_size & _ & _ & _ & _ & Htrace); [|done..].
  simpl in Htrace. eexists _, _. split; [exact Htrace|]. done.
Qed.

(** The uncached path stages the archive before it lists the registry,
    hence before any [patch] or [create]. *)
Lemma uncached_path_stages_first env cp w f w' :
  is_cached cp = false →
  get_function env cp w = (Ok f, w') →
  ∃ before bucket name path after,
    trace w' = trace w ++ before ++ EvUpload bucket name path :: after ∧
    List.filter is_registry before = [] ∧
    staged_archives before = [] ∧
    match patched_archives after with
    | [] => True
    | location :: _ => ∃ bucket', location = "gs://" +:+ bucket' +:+ "/" +:+ name
    end.
Proof.
  intros Hc H.
  apply get_function_uncached_ok in H
    as (run & bucket & deployment & url & ib & ob & _ & _ & _ & Hdep & Htrace); [|done].
  simpl in Htrace.
  eexists (packaging_events env cp (run_directory run) (run_size run)
           ++ [EvAddInputBucket (benchmark cp)]), bucket, _, _, _.
  split; [rewrite Htrace; rewrite <- !app_assoc; simpl; reflexivity|].
  split; [done|]. split; [done|].
  destruct Hdep as [[bucket' ->]| ->]; simpl; eauto.
Qed.

(** C2, at a benchmark whose cached hash is out of date: [get_function]
    completes and patches the function with the archive location
    [gs://bucket-input/b1.zip], yet no upload has taken place: nothing
    was staged during this update. *)
Theorem stale_update_does_not_stage :
  let r := get_function Mock.succeeding Mock.stale_b1 Mock.fresh_world in
  r.1 = Ok {| function_name := JStr "foo_b1_python_256"; function_benchmark := "b1";
              function_hash := "h2" |} ∧
  patched_archives (trace r.2) = ["gs://bucket-input/b1.zip"] ∧
  staged_archives (trace r.2) = [] ∧
  List.filter is_upload (trace r.2) = [].
Proof. vm_compute. done. Qed.

(** C6: the name the uncached path derives from benchmark name, language
    and memory contains neither hyphen nor dot; every completed uncached
    [get_function] on a benchmark with this triple returns it, whatever
    the state and the collaborators, so that repeated calls agree; for
    [b1], [python] and 256 it is [foo_b1_python_256]. *)
Theorem derived_name_stable_and_clean b l m :
  Py.contains "-" (derive_func_name b l m) = false ∧
  Py.contains "." (derive_func_name b l m) = false ∧
  (∀ env cp w f w',
     benchmark cp = b → language_name cp = l → memory (benchmark_config cp) = m →
     is_cached cp = false →
     get_function env cp w = (Ok f, w') →
     function_name f = JStr (derive_func_name b l m)) ∧
  derive_func_name "b1" "python" 256 = "foo_b1_python_256".
Proof.
  destruct (derive_func_name_clean b l m) as [Hh Hd].
  split; [done|]. split; [done|]. split; [|done].
  intros env cp w f w' <- <- <- Hc H.
  by apply get_function_uncached_ok in H as (? & ? & ? & ? & ? & ? & _ & -> & _).
Qed.

Lemma derived_name_stable_and_clean_witness :
  Py.contains "-" "foo_b1_python_256" = false ∧
  Py.contains "." "foo_b1_python_256" = false ∧
  function_name <$> (match (get_function Mock.succeeding Mock.uncached_b1
                              Mock.fresh_world).1 with
                     | Ok f => Some f
                     | _ => None
                     end)
    = Some (JStr "foo_b1_python_256").
Proof.
  destruct (derived_name_stable_and_clean "b1" "python" 256) as (Hh & Hd & Hget & Hname).
  rewrite Hname in *. split; [done|]. split; [done|].
  destruct (get_function Mock.succeeding Mock.uncached_b1 Mock.fresh_world)
    as [[f| |] w'] eqn:H; [| vm_compute in H; discriminate H..].
  simpl. f_equal.
  apply (Hget Mock.succeeding Mock.uncached_b1 Mock.fresh_world f w');
    reflexivity || exact H.
Defined.

(** ** The invocation poller *)

Section Poller.

Variable env : Env.

Implicit Types (w : World) (full : string).

Lemma set_trace_same w : set_trace (trace w) w = w.
Proof. by destruct w. Qed.

Lemma polls_snoc full k :
  polls full (S k) = polls full k ++ [EvRegistry (ReqGet full); EvSleep 5].
Proof. induction k as [|k IH]; [done|]. simpl in *. by rewrite IH. Qed.

Lemma count_gets_polls full k :
  length (List.filter is_get (polls full k)) = k ∧
  length (List.filter is_sleep (polls full k)) = k ∧
  List.filter is_call (polls full k) = [].
Proof. induction k as [|k (IH1 & IH2 & IH3)]; [done|]. simpl. by rewrite IH1, IH2. Qed.

(** One round that finds the function pending. *)
Lemma wait_pending fuel full w :
  reports_pending env (trace w) full →
  wait_until_deployed env (S fuel) full w
  = wait_until_deployed env fuel full
      (set_trace (trace w ++ [EvRegistry (ReqGet full); EvSleep 5]) w).
Proof.
  intros (status & Hst & Hne). unfold reported_status in Hst.
  destruct (env_registry _ _) as [res| |] eqn:Hres; [|done..].
  simpl. unfold bind, registry, outside, emit, lift, dict_get, bind. simpl.
  rewrite Hres, Hst, Hne. simpl. by rewrite <- app_assoc.
Qed.

(** The round that finds the function active ends the loop. *)
Lemma wait_active fuel full w :
  reports_active env (trace w) full →
  wait_until_deployed env (S fuel) full w
  = (Ok tt, set_trace (trace w ++ [EvRegistry (ReqGet full)]) w).
Proof.
  intros (status & Hst & Heq). unfold reported_status in Hst.
  destruct (env_registry _ _) as [res| |] eqn:Hres; [|done..].
  simpl. unfold bind, registry, outside, emit, lift, dict_get, bind. simpl.
  by rewrite Hres, Hst, Heq.
Qed.

(** The loop ends at the first round that finds the function active. *)
Lemma wait_terminates N : ∀ fuel full w,
  (∀ k, (k < N)%nat → reports_pending env (trace w ++ polls full k) full) →
  reports_active env (trace w ++ polls full N) full →
  (N < fuel)%nat →
  wait_until_deployed env fuel full w
  = (Ok tt, set_trace (trace w ++ polls full N ++ [EvRegistry (ReqGet full)]) w).
Proof.
  induction N as [|N IH]; intros fuel full w Hpending Hactive Hfuel;
    (destruct fuel as [|fuel]; [lia|]).
  - simpl in *. rewrite app_nil_r in Hactive. by apply wait_active.
  - rewrite wait_pending.
    2: { specialize (Hpending 0%nat). simpl in Hpending.
         rewrite app_nil_r in Hpending. apply Hpending. lia. }
    rewrite IH; simpl; [by rewrite <- !app_assoc| | |lia].
    + intros k Hk. rewrite <- app_assoc. apply (Hpending (S k)). lia.
    + by rewrite <- app_assoc.
Qed.

(** As long as the function is found pending, the loop goes on. *)
Lemma wait_blocks fuel : ∀ full w,
  (∀ k, (k < fuel)%nat → reports_pending env (trace w ++ polls full k) full) →
  wait_until_deployed env fuel full w
  = (OutOfFuel, set_trace (trace w ++ polls full fuel) w).
Proof.
  induction fuel as [|fuel IH]; intros full w Hpending.
  - simpl. by rewrite app_nil_r, set_trace_same.
  - rewrite wait_pending.
    2: { specialize (Hpending 0%nat). simpl in Hpending.
         rewrite app_nil_r in Hpending. apply Hpending. lia. }
    rewrite IH; simpl; [by rewrite <- !app_assoc|].
    intros k Hk. rewrite <- app_assoc. apply (Hpending (S k)). lia.
Qed.

(** Whatever its outcome, the loop only issues [get] requests on the
    function and sleeps. *)
Lemma wait_events fuel : ∀ full w,
  ∃ t, trace (wait_until_deployed env fuel full w).2 = trace w ++ t ∧
       Forall (targets full) t ∧ List.filter is_call t = [] ∧
       List.filter is_log t = [] ∧
       self (wait_until_deployed env fuel full w).2 = self w.
Proof.
  induction fuel as [|fuel IH]; intros full w.
  - exists []. simpl. by rewrite app_nil_r.
  - simpl. unfold bind, registry, outside, emit, lift, dict_get. simpl.
    destruct (env_registry _ _) as [res| |]; simpl.
    2,3: (exists [EvRegistry (ReqGet full)]; repeat split; try done;
          by repeat constructor).
    destruct (res !! "status") as [status|]; simpl.
    2: (exists [EvRegistry (ReqGet full)]; repeat split; try done;
          by repeat constructor).
    destruct (json_eq_str status "ACTIVE"); simpl.
    { exists [EvRegistry (ReqGet full)]; repeat split; try done;
        by repeat constructor. }
    match goal with
    | |- context [wait_until_deployed env fuel full ?w1] =>
        destruct (IH full w1) as (t & Ht & Htargets & Hcalls & Hlogs & Hself)
    end.
    exists (EvRegistry (ReqGet full) :: EvSleep 5 :: t).
    rewrite Ht, Hself. simpl. rewrite <- !app_assoc. simpl.
    repeat split; try done. by repeat constructor.
Qed.

(** [invoke_sync] once the loop has ended: one [call], timed, then the
    verdict on the response. *)
Lemma invoke_sync_after_wait fuel name payload w p l f w1 :
  established (self w) p l f →
  wait_until_deployed env fuel (full_name p l f) w = (Ok tt, w1) →
  let data := json_dumps env payload in
  let called := trace w1 ++ [EvRegistry (ReqCall (full_name p l f) data)] in
  invoke_sync env fuel name payload w
  = match env_registry env called with
    | Ok res =>
        if error_field_nonempty res then
          (Raise RuntimeError, set_trace (called ++ failure_logs name data) w1)
        else
          match res !! "result" with
          | Some result =>
              (Ok {| invocation_return := result;
                     client_time := env_now env called - env_now env (trace w1) |},
               set_trace called w1)
          | None => (Raise (KeyError "result"), set_trace called w1)
          end
    | Raise e => (Raise e, set_trace called w1)
    | OutOfFuel => (OutOfFuel, set_trace called w1)
    end.
Proof.
  intros (Hp & Hl & Hf & [c Hc]) Hwait.
  destruct (wait_events fuel (full_name p l f) w) as (_ & _ & _ & _ & _ & Hself).
  rewrite Hwait in Hself. simpl in Hself.
  unfold invoke_sync, bind, attribute. rewrite Hp, Hl, Hf, Hc, Hwait, Hself, Hc.
  unfold now, registry, outside, emit, bind, lift, dict_get, log_error, emit, raise,
    error_field_nonempty, failure_logs. simpl.
  destruct (env_registry _ _) as [res| |]; [|done..].
  destruct (res !! "error") as [error|]; simpl.
  - destruct (json_eq_str error EmptyString); simpl.
    + by destruct (res !! "result").
    + by rewrite <- !app_assoc.
  - by destruct (res !! "result").
Qed.

(** [invoke_sync] when the loop does not end with the function active. *)
Lemma invoke_sync_wait_fails fuel name payload w p l f r w1 :
  established (self w) p l f →
  wait_until_deployed env fuel (full_name p l f) w = (r, w1) →
  r ≠ Ok tt →
  invoke_sync env fuel name payload w
  = (match r with Ok _ => OutOfFuel | Raise e => Raise e | OutOfFuel => OutOfFuel end,
     w1).
Proof.
  intros (Hp & Hl & Hf & [c Hc]) Hwait Hr.
  unfold invoke_sync, bind, attribute. rewrite Hp, Hl, Hf, Hc, Hwait.
  by destruct r as [[]| |].
Qed.

End Poller.

(** C8: while the registry reports the function not active at each of the
    first [N] polls, [invoke_sync] is still in its loop after any number
    [fuel ≤ N] of rounds, each a [get] followed by a sleep of 5: no count
    and no deadline ends the loop. If the registry reports it active at
    the next poll, the loop ends after [N + 1] [get] requests and [N]
    sleeps, and the next request is the [call]. *)
Theorem invoke_sync_polls_until_active env w p l f N name payload :
  established (self w) p l f →
  let full := full_name p l f in
  (∀ k, (k < N)%nat → reports_pending env (trace w ++ polls full k) full) →
  (reports_active env (trace w ++ polls full N) full →
   ∀ fuel, (N < fuel)%nat →
     let gets := polls full N ++ [EvRegistry (ReqGet full)] in
     wait_until_deployed env fuel full w = (Ok tt, set_trace (trace w ++ gets) w) ∧
     length (List.filter is_get gets) = S N ∧
     length (List.filter is_sleep gets) = N ∧
     ∃ logs,
       trace (invoke_sync env fuel name payload w).2
       = trace w ++ gets ++ EvRegistry (ReqCall full (json_dumps env payload)) :: logs ∧
       Forall (fun ev => is_log ev = true) logs) ∧
  (∀ fuel, (fuel ≤ N)%nat →
     invoke_sync env fuel name payload w
     = (OutOfFuel, set_trace (trace w ++ polls full fuel) w)).
Proof.
  intros Hattrs full Hpending. split.
  - intros Hactive fuel Hfuel gets.
    pose proof (wait_terminates env N fuel full w Hpending Hactive Hfuel) as Hwait.
    destruct (count_gets_polls full N) as (Hgets & Hsleeps & _).
    split; [done|]. unfold gets.
    rewrite !List.filter_app, !length_app, Hgets, Hsleeps. simpl.
    split; [lia|]. split; [lia|].
    rewrite (invoke_sync_after_wait env fuel name payload w p l f _ Hattrs Hwait).
    simpl. fold full.
    destruct (env_registry _ _) as [res| |];
      [|exists []; simpl; by rewrite <- !app_assoc..].
    destruct (error_field_nonempty res).
    + exists (failure_logs name (json_dumps env payload)).
      simpl. rewrite <- !app_assoc. split; [done|]. by repeat constructor.
    + destruct (res !! "result"); exists []; simpl; by rewrite <- !app_assoc.
  - intros fuel Hfuel.
    rewrite (invoke_sync_wait_fails env fuel name payload w p l f OutOfFuel
               (set_trace (trace w ++ polls full fuel) w)); [done..| |done].
    apply wait_blocks. intros k Hk. apply Hpending. lia.
Qed.

Lemma invoke_sync_polls_until_active_witness :
  trace (invoke_sync Mock.slow_registry 3 "f" JNull Mock.ready_world).2
  = [EvRegistry (ReqGet Mock.ready_name); EvSleep 5;
     EvRegistry (ReqGet Mock.ready_name); EvSleep 5;
     EvRegistry (ReqGet Mock.ready_name);
     EvRegistry (ReqCall Mock.ready_name "{}")] ∧
  (invoke_sync Mock.slow_registry 2 "f" JNull Mock.ready_world).1 = OutOfFuel.
Proof.
  destruct (invoke_sync_polls_until_active Mock.slow_registry Mock.ready_world
              "proj" "europe-west1" "foo_b1_python_256" 2 "f" JNull)
    as [Hactive Hblocked].
  - repeat split. by eexists.
  - intros k Hk. destruct k as [|[|k]]; [| |lia]; eexists; split; by vm_compute.
  - split.
    + destruct (Hactive) with (fuel := 3%nat) as (_ & _ & _ & logs & Htrace & Hlogs);
        [eexists; split; by vm_compute|lia|].
      vm_compute. reflexivity.
    + by rewrite (Hblocked 2%nat) by lia.
Defined.

(** C7, as the code has it: once the loop has ended and the registry has
    answered the call with [res], [invoke_sync] raises its invocation
    failure exactly when [res] has an error field that is not the empty
    string, after logging the failure; without such a field it returns
    the result field, when there is one, with the time the clock advanced
    around the call, in microseconds; in every case it has issued one
    [call] and no more. *)
Theorem invoke_sync_verdict env w p l f fuel name payload w1 res :
  established (self w) p l f →
  let full := full_name p l f in
  let data := json_dumps env payload in
  let called := trace w1 ++ [EvRegistry (ReqCall full data)] in
  wait_until_deployed env fuel full w = (Ok tt, w1) →
  env_registry env called = Ok res →
  let r := invoke_sync env fuel name payload w in
  (r.1 = Raise RuntimeError ↔ error_field_nonempty res = true) ∧
  (error_field_nonempty res = true → trace r.2 = called ++ failure_logs name data) ∧
  (error_field_nonempty res = false →
   ∀ result, res !! "result" = Some result →
     r = (Ok {| invocation_return := result;
                client_time := env_now env called - env_now env (trace w1) |},
          set_trace called w1)) ∧
  (∃ t, trace r.2 = trace w ++ t ∧ length (List.filter is_call t) = 1%nat).
Proof.
  intros Hattrs full data called Hwait Hres r. unfold r.
  rewrite (invoke_sync_after_wait env fuel name payload w p l f _ Hattrs Hwait).
  simpl. fold full data called. rewrite Hres.
  destruct (wait_events env fuel full w) as (t0 & Ht0 & _ & Hcalls & _).
  rewrite Hwait in Ht0. simpl in Ht0.
  destruct (error_field_nonempty res) eqn:Herr.
  - split; [done|]. split; [done|]. split; [done|].
    exists (t0 ++ EvRegistry (ReqCall full data) :: failure_logs name data).
    simpl. unfold called. rewrite Ht0, <- !app_assoc. split; [done|].
    by rewrite List.filter_app, Hcalls.
  - assert (∃ t, trace (set_trace called w1) = trace w ++ t ∧
                 length (List.filter is_call t) = 1%nat) as Hone.
    { exists (t0 ++ [EvRegistry (ReqCall full data)]). simpl. unfold called.
      rewrite Ht0, <- !app_assoc. split; [done|]. by rewrite List.filter_app, Hcalls. }
    destruct (res !! "result") as [result|]; simpl.
    + split; [done|]. split; [done|]. split; [|done]. by intros _ ? [= <-].
    + split; [done|]. split; [done|]. split; [|done]. by intros _ ? [=].
Qed.

Lemma invoke_sync_verdict_witness :
  let r := invoke_sync Mock.slow_registry 3 "f" JNull Mock.ready_world in
  r.1 = Ok {| invocation_return := JStr "ok"; client_time := 1500 |} ∧
  (invoke_sync Mock.error_response 1 "f" JNull Mock.ready_world).1 = Raise RuntimeError.
Proof.
  split.
  - destruct (invoke_sync_verdict Mock.slow_registry Mock.ready_world
                "proj" "europe-west1" "foo_b1_python_256" 3 "f" JNull
                (wait_until_deployed Mock.slow_registry 3 Mock.ready_name
                   Mock.ready_world).2 (<["result" := JStr "ok"]> ∅))
      as (_ & _ & Hok & _).
    + repeat split. by eexists.
    + by vm_compute.
    + by vm_compute.
    + simpl. rewrite (Hok eq_refl (JStr "ok") eq_refl). by vm_compute.
  - destruct (invoke_sync_verdict Mock.error_response Mock.ready_world
                "proj" "europe-west1" "foo_b1_python_256" 1 "f" JNull
                (wait_until_deployed Mock.error_response 1 Mock.ready_name
                   Mock.ready_world).2 (<["error" := JStr "boom"]> ∅))
      as (Hiff & _).
    + repeat split. by eexists.
    + by vm_compute.
    + by vm_compute.
    + by apply Hiff.
Defined.

(** C7 fails on a response that has neither an error nor a result field:
    [invoke_sync] raises, at the lookup of the result, although the
    response contains no error field. *)
Lemma invoke_sync_raises_without_error_field :
  let called := [EvRegistry (ReqGet Mock.ready_name);
                 EvRegistry (ReqCall Mock.ready_name "{}")] in
  env_registry Mock.empty_response called = Ok ∅ ∧
  (∅ : gmap string json) !! "error" = None ∧
  invoke_sync Mock.empty_response 1 "f" JNull Mock.ready_world
  = (Raise (KeyError "result"), set_trace called Mock.ready_world).
Proof. by vm_compute. Qed.

(** ** The attributes of the instance *)

Section Keeps.

Context {X : Type} (proj : GCP → X).

Lemma keeps_ret {A} (a : A) : keeps proj (ret a).
Proof. done. Qed.

Lemma keeps_bind {A B} (m : M A) (f : A → M B) :
  keeps proj m → (∀ a, keeps proj (f a)) → keeps proj (bind m f).
Proof.
  intros Hm Hf w. unfold bind. specialize (Hm w).
  destruct (m w) as [[a| |] w1]; simpl in *; [|done..].
  by rewrite (Hf a w1).
Qed.

Lemma keeps_raise {A} e : keeps proj (raise e : M A).
Proof. done. Qed.

Lemma keeps_out_of_fuel {A} : keeps proj (out_of_fuel : M A).
Proof. done. Qed.

Lemma keeps_lift {A} (r : result A) : keeps proj (lift r).
Proof. done. Qed.

Lemma keeps_emit ev : keeps proj (emit ev).
Proof. done. Qed.

Lemma keeps_outside {A} ev (answer : list event → result A) :
  keeps proj (outside ev answer).
Proof. done. Qed.

Lemma keeps_on_fs op : keeps proj (on_fs op).
Proof. intros w. unfold on_fs. by destruct (op (fs w)). Qed.

Lemma keeps_read_fs {A} (op : directory_state → result A) : keeps proj (read_fs op).
Proof. done. Qed.

Lemma keeps_attribute {A} name (get : GCP → option A) : keeps proj (attribute name get).
Proof. intros w. unfold attribute. by destruct (get (self w)). Qed.

Lemma keeps_update_self f : (∀ g, proj (f g) = proj g) → keeps proj (update_self f).
Proof. intros Hf w. apply Hf. Qed.

Lemma keeps_build env cp : keeps proj (build env cp).
Proof.
  intros w. unfold build, bind, emit. simpl.
  by destruct (env_build _ _ _) as [[]| |].
Qed.

Lemma keeps_execute_zip env cmd archive : keeps proj (execute_zip env cmd archive).
Proof.
  intros w. unfold execute_zip, bind, emit. simpl.
  by destruct (env_execute _ _ _).
Qed.

Lemma keeps_if {A} (b : bool) (m1 m2 : M A) :
  keeps proj m1 → keeps proj m2 → keeps proj (if b then m1 else m2).
Proof. by destruct b. Qed.

End Keeps.

(** The plain steps of a method. *)
Ltac keeps_step :=
  first
    [ apply keeps_ret | apply keeps_raise | apply keeps_out_of_fuel
    | apply keeps_lift | apply keeps_emit | apply keeps_outside
    | apply keeps_on_fs | apply keeps_read_fs | apply keeps_attribute
    | apply keeps_build | apply keeps_execute_zip
    | apply keeps_update_self; intros []; reflexivity
    | (intros ?; reflexivity) ].

Ltac keeps_all :=
  repeat first
    [ keeps_step
    | apply keeps_bind; [|intros ?]
    | match goal with
      | |- keeps _ (match ?x with _ => _ end) => destruct x
      end ].

Section Attributes.

Variable env : Env.
Context {X : Type} (proj : GCP → X).

Lemma keeps_package_code cp : keeps proj (package_code env cp).
Proof. unfold package_code, log_info, getcwd, chdir. keeps_all. Qed.

Lemma keeps_update_function b full name cp t m :
  keeps proj (update_function env b full name cp t m).
Proof. unfold update_function, registry, log_info. keeps_all. Qed.

Lemma keeps_wait_until_deployed fuel full :
  keeps proj (wait_until_deployed env fuel full).
Proof.
  induction fuel as [|fuel IH]; simpl; [keeps_step|].
  unfold registry. keeps_all. exact IH.
Qed.

Lemma keeps_invoke_sync fuel name payload :
  keeps proj (invoke_sync env fuel name payload).
Proof.
  unfold invoke_sync, registry, log_error, now.
  keeps_all; try apply keeps_wait_until_deployed.
Qed.

Lemma keeps_prepare_experiment b : keeps proj (prepare_experiment env b).
Proof. unfold prepare_experiment. keeps_all. Qed.

Lemma keeps_get_function_client : keeps proj get_function_client.
Proof. unfold get_function_client. keeps_all. Qed.

End Attributes.

Section InstanceAttributes.

Variable env : Env.

Lemma keeps_get_storage {X} (proj : GCP → X) replace b k :
  (∀ g st, proj {| config := config g; function_client := function_client g;
                   storage := st; location := location g;
                   project_name := project_name g; func_name := func_name g |}
           = proj g) →
  keeps proj (get_storage env replace b k).
Proof.
  intros Hproj. unfold get_storage.
  apply keeps_bind; [keeps_step|intros _].
  apply keeps_bind; [apply keeps_update_self; intros g; apply Hproj|intros _].
  keeps_all.
Qed.

Lemma keeps_initialize {X} (proj : GCP → X) :
  (∀ g st, proj {| config := config g; function_client := function_client g;
                   storage := st; location := location g;
                   project_name := project_name g; func_name := func_name g |}
           = proj g) →
  (∀ g c, proj {| config := config g; function_client := c;
                  storage := storage g; location := location g;
                  project_name := project_name g; func_name := func_name g |}
          = proj g) →
  keeps proj (initialize env).
Proof.
  intros Hst Hc. unfold initialize.
  apply keeps_bind; [keeps_step|intros _].
  apply keeps_bind; [apply keeps_update_self; intros g; apply Hc|intros _].
  apply keeps_bind; [by apply keeps_get_storage|intros _]. keeps_step.
Qed.

(** What follows the first statements of [get_function] leaves the
    instance alone. *)
Lemma get_function_self cp w :
  self (get_function env cp w).2 = located (self w).
Proof.
  unfold get_function.
  rewrite (bind_run read_config _ w (config (self w)) w eq_refl).
  rewrite (bind_run (update_self _) _ w tt _ eq_refl).
  rewrite (bind_run (update_self _) _ _ tt _ eq_refl).
  match goal with
  | |- self (?m ?w0).2 = _ =>
      assert (keeps (fun g => g) m) as Hkeeps; [|by rewrite (Hkeeps w0)]
  end.
  unfold registry, log_info, history.
  keeps_all;
    first [apply keeps_package_code | apply keeps_update_function].
Qed.

Lemma keeps_get_function cp : keeps func_name (get_function env cp).
Proof. intros w. by rewrite get_function_self. Qed.

(** No method assigns [func_name]. *)
Lemma run_keeps_func_name c : keeps func_name (run env c).
Proof.
  destruct c; simpl;
    try (apply keeps_bind; [|intros ?; keeps_step]);
    first
      [ by apply keeps_initialize
      | by apply keeps_get_storage
      | apply keeps_get_function_client
      | apply keeps_package_code
      | apply keeps_get_function
      | apply keeps_update_function
      | apply keeps_prepare_experiment
      | apply keeps_invoke_sync
      | keeps_step ].
Qed.

(** Only [get_function] assigns [location] and [project_name]. *)
Lemma run_keeps_location c :
  is_get_function c = false →
  keeps (fun g => (location g, project_name g)) (run env c).
Proof.
  intros Hc. destruct c; try discriminate Hc; simpl;
    try (apply keeps_bind; [|intros ?; keeps_step]);
    first
      [ by apply keeps_initialize
      | by apply keeps_get_storage
      | apply keeps_get_function_client
      | apply keeps_package_code
      | apply keeps_update_function
      | apply keeps_prepare_experiment
      | apply keeps_invoke_sync
      | keeps_step ].
Qed.

Lemma run_all_keeps_func_name calls w :
  func_name (self (run_all env calls w)) = func_name (self w).
Proof.
  revert w. induction calls as [|c calls IH]; intros w; [done|].
  simpl. by rewrite IH, run_keeps_func_name.
Qed.

(** Without [func_name], [invoke_sync] raises an attribute error before
    it does anything. *)
Lemma invoke_sync_attribute_error fuel name payload w :
  func_name (self w) = None →
  ∃ attr,
    invoke_sync env fuel name payload w = (Raise (AttributeError attr), w) ∧
    attr ∈ ["project_name"; "location"; "func_name"] ∧
    (is_Some (project_name (self w)) → is_Some (location (self w)) →
     attr = "func_name").
Proof.
  intros Hf. unfold invoke_sync, bind, attribute.
  destruct (project_name (self w)) as [p|].
  - destruct (location (self w)) as [l|].
    + rewrite Hf. exists "func_name". split; [done|]. split; [|done].
      by apply (bool_decide_unpack _).
    + exists "location". split; [done|]. split; [by apply (bool_decide_unpack _)|].
      by intros _ [? [=]].
  - exists "project_name". split; [done|].
    split; [by apply (bool_decide_unpack _)|]. by intros [? [=]].
Qed.

Lemma without_logs_app t1 t2 :
  without_logs (t1 ++ t2) = without_logs t1 ++ without_logs t2.
Proof. apply List.filter_app. Qed.

(** The argument [name] of [invoke_sync] reaches the failure log only:
    the outcome and every request are those of the function named by
    the instance. *)
Lemma invoke_sync_ignores_name fuel payload w p l f name1 name2 :
  established (self w) p l f →
  (invoke_sync env fuel name1 payload w).1 = (invoke_sync env fuel name2 payload w).1 ∧
  without_logs (trace (invoke_sync env fuel name1 payload w).2)
  = without_logs (trace (invoke_sync env fuel name2 payload w).2) ∧
  ∃ t, trace (invoke_sync env fuel name1 payload w).2 = trace w ++ t ∧
       Forall (targets (full_name p l f)) t.
Proof.
  intros Hattrs.
  destruct (wait_events env fuel (full_name p l f) w) as (t0 & Ht0 & Htargets & _).
  destruct (wait_until_deployed env fuel (full_name p l f) w) as [r w1] eqn:Hwait.
  simpl in Ht0.
  assert (r = Ok tt ∨ r ≠ Ok tt) as [->|Hr]
    by (destruct r as [[]| |]; auto).
  - rewrite !(invoke_sync_after_wait env fuel _ payload w p l f _ Hattrs Hwait).
    simpl. destruct (env_registry _ _) as [res| |].
    2,3: (split; [done|]; split; [done|]; eexists; simpl;
          rewrite Ht0, <- app_assoc; split; [done|];
          apply Forall_app; split; [done|]; by repeat constructor).
    destruct (error_field_nonempty res).
    + split; [done|]. simpl. rewrite !without_logs_app. split; [done|].
      eexists. rewrite Ht0, <- !app_assoc. split; [done|].
      apply Forall_app; split; [done|]. by repeat constructor.
    + destruct (res !! "result"); (split; [done|]; split; [done|]; eexists; simpl;
        rewrite Ht0, <- app_assoc; split; [done|];
        apply Forall_app; split; [done|]; by repeat constructor).
  - rewrite !(invoke_sync_wait_fails env fuel _ payload w p l f _ _ Hattrs Hwait Hr).
    split; [done|]. split; [done|]. exists t0. by split.
Qed.

End InstanceAttributes.

(** C3: no method of the class assigns [func_name], and only
    [get_function] assigns [location] and [project_name] (to the region
    and the project of the configuration); so in any state reached from a
    new instance by calls of its methods, [invoke_sync] raises an
    attribute error before it issues any request. On an instance where
    the three attributes have been set, every request of [invoke_sync]
    names the function built from [func_name], and its argument [name]
    changes nothing but the log lines of a failure. *)
Theorem invoke_sync_reads_unassigned_func_name env :
  (∀ c, keeps func_name (run env c)) ∧
  (∀ c, is_get_function c = false →
        keeps (fun g => (location g, project_name g)) (run env c)) ∧
  (∀ cp w,
     location (self (get_function env cp w).2) = Some (region (config (self w))) ∧
     project_name (self (get_function env cp w).2)
     = Some (config_project_name (config (self w)))) ∧
  (∀ cfg calls t d p fuel name payload,
     let w := run_all env calls {| trace := t; fs := d; cwd := p; self := init cfg |} in
     ∃ attr,
       invoke_sync env fuel name payload w = (Raise (AttributeError attr), w) ∧
       attr ∈ ["project_name"; "location"; "func_name"] ∧
       (is_Some (project_name (self w)) → is_Some (location (self w)) →
        attr = "func_name")) ∧
  (∀ fuel payload w p l f name1 name2,
     established (self w) p l f →
     (invoke_sync env fuel name1 payload w).1 = (invoke_sync env fuel name2 payload w).1 ∧
     without_logs (trace (invoke_sync env fuel name1 payload w).2)
     = without_logs (trace (invoke_sync env fuel name2 payload w).2) ∧
     ∃ t, trace (invoke_sync env fuel name1 payload w).2 = trace w ++ t ∧
          Forall (targets (full_name p l f)) t).
Proof.
  split; [apply run_keeps_func_name|].
  split; [apply run_keeps_location|].
  split; [intros cp w; by rewrite get_function_self|].
  split.
  - intros cfg calls t d p fuel name payload w.
    apply invoke_sync_attribute_error. unfold w.
    by rewrite run_all_keeps_func_name.
  - intros. by apply invoke_sync_ignores_name.
Qed.

Lemma invoke_sync_reads_unassigned_func_name_witness :
  let w := run_all Mock.succeeding [CallInitialize; CallGetFunction Mock.valid_b1]
             {| trace := []; fs := Mock.python_directory; cwd := "/home/user";
                self := init Mock.gcp_config |} in
  location (self w) = Some "europe-west1" ∧
  project_name (self w) = Some "proj" ∧
  invoke_sync Mock.succeeding 3 "foo_b1_python_256" JNull w
  = (Raise (AttributeError "func_name"), w).
Proof.
  intros w.
  destruct (invoke_sync_reads_unassigned_func_name Mock.succeeding)
    as (_ & _ & _ & Herror & _).
  destruct (Herror Mock.gcp_config [CallInitialize; CallGetFunction Mock.valid_b1]
              [] Mock.python_directory "/home/user" 3%nat "foo_b1_python_256" JNull)
    as (attr & Hraise & _ & Hattr).
  fold w in Hraise, Hattr.
  split; [by vm_compute|]. split; [by vm_compute|].
  rewrite Hraise. rewrite Hattr; [done| |]; apply (bool_decide_unpack _); by vm_compute.
Defined.

(** ** The metrics collector *)

Section MetricsFacts.

Variable float : Type.
Variable list_time_series :
  list Metrics.query → result (list (Metrics.time_series float)).

Implicit Types (requests : gmap string (gmap string (list (Metrics.sample float)))).

Lemma append_points_ok function_name metric key pts : ∀ requests buckets samples,
  requests !! function_name = Some buckets →
  buckets !! metric = Some samples →
  Metrics.append_points float function_name metric key pts requests
  = (<[function_name :=
         <[metric := samples ++ map (Metrics.sample_of float key) pts]> buckets]>
       requests, Ok tt).
Proof.
  induction pts as [|p pts IH]; intros requests buckets samples Hb Hs; simpl.
  - by rewrite app_nil_r, (insert_id buckets), (insert_id requests).
  - unfold Metrics.append_sample. rewrite Hb, Hs.
    rewrite (IH _ (<[metric := samples ++ [Metrics.sample_of float key p]]> buckets)
               (samples ++ [Metrics.sample_of float key p]));
      [|by rewrite lookup_insert_eq..].
    by rewrite !insert_insert_eq, <- app_assoc.
Qed.

Lemma collect_ok function_name metric key results : ∀ requests buckets samples,
  requests !! function_name = Some buckets →
  buckets !! metric = Some samples →
  Metrics.collect float function_name metric key results requests
  = (<[function_name :=
         <[metric := samples
                     ++ Metrics.matching_samples float function_name key results]>
           buckets]> requests, Ok tt).
Proof.
  induction results as [|series results IH]; intros requests buckets samples Hb Hs;
    simpl.
  - by rewrite app_nil_r, (insert_id buckets), (insert_id requests).
  - destruct (Metrics.labelled float function_name series).
    + rewrite (append_points_ok _ _ _ _ _ _ _ Hb Hs).
      erewrite IH; [|by rewrite lookup_insert_eq..].
      by rewrite !insert_insert_eq, <- app_assoc.
    + by apply IH.
Qed.

(** A call on an accumulator that holds the two lists of the function,
    answered twice by the backend. *)
Lemma download_metrics_run cfg function_name start_time end_time
    requests buckets times memory results1 results2 :
  let q1 :=
    Metrics.widened_query cfg Metrics.execution_times_filter start_time end_time in
  let q2 :=
    Metrics.widened_query cfg Metrics.user_memory_bytes_filter start_time end_time in
  requests !! function_name = Some buckets →
  buckets !! "execution_times" = Some times →
  buckets !! "user_memory_bytes" = Some memory →
  list_time_series [q1] = Ok results1 →
  list_time_series [q1; q2] = Ok results2 →
  Metrics.download_metrics float list_time_series cfg function_name
    start_time end_time requests
  = {| Metrics.out_requests :=
         <[function_name :=
             <["user_memory_bytes" :=
                 memory ++ Metrics.matching_samples float function_name
                             "mean_memory" results2]>
               (<["execution_times" :=
                    times ++ Metrics.matching_samples float function_name
                               "mean_time" results1]> buckets)]> requests;
       Metrics.out_queries := [q1; q2];
       Metrics.out_result := Ok tt |}.
Proof.
  intros q1 q2 Hb Ht Hm H1 H2.
  unfold Metrics.download_metrics. fold q1 q2.
  change (Metrics.widened_query _ _ _ _) with q1.
  unfold Metrics.widened_query in q1, q2. fold q1 q2. rewrite H1.
  rewrite (collect_ok _ _ _ _ _ _ _ Hb Ht). rewrite H2.
  erewrite collect_ok;
    [|by rewrite lookup_insert_eq|by rewrite lookup_insert_ne, Hm].
  by rewrite insert_insert_eq.
Qed.

(** Two calls in a row for the same function, over two windows: the
    samples of the second window come after those of the first, which
    come after what the lists held. *)
Lemma download_metrics_successive_calls cfg function_name start1 end1 start2 end2
    requests buckets times memory first1 first2 second1 second2 :
  let q window_start window_end metric_filter :=
    Metrics.widened_query cfg metric_filter window_start window_end in
  requests !! function_name = Some buckets →
  buckets !! "execution_times" = Some times →
  buckets !! "user_memory_bytes" = Some memory →
  list_time_series [q start1 end1 Metrics.execution_times_filter] = Ok first1 →
  list_time_series [q start1 end1 Metrics.execution_times_filter;
                    q start1 end1 Metrics.user_memory_bytes_filter] = Ok first2 →
  list_time_series [q start2 end2 Metrics.execution_times_filter] = Ok second1 →
  list_time_series [q start2 end2 Metrics.execution_times_filter;
                    q start2 end2 Metrics.user_memory_bytes_filter] = Ok second2 →
  let after_first :=
    Metrics.out_requests
      (Metrics.download_metrics float list_time_series cfg function_name
         start1 end1 requests) in
  let after_second :=
    Metrics.out_requests
      (Metrics.download_metrics float list_time_series cfg function_name
         start2 end2 after_first) in
  ∃ buckets',
    after_second !! function_name = Some buckets' ∧
    buckets' !! "execution_times"
    = Some (times ++ Metrics.matching_samples float function_name "mean_time" first1
                  ++ Metrics.matching_samples float function_name "mean_time" second1) ∧
    buckets' !! "user_memory_bytes"
    = Some (memory
            ++ Metrics.matching_samples float function_name "mean_memory" first2
            ++ Metrics.matching_samples float function_name "mean_memory" second2).
Proof.
  intros q Hb Ht Hm H11 H12 H21 H22 after_first after_second.
  unfold after_second, after_first.
  rewrite (download_metrics_run _ _ _ _ _ _ _ _ _ _ Hb Ht Hm H11 H12). simpl.
  erewrite download_metrics_run; [|by rewrite lookup_insert_eq| | |done..].
  2: by rewrite lookup_insert_ne, lookup_insert_eq.
  2: by rewrite lookup_insert_eq.
  simpl. eexists. split; [by rewrite lookup_insert_eq|].
  split.
  - by rewrite lookup_insert_ne, lookup_insert_eq, <- app_assoc.
  - by rewrite lookup_insert_eq, <- app_assoc.
Qed.

(** C9: a call queries the two metric types over the given window
    widened by 60 seconds on both ends, and appends to the two lists of
    the target function, after what they held, the (mean, count) sample
    of every point of every series labelled with that function; the
    entries of the other functions are as they were. *)
Theorem download_metrics_accumulates cfg function_name start_time end_time
    requests buckets times memory results1 results2 :
  let q1 :=
    Metrics.widened_query cfg Metrics.execution_times_filter start_time end_time in
  let q2 :=
    Metrics.widened_query cfg Metrics.user_memory_bytes_filter start_time end_time in
  requests !! function_name = Some buckets →
  buckets !! "execution_times" = Some times →
  buckets !! "user_memory_bytes" = Some memory →
  list_time_series [q1] = Ok results1 →
  list_time_series [q1; q2] = Ok results2 →
  let out :=
    Metrics.download_metrics float list_time_series cfg function_name
      start_time end_time requests in
  Metrics.out_queries out = [q1; q2] ∧
  Metrics.query_start_seconds q1 = start_time - 60 ∧
  Metrics.query_end_seconds q1 = end_time + 60 ∧
  Metrics.query_start_seconds q2 = start_time - 60 ∧
  Metrics.query_end_seconds q2 = end_time + 60 ∧
  Metrics.out_result out = Ok tt ∧
  Metrics.out_requests out
  = <[function_name :=
        <["user_memory_bytes" :=
            memory ++ Metrics.matching_samples float function_name "mean_memory"
                        results2]>
          (<["execution_times" :=
               times ++ Metrics.matching_samples float function_name "mean_time"
                          results1]> buckets)]> requests ∧
  (∀ other, other ≠ function_name →
            Metrics.out_requests out !! other = requests !! other).
Proof.
  intros q1 q2 Hb Ht Hm H1 H2 out. unfold out.
  rewrite (download_metrics_run _ _ _ _ _ _ _ _ _ _ Hb Ht Hm H1 H2).
  simpl. repeat split; try done.
  intros other Hother. by rewrite lookup_insert_ne.
Qed.

End MetricsFacts.

Lemma download_metrics_accumulates_witness :
  let out :=
    Metrics.download_metrics Z Mock.telemetry Mock.gcp_config "f" 1000 2000
      Mock.requests in
  Metrics.query_start_seconds <$> Metrics.out_queries out = [940; 940] ∧
  Metrics.query_end_seconds <$> Metrics.out_queries out = [2060; 2060] ∧
  Metrics.out_requests out !! "f"
  = Some (<["user_memory_bytes" :=
              [{| Metrics.mean_key := "mean_memory"; Metrics.mean_value := 4096;
                  Metrics.executions_count := 4 |}]]>
          (<["execution_times" :=
               [Mock.earlier_sample;
                {| Metrics.mean_key := "mean_time"; Metrics.mean_value := 120;
                   Metrics.executions_count := 3 |};
                {| Metrics.mean_key := "mean_time"; Metrics.mean_value := 80;
                   Metrics.executions_count := 1 |}]]>
             (<["execution_times" := [Mock.earlier_sample]]>
                (<["user_memory_bytes" := []]> ∅)))).
Proof.
  intros out.
  destruct (download_metrics_accumulates Z Mock.telemetry Mock.gcp_config "f" 1000 2000
              Mock.requests
              (<["execution_times" := [Mock.earlier_sample]]>
                 (<["user_memory_bytes" := []]> ∅))
              [Mock.earlier_sample] []
              [Mock.labelled_series "f" [(120, 3); (80, 1)];
               Mock.labelled_series "g" [(5, 1)]]
              [Mock.labelled_series "f" [(4096, 4)]])
    as (Hq & _ & _ & _ & _ & _ & Hout & _); try reflexivity.
  fold out in Hq, Hout. rewrite Hq, Hout. split; [done|]. split; [done|].
  by rewrite lookup_insert_eq.
Defined.

(** * Further properties *)

(** ** Relocation and the final build directory *)

Section Relocation.

Implicit Types (d : directory_state) (k : string).

(** On a listing without repetition of existing entries, none of which
    is already in the function directory, the relocation loop completes;
    the function directory then holds, besides what it held, every
    listed entry outside [package_config]. *)
Lemma relocate_total package_config function_dir listing :
  ∀ d children,
    NoDup listing →
    (∀ k, k ∈ listing → is_Some (d !! k)) →
    d !! function_dir = Some (Dir children) →
    (∀ k, k ∈ listing → children !! k = None) →
    ∃ d' children',
      relocate package_config function_dir listing d = Ok d' ∧
      d' !! function_dir = Some (Dir children') ∧
      ∀ k, children' !! k
           = if bool_decide (k ∈ listing ∧ (k ∉ package_config) ∧ k ≠ function_dir)
             then d !! k else children !! k.
Proof.
  induction listing as [|file rest IH]; intros d children Hnodup Hex Hdir Hfresh.
  - exists d, children. split; [done|]. split; [done|]. intros k.
    rewrite bool_decide_eq_false_2; [done|]. intros [Hin _]. by apply elem_of_nil in Hin.
  - apply NoDup_cons in Hnodup as [Hfile Hnodup]. simpl.
    assert (∀ k (d1 children1 children' : directory_state),
              (∀ q, q ≠ file → q ≠ function_dir → d1 !! q = d !! q) →
              (file ∉ package_config → file ≠ function_dir →
               children1 !! file = d !! file) →
              (file ∈ package_config ∨ file = function_dir →
               children1 !! file = children !! file) →
              (∀ q, q ≠ file → children1 !! q = children !! q) →
              (∀ q, children' !! q
                    = if bool_decide (q ∈ rest ∧ (q ∉ package_config) ∧ q ≠ function_dir)
                      then d1 !! q else children1 !! q) →
              children' !! k
              = if bool_decide (k ∈ file :: rest ∧ (k ∉ package_config)
                                ∧ k ≠ function_dir)
                then d !! k else children !! k) as Hcombine.
    { intros k d1 children1 children' Hd1 Hmoved Hstay Hother ->.
      destruct (decide (k = file)) as [->|Hk].
      - rewrite bool_decide_eq_false_2 by tauto.
        case_bool_decide as Hc.
        + destruct Hc as (_ & ? & ?). by apply Hmoved.
        + apply Hstay.
          destruct (decide (file ∈ package_config)); [by left|].
          destruct (decide (file = function_dir)); [by right|].
          exfalso. apply Hc. split; [apply list_elem_of_here|done].
      - rewrite (Hother k Hk).
        rewrite (bool_decide_ext (k ∈ file :: rest ∧ (k ∉ package_config)
                                  ∧ k ≠ function_dir)
                   (k ∈ rest ∧ (k ∉ package_config) ∧ k ≠ function_dir))
          by (rewrite elem_of_cons; tauto).
        case_bool_decide as Hc; [|done].
        destruct Hc as (? & ? & ?). by apply Hd1. }
    case_bool_decide as Hpc.
    + destruct (IH d children Hnodup) as (d' & children' & Hrel & Hdir' & Hch).
      * intros k Hk. apply Hex. by apply list_elem_of_further.
      * done.
      * intros k Hk. apply Hfresh. by apply list_elem_of_further.
      * exists d', children'. split; [done|]. split; [done|]. intros k.
        apply (Hcombine k d children children'); try done; tauto.
    + destruct (decide (file = function_dir)) as [->|Hne].
      * unfold shutil_move at 1. rewrite Hdir, bool_decide_eq_true_2 by done.
        destruct (IH d children Hnodup) as (d' & children' & Hrel & Hdir' & Hch).
        -- intros k Hk. apply Hex. by apply list_elem_of_further.
        -- done.
        -- intros k Hk. apply Hfresh. by apply list_elem_of_further.
        -- exists d', children'. split; [done|]. split; [done|]. intros k.
           apply (Hcombine k d children children'); try done; tauto.
      * unfold shutil_move at 1.
        rewrite Hdir, bool_decide_eq_false_2, (Hfresh file) by
          (done || apply list_elem_of_here).
        destruct (Hex file) as [n Hn]; [apply list_elem_of_here|]. rewrite Hn.
        destruct (IH (<[function_dir := Dir (<[file := n]> children)]> (delete file d))
                    (<[file := n]> children) Hnodup)
          as (d' & children' & Hrel & Hdir' & Hch).
        -- intros k Hk. destruct (decide (k = function_dir)) as [->|Hkf].
           ++ rewrite lookup_insert_eq. eauto.
           ++ rewrite lookup_insert_ne, lookup_delete_ne by congruence.
              apply Hex. by apply list_elem_of_further.
        -- by rewrite lookup_insert_eq.
        -- intros k Hk. rewrite lookup_insert_ne by congruence.
           apply Hfresh. by apply list_elem_of_further.
        -- exists d', children'. split; [done|]. split; [done|]. intros k.
           apply (Hcombine k
                    (<[function_dir := Dir (<[file := n]> children)]> (delete file d))
                    (<[file := n]> children) children'); try done.
           ++ intros q ? ?. by rewrite lookup_insert_ne, lookup_delete_ne.
           ++ intros _ _. by rewrite lookup_insert_eq.
           ++ intros [?|?]; done.
           ++ intros q ?. by rewrite lookup_insert_ne.
Qed.

Lemma NoDup_listdir d : NoDup (listdir d).
Proof. apply NoDup_fst_map_to_list. Qed.

End Relocation.

(** ** Every outcome of the code packager *)

Section Running.

Context {A B : Type}.

Lemma bind_fail (m : M A) (f : A → M B) w e w1 :
  m w = (Raise e, w1) → bind m f w = (Raise e, w1).
Proof. unfold bind. by intros ->. Qed.

Lemma bind_stuck (m : M A) (f : A → M B) w w1 :
  m w = (OutOfFuel, w1) → bind m f w = (OutOfFuel, w1).
Proof. unfold bind. by intros ->. Qed.

Lemma bind_any (m : M A) (f : A → M B) w r w1 :
  m w = (r, w1) →
  bind m f w = match r with
               | Ok a => f a w1
               | Raise e => (Raise e, w1)
               | OutOfFuel => (OutOfFuel, w1)
               end.
Proof. unfold bind. by intros ->. Qed.

End Running.

Lemma on_fs_run op w d :
  op (fs w) = Ok d → on_fs op w = (Ok tt, set_fs d w).
Proof. unfold on_fs. by intros ->. Qed.

Lemma on_fs_fail op w e :
  op (fs w) = Raise e → on_fs op w = (Raise e, w).
Proof. unfold on_fs. by intros ->. Qed.

Lemma build_any env cp w :
  build env cp w
  = let w1 := set_trace (trace w ++ [EvBuild (benchmark cp)]) w in
    match env_build env (trace w1) (fs w) with
    | Ok (directory, d) => (Ok directory, set_fs d w1)
    | Raise e => (Raise e, w1)
    | OutOfFuel => (OutOfFuel, w1)
    end.
Proof. done. Qed.

Lemma execute_zip_any env cmd archive w :
  execute_zip env cmd archive w
  = let w1 := set_trace (trace w ++ [EvExecute cmd]) w in
    match env_execute env (trace w1) (fs w) with
    | Ok bytes => (Ok tt, set_fs (<[archive := File bytes]> (fs w)) w1)
    | Raise e => (Raise e, w1)
    | OutOfFuel => (OutOfFuel, w1)
    end.
Proof. done. Qed.

Section PackagingOutcomes.

Variable env : Env.

(** Once [build] has answered, the language is in the two tables and
    the directory has no entry [function], the relocation completes and
    the manifest is written; the outcome of [package_code] is then
    decided by the presence of the handler and by the archiving
    command. *)
Lemma package_code_prepared cp w directory built package_config names :
  env_build env (trace w ++ [EvBuild (benchmark cp)]) (fs w) = Ok (directory, built) →
  dict_get CONFIG_FILES (language_name cp) = Ok package_config →
  dict_get HANDLER (language_name cp) = Ok names →
  built !! "function" = None →
  ∃ relocated children,
    relocate package_config "function" (listdir (<["function" := Dir ∅]> built))
      (<["function" := Dir ∅]> built) = Ok relocated ∧
    relocated !! "function" = Some (Dir children) ∧
    (∀ k, children !! k
          = if bool_decide (k ∈ package_config ∨ k = "function")
            then None else built !! k) ∧
    (∀ k, k ∈ package_config → relocated !! k = built !! k) ∧
    (∀ k, k ∉ package_config → k ≠ "function" → relocated !! k = None) ∧
    let prepared := <[manifest := File storage_library]> relocated in
    let started := trace w ++ [EvBuild (benchmark cp); EvExecute (zip_command cp)] in
    package_code env cp w
    = match built !! names.1 with
      | None =>
          (Raise (FileNotFoundError names.1),
           {| trace := trace w ++ [EvBuild (benchmark cp)]; fs := prepared;
              cwd := directory; self := self w |})
      | Some handler =>
          let renamed := <[names.2 := handler]> (delete names.1 prepared) in
          match env_execute env started renamed with
          | Ok bytes =>
              let size := Z.of_nat (String.length bytes) in
              (Ok (Py.path_join directory (archive_name cp), size),
               {| trace := trace w ++ packaging_events env cp directory size;
                  fs := <[names.1 := handler]>
                          (delete names.2
                             (<[archive_name cp := File bytes]> renamed));
                  cwd := cwd w; self := self w |})
          | Raise e =>
              (Raise e, {| trace := started; fs := renamed; cwd := directory;
                           self := self w |})
          | OutOfFuel =>
              (OutOfFuel, {| trace := started; fs := renamed; cwd := directory;
                             self := self w |})
          end
      end.
Proof.
  intros Hbuild Hpc Hnames Hfree.
  destruct names as [old_name new_name].
  assert (old_name ∈ package_config ∧ (new_name ∉ package_config) ∧
          ("function" ∉ package_config) ∧
          old_name ≠ "function" ∧ new_name ≠ "function" ∧ old_name ≠ new_name ∧
          manifest ≠ old_name ∧ manifest ≠ new_name ∧
          (manifest ∉ package_config) ∧
          archive_name cp ≠ old_name ∧ archive_name cp ≠ new_name)
    as (Hold & Hnew & Hfun & Hof & Hnf & Hon & Hmo & Hmn & Hmpc & Hao & Han).
  { destruct (tables_agree _ _ _ Hpc Hnames) as [[-> [= -> ->]]|[-> [= -> ->]]];
      repeat split; try done; try (by apply (bool_decide_unpack _));
      by apply archive_name_ne. }
  destruct (relocate_total package_config "function"
              (listdir (<["function" := Dir ∅]> built))
              (<["function" := Dir ∅]> built) ∅)
    as (relocated & children & Hreloc & Hdir & Hchildren).
  { apply NoDup_listdir. }
  { intros k. by rewrite elem_of_listdir. }
  { apply lookup_insert_eq. }
  { intros k _. apply lookup_empty. }
  pose proof Hreloc as Hrel.
  eapply relocate_ok in Hrel as (_ & Hkeep & Hgone);
    [|apply lookup_insert_eq|done].
  assert (∀ k, k ∈ package_config → relocated !! k = built !! k) as Hkept.
  { intros k Hk. rewrite (Hkeep k Hk). apply lookup_insert_ne. congruence. }
  assert (∀ k, k ∉ package_config → k ≠ "function" → relocated !! k = None) as Hmoved.
  { intros k Hk Hkf. apply Hgone; [done..|].
    destruct (<["function" := Dir ∅]> built !! k) eqn:E; [left|by right].
    apply elem_of_listdir. by rewrite E. }
  exists relocated, children. split; [done|]. split; [done|]. split.
  { intros k. rewrite Hchildren, lookup_empty.
    case_bool_decide as H1; case_bool_decide as H2; try done.
    - destruct H1 as (_ & Hn & Hf). by destruct H2.
    - destruct H1 as (_ & ? & ?). by rewrite lookup_insert_ne.
    - destruct (built !! k) eqn:E; [|done]. exfalso. apply H1.
      assert ((k ∉ package_config) ∧ k ≠ "function") as [? ?]
        by (split; intros ?; apply H2; auto).
      split; [|done]. apply elem_of_listdir.
      rewrite lookup_insert_ne by done. by rewrite E. }
  split; [done|]. split; [done|]. simpl.
  unfold package_code.
  erewrite bind_run by (rewrite build_any; simpl; rewrite Hbuild; reflexivity).
  erewrite bind_run by (unfold lift; rewrite Hpc; reflexivity).
  erewrite bind_run by (apply on_fs_run; unfold makedirs; simpl; by rewrite Hfree).
  erewrite bind_run by reflexivity.
  erewrite bind_run by (apply on_fs_run; exact Hreloc).
  erewrite bind_run.
  2: { apply on_fs_run. unfold write_file. simpl.
       by rewrite (Hmoved "requirements.txt" Hmpc). }
  erewrite bind_run by reflexivity.
  erewrite bind_run by reflexivity.
  erewrite bind_run by (unfold lift; rewrite Hnames; reflexivity).
  simpl.
  assert (shutil_move old_name new_name (<[manifest := File storage_library]> relocated)
          = match built !! old_name with
            | Some handler =>
                Ok (<[new_name := handler]>
                      (delete old_name (<[manifest := File storage_library]> relocated)))
            | None => Raise (FileNotFoundError old_name)
            end) as Hmove.
  { unfold shutil_move.
    rewrite (lookup_insert_ne _ manifest new_name), (Hmoved new_name) by done.
    by rewrite (lookup_insert_ne _ manifest old_name), (Hkept old_name) by done. }
  destruct (built !! old_name) as [handler|] eqn:Hhandler.
  2: { erewrite bind_fail; [reflexivity|]. apply on_fs_fail. exact Hmove. }
  erewrite bind_run by (apply on_fs_run; exact Hmove).
  change ("zip -qu -r9 " +:+ (benchmark cp +:+ ".zip") +:+ " * .")
    with (zip_command cp).
  change (benchmark cp +:+ ".zip") with (archive_name cp).
  destruct (env_execute env _ _) as [bytes| |] eqn:Hzip.
  2: { erewrite bind_fail; [reflexivity|]. rewrite execute_zip_any. simpl.
       rewrite <- app_assoc. simpl. by rewrite Hzip. }
  2: { erewrite bind_stuck; [reflexivity|]. rewrite execute_zip_any. simpl.
       rewrite <- app_assoc. simpl. by rewrite Hzip. }
  erewrite bind_run.
  2: { rewrite execute_zip_any. simpl. rewrite <- app_assoc. simpl.
       rewrite Hzip. reflexivity. }
  erewrite bind_run by reflexivity.
  erewrite bind_run.
  2: { unfold read_fs, getsize. simpl. by rewrite lookup_insert_eq. }
  erewrite bind_run by reflexivity.
  erewrite bind_run.
  2: { apply on_fs_run. unfold shutil_move. simpl.
       rewrite (lookup_insert_ne _ (archive_name cp) old_name) by done.
       rewrite (lookup_insert_ne _ new_name old_name) by done.
       rewrite lookup_delete_eq.
       rewrite (lookup_insert_ne _ (archive_name cp) new_name) by done.
       by rewrite lookup_insert_eq. }
  erewrite bind_run by reflexivity.
  unfold ret, packaging_events. simpl. rewrite <- !app_assoc. reflexivity.
Qed.

End PackagingOutcomes.

Section PackagingProperties.

Variable env : Env.

(** X1: with a language of the tables, a built directory that has the
    handler and no entry [function], and an archiving command that
    succeeds, [package_code] returns the path of the archive in the
    build directory and the number of bytes of the archive; it leaves
    the working directory where it was and records the build, the
    command and two log lines. *)
Theorem package_code_completes cp w directory built names handler bytes :
  env_build env (trace w ++ [EvBuild (benchmark cp)]) (fs w) = Ok (directory, built) →
  dict_get HANDLER (language_name cp) = Ok names →
  built !! "function" = None →
  built !! names.1 = Some handler →
  (∀ d, env_execute env
          (trace w ++ [EvBuild (benchmark cp); EvExecute (zip_command cp)]) d
        = Ok bytes) →
  ∃ w',
    package_code env cp w
    = (Ok (Py.path_join directory (archive_name cp), Z.of_nat (String.length bytes)),
       w') ∧
    trace w' = trace w ++ packaging_events env cp directory
                            (Z.of_nat (String.length bytes)) ∧
    cwd w' = cwd w ∧ self w' = self w ∧
    fs w' !! archive_name cp = Some (File bytes).
Proof.
  intros Hbuild Hnames Hfree Hhandler Hzip.
  assert (∃ pc, dict_get CONFIG_FILES (language_name cp) = Ok pc) as [pc Hpc].
  { destruct (handler_lookup _ _ Hnames) as [[-> _]|[-> _]]; by eexists. }
  destruct (package_code_prepared env cp w directory built pc names
              Hbuild Hpc Hnames Hfree)
    as (relocated & children & _ & _ & _ & _ & _ & Hrun).
  simpl in Hrun. rewrite Hhandler, Hzip in Hrun.
  eexists. split; [exact Hrun|]. simpl. repeat split.
  assert (archive_name cp ≠ names.1 ∧ archive_name cp ≠ names.2) as [? ?].
  { destruct (handler_lookup _ _ Hnames) as [[_ ->]|[_ ->]];
      split; by apply archive_name_ne. }
  by rewrite lookup_insert_ne, lookup_delete_ne, lookup_insert_eq.
Qed.

(** The layout of the directory a completed [package_code] leaves. *)
Lemma package_code_layout cp w p w' :
  package_code env cp w = (Ok p, w') →
  ∃ run,
    completed env cp w run ∧
    ∀ k, fs w' !! k
         = packaged_entry cp (run_package_config run) (run_built run)
             (run_bytes run) k.
Proof.
  intros (run & Hrun & _ & ->)%package_code_ok.
  exists run. split; [done|].
  destruct (completed_states env cp w run Hrun)
    as (handler & (Hon & Hmo & Hmn & Hao & Han & Ham) & Hhandler & Hrenamed & Hfinal).
  destruct Hrun as (Hbuild & Hpc & Hfree & Hreloc & Hnames & _).
  destruct (package_code_prepared env cp w _ _ _ _ Hbuild Hpc Hnames Hfree)
    as (relocated & children & Hreloc' & Hdir & Hchildren & Hkept & Hmoved & _).
  rewrite Hreloc in Hreloc'. injection Hreloc' as <-.
  assert ((run_names run).1 ∈ run_package_config run ∧
          ((run_names run).2 ∉ run_package_config run) ∧
          (run_names run).1 ≠ "function" ∧ (run_names run).2 ≠ "function" ∧
          archive_name cp ≠ "function" ∧ manifest ≠ "function")
    as (Hold & Hnew & Hof & Hnf & Haf & Hmf).
  { destruct (tables_agree _ _ _ Hpc Hnames) as [[-> ->]|[-> ->]]; simpl;
      repeat split; try done; try (by apply (bool_decide_unpack _));
      by apply archive_name_ne. }
  simpl. rewrite Hfinal, Hrenamed.
  intros k. unfold packaged_entry.
  case_bool_decide as Hka; [subst k|].
  { by rewrite lookup_insert_ne, lookup_delete_ne, lookup_insert_eq. }
  case_bool_decide as Hkm; [subst k|].
  { rewrite lookup_insert_ne, lookup_delete_ne, lookup_insert_ne by done.
    rewrite lookup_insert_ne, lookup_delete_ne by done. apply lookup_insert_eq. }
  case_bool_decide as Hkf; [subst k|].
  { rewrite lookup_insert_ne, lookup_delete_ne, lookup_insert_ne by done.
    rewrite lookup_insert_ne, lookup_delete_ne, lookup_insert_ne by done.
    rewrite Hdir. do 2 f_equal. apply map_eq. intros k.
    rewrite Hchildren. case_bool_decide as Hc.
    - symmetry. apply map_lookup_filter_None. right. intros n Hn. simpl.
      destruct Hc as [Hc | ->]; [by intros ?|]. congruence.
    - destruct (run_built run !! k) as [n|] eqn:Hn.
      + symmetry. apply map_lookup_filter_Some. split; [done|]. simpl. tauto.
      + symmetry. apply map_lookup_filter_None. by left. }
  destruct (decide (k = (run_names run).1)) as [->|Hk1].
  { rewrite lookup_insert_eq, bool_decide_eq_true_2 by done. done. }
  rewrite lookup_insert_ne by done.
  destruct (decide (k = (run_names run).2)) as [->|Hk2].
  { rewrite lookup_delete_eq, bool_decide_eq_false_2 by done. done. }
  rewrite lookup_delete_ne, lookup_insert_ne, lookup_insert_ne by done.
  rewrite lookup_delete_ne, lookup_insert_ne by done.
  case_bool_decide as Hpcin; [by apply Hkept|by apply Hmoved].
Qed.

(** X2: when [package_code] completes, the build directory consists of
    the archive, the manifest, the function directory and the entries
    of [package_config] that [build] left; every other entry [build]
    left, a manifest of the benchmark included, is in the function
    directory, unchanged, and the entry-point name is free. *)
Theorem package_code_final_directory cp w p w' :
  package_code env cp w = (Ok p, w') →
  ∃ run,
    completed env cp w run ∧
    (∀ k, fs w' !! k
          = packaged_entry cp (run_package_config run) (run_built run)
              (run_bytes run) k) ∧
    fs w' !! (run_names run).2 = None ∧
    ∀ k n, run_built run !! k = Some n → k ∉ run_package_config run →
           ∃ children, fs w' !! "function" = Some (Dir children) ∧
                       children !! k = Some n.
Proof.
  intros Hok. destruct (package_code_layout cp w p w' Hok) as (run & Hrun & Hfs).
  exists run. split; [done|]. split; [done|].
  destruct Hrun as (_ & Hpc & _ & _ & Hnames & _).
  assert (((run_names run).2 ∉ run_package_config run) ∧
          (run_names run).2 ≠ "function" ∧ (run_names run).2 ≠ manifest ∧
          archive_name cp ≠ (run_names run).2 ∧ archive_name cp ≠ "function" ∧
          manifest ≠ "function")
    as (Hnew & Hnf & Hnm & Han & Haf & Hmf).
  { destruct (tables_agree _ _ _ Hpc Hnames) as [[-> ->]|[-> ->]]; simpl;
      repeat split; try done; try (by apply (bool_decide_unpack _));
      by apply archive_name_ne. }
  split.
  - rewrite Hfs. unfold packaged_entry.
    by rewrite !bool_decide_eq_false_2 by done.
  - intros k n Hk Hkpc. eexists. split.
    + rewrite Hfs. unfold packaged_entry.
      rewrite bool_decide_eq_false_2 by (intros H; by rewrite H in Haf).
      rewrite bool_decide_eq_false_2 by (intros H; by rewrite H in Hmf).
      by rewrite bool_decide_eq_true_2.
    + by apply map_lookup_filter_Some.
Qed.

(** X3: a language outside the tables is found out after [build] and
    before anything is done to the directory: [package_code] raises the
    key error of the language, the directory is as [build] left it and
    no archiving command has run. *)
Theorem package_code_unknown_language cp w directory built :
  env_build env (trace w ++ [EvBuild (benchmark cp)]) (fs w) = Ok (directory, built) →
  CONFIG_FILES !! language_name cp = None →
  package_code env cp w
  = (Raise (KeyError (language_name cp)),
     {| trace := trace w ++ [EvBuild (benchmark cp)]; fs := built;
        cwd := cwd w; self := self w |}).
Proof.
  intros Hbuild Hlang. unfold package_code.
  erewrite bind_run by (rewrite build_any; simpl; rewrite Hbuild; reflexivity).
  erewrite bind_fail; [reflexivity|].
  unfold lift, dict_get. by rewrite Hlang.
Qed.

(** X4: [package_code] cannot be run again on the directory it leaves:
    when it has completed and the next [build] hands the directory back
    as it is, the next [package_code] raises on creating the function
    directory, and changes nothing in the directory. *)
Theorem package_code_not_repeatable cp w p w1 directory :
  package_code env cp w = (Ok p, w1) →
  env_build env (trace w1 ++ [EvBuild (benchmark cp)]) (fs w1)
  = Ok (directory, fs w1) →
  package_code env cp w1
  = (Raise (FileExistsError "function"),
     set_trace (trace w1 ++ [EvBuild (benchmark cp)]) w1).
Proof.
  intros Hok Hbuild.
  destruct (package_code_layout cp w p w1 Hok) as (run & Hrun & Hfs).
  destruct Hrun as (_ & Hpc & _).
  unfold package_code.
  erewrite bind_run by (rewrite build_any; simpl; rewrite Hbuild; reflexivity).
  erewrite bind_run by (unfold lift; rewrite Hpc; reflexivity).
  erewrite bind_fail; [by destruct w1|].
  unfold on_fs, makedirs. simpl. rewrite (Hfs "function"). unfold packaged_entry.
  rewrite bool_decide_eq_false_2
    by (intros H; symmetry in H; by apply archive_name_ne in H).
  by rewrite bool_decide_eq_false_2, bool_decide_eq_true_2.
Qed.

(** X5: without the handler in the built directory, [package_code]
    raises on the first rename, after the relocation and the writing of
    the manifest and before any archiving command; the working
    directory is left in the build directory. *)
Theorem package_code_missing_handler cp w directory built names :
  env_build env (trace w ++ [EvBuild (benchmark cp)]) (fs w) = Ok (directory, built) →
  dict_get HANDLER (language_name cp) = Ok names →
  built !! "function" = None →
  built !! names.1 = None →
  ∃ w',
    package_code env cp w = (Raise (FileNotFoundError names.1), w') ∧
    trace w' = trace w ++ [EvBuild (benchmark cp)] ∧
    cwd w' = directory ∧
    fs w' !! manifest = Some (File storage_library) ∧
    is_Some (fs w' !! "function").
Proof.
  intros Hbuild Hnames Hfree Hhandler.
  assert (∃ pc, dict_get CONFIG_FILES (language_name cp) = Ok pc) as [pc Hpc].
  { destruct (handler_lookup _ _ Hnames) as [[-> _]|[-> _]]; by eexists. }
  destruct (package_code_prepared env cp w directory built pc names
              Hbuild Hpc Hnames Hfree)
    as (relocated & children & _ & Hdir & _ & _ & _ & Hrun).
  simpl in Hrun. rewrite Hhandler in Hrun.
  eexists. split; [exact Hrun|]. simpl. split; [done|]. split; [done|].
  split; [apply lookup_insert_eq|].
  rewrite lookup_insert_ne by done. by rewrite Hdir.
Qed.

(** X6: when the archiving command raises, [package_code] raises the
    same exception and undoes nothing: the handler stays under the
    entry-point name, its own name is free, no archive is in the
    directory and the working directory is the build directory. *)
Theorem package_code_archiving_failure cp w directory built names handler e :
  env_build env (trace w ++ [EvBuild (benchmark cp)]) (fs w) = Ok (directory, built) →
  dict_get HANDLER (language_name cp) = Ok names →
  built !! "function" = None →
  built !! names.1 = Some handler →
  (∀ d, env_execute env
          (trace w ++ [EvBuild (benchmark cp); EvExecute (zip_command cp)]) d
        = Raise e) →
  ∃ w',
    package_code env cp w = (Raise e, w') ∧
    trace w' = trace w ++ [EvBuild (benchmark cp); EvExecute (zip_command cp)] ∧
    fs w' !! names.2 = Some handler ∧
    fs w' !! names.1 = None ∧
    fs w' !! archive_name cp = None ∧
    cwd w' = directory.
Proof.
  intros Hbuild Hnames Hfree Hhandler Hzip.
  assert (∃ pc, dict_get CONFIG_FILES (language_name cp) = Ok pc) as [pc Hpc].
  { destruct (handler_lookup _ _ Hnames) as [[-> _]|[-> _]]; by eexists. }
  destruct (package_code_prepared env cp w directory built pc names
              Hbuild Hpc Hnames Hfree)
    as (relocated & children & _ & _ & _ & _ & Hmoved & Hrun).
  simpl in Hrun. rewrite Hhandler, Hzip in Hrun.
  assert (names.1 ≠ names.2 ∧ (archive_name cp ∉ pc) ∧
          archive_name cp ≠ names.1 ∧ archive_name cp ≠ names.2 ∧
          archive_name cp ≠ manifest ∧ archive_name cp ≠ "function")
    as (Hon & Hapc & Hao & Han & Ham & Haf).
  { destruct (tables_agree _ _ _ Hpc Hnames) as [[-> ->]|[-> ->]]; simpl;
      repeat split; try done; try (by apply archive_name_ne);
      rewrite !elem_of_cons, elem_of_nil;
      intros [H|[H|[]]]; by apply archive_name_ne in H. }
  eexists. split; [exact Hrun|]. simpl. split; [done|].
  split; [apply lookup_insert_eq|].
  split; [by rewrite lookup_insert_ne, lookup_delete_eq|].
  split; [|done].
  rewrite lookup_insert_ne, lookup_delete_ne, lookup_insert_ne by done.
  by apply Hmoved.
Qed.

End PackagingProperties.

(** ** What a method may record *)

Section Records.

Variable kind : event → bool.

Lemma records_ret {A} (a : A) : records kind (ret a).
Proof. intros w. exists []. by rewrite app_nil_r. Qed.

Lemma records_pure {A} (m : M A) :
  (∀ w, trace (m w).2 = trace w) → records kind m.
Proof. intros Hm w. exists []. by rewrite app_nil_r, Hm. Qed.

Lemma records_bind {A B} (m : M A) (f : A → M B) :
  records kind m → (∀ a, records kind (f a)) → records kind (bind m f).
Proof.
  intros Hm Hf w. unfold bind. destruct (Hm w) as (t1 & Ht1 & Hk1).
  destruct (m w) as [[a| |] w1]; simpl in *; [|by exists t1..].
  destruct (Hf a w1) as (t2 & Ht2 & Hk2). exists (t1 ++ t2).
  by rewrite Ht2, Ht1, app_assoc, forallb_app, Hk1, Hk2.
Qed.

Lemma records_emit ev : kind ev = true → records kind (emit ev).
Proof. intros Hev w. exists [ev]. simpl. by rewrite Hev. Qed.

Lemma records_outside {A} ev (answer : list event → result A) :
  kind ev = true → records kind (outside ev answer).
Proof. intros Hev w. exists [ev]. simpl. by rewrite Hev. Qed.

Lemma records_on_fs op : records kind (on_fs op).
Proof. apply records_pure. intros w. unfold on_fs. by destruct (op (fs w)). Qed.

Lemma records_attribute {A} name (get : GCP → option A) :
  records kind (attribute name get).
Proof.
  apply records_pure. intros w. unfold attribute. by destruct (get (self w)).
Qed.

Lemma records_build env cp :
  kind (EvBuild (benchmark cp)) = true → records kind (build env cp).
Proof.
  intros Hev w. exists [EvBuild (benchmark cp)]. rewrite build_any. simpl.
  rewrite Hev. by destruct (env_build _ _ _) as [[]| |].
Qed.

Lemma records_execute_zip env cmd archive :
  kind (EvExecute cmd) = true → records kind (execute_zip env cmd archive).
Proof.
  intros Hev w. exists [EvExecute cmd]. rewrite execute_zip_any. simpl.
  rewrite Hev. by destruct (env_execute _ _ _).
Qed.

End Records.

(** The plain steps of a method. *)
Ltac records_step :=
  first
    [ apply records_ret
    | apply records_emit; reflexivity
    | apply records_outside; reflexivity
    | apply records_on_fs
    | apply records_attribute
    | apply records_build; reflexivity
    | apply records_execute_zip; reflexivity
    | apply records_pure; intros ?; reflexivity ].

Ltac records_all :=
  repeat first
    [ records_step
    | apply records_bind; [|intros ?]
    | match goal with
      | |- records _ (match ?x with _ => _ end) => destruct x
      end ].

Section RecordedKinds.

Variable env : Env.

(** X7: whatever its outcome, [package_code] records nothing but the
    build, the archiving command and log lines, so it reaches neither
    the registry nor the storage nor the cache, and it leaves the
    attributes of the instance as they are. *)
Theorem package_code_is_local cp w :
  (∃ t, trace (package_code env cp w).2 = trace w ++ t ∧
        forallb is_packaging t = true ∧
        List.filter is_registry t = [] ∧
        List.filter is_upload t = [] ∧
        List.filter is_cache_write t = []) ∧
  self (package_code env cp w).2 = self w.
Proof.
  split; [|apply (keeps_package_code env (fun g => g))].
  assert (records is_packaging (package_code env cp)) as Hrec.
  { unfold package_code, log_info, getcwd, chdir, lift, read_fs. records_all. }
  destruct (Hrec w) as (t & Ht & Hkind). exists t. split; [done|]. split; [done|].
  clear Ht. induction t as [|ev t IH]; [done|]. simpl in Hkind.
  apply andb_prop in Hkind as [Hev Hkind]. destruct (IH Hkind) as (H1 & H2 & H3).
  simpl. rewrite H1, H2, H3. by destruct ev.
Qed.

End RecordedKinds.

(** ** The uncached path in detail *)

Section UncachedRun.

Variable env : Env.

Lemma names_decision (res : gmap string json) full_func_name w b w' :
  match res !! "functions" with
  | None => ret false
  | Some functions =>
      names <- lift (names_of functions) ;; ret (str_in_values full_func_name names)
  end w = (Ok b, w') →
  listed_in res full_func_name = Ok b ∧ w' = w.
Proof.
  unfold listed_in. destruct (res !! "functions") as [functions|].
  - intros H. apply bind_ok in H; destruct H as (names & ? & [Hn ->]%lift_ok & H).
    injection H as <- <-. by rewrite Hn.
  - by intros [= <- <-].
Qed.

(** A completed uncached [get_function], answer by answer. *)
Lemma get_function_uncached_run cp w f w' :
  is_cached cp = false →
  get_function env cp w = (Ok f, w') →
  let func_name :=
    derive_func_name (benchmark cp) (language_name cp) (memory (benchmark_config cp)) in
  let parent :=
    parent_name (config_project_name (config (self w))) (region (config (self w))) in
  let full_func_name :=
    full_name (config_project_name (config (self w))) (region (config (self w)))
      func_name in
  ∃ package size w1 bucket idx res listed deployment res_get trigger invoke_url,
    package_code env cp (located_world w) = (Ok (package, size), w1) ∧
    env_add_input_bucket env (trace w1 ++ [EvAddInputBucket (benchmark cp)])
    = Ok (bucket, idx) ∧
    let listed_at :=
      trace w1 ++ staging_events cp func_name bucket package parent in
    env_registry env listed_at = Ok res ∧
    listed_in res full_func_name = Ok listed ∧
    (if listed then
       ∃ bucket' idx',
         env_add_input_bucket env (listed_at ++ [EvAddInputBucket (benchmark cp)])
         = Ok (bucket', idx') ∧
         deployment
         = update_events env full_func_name (Py.basename package) cp bucket'
     else
       deployment
       = [EvRegistry (ReqCreate parent
            (make_body full_func_name cp (timeout (benchmark_config cp))
               (memory (benchmark_config cp)) bucket (Py.basename package)))]) ∧
    let got := listed_at ++ deployment ++ [EvRegistry (ReqGet full_func_name)] in
    env_registry env got = Ok res_get ∧
    res_get !! "httpsTrigger" = Some trigger ∧
    json_index trigger "url" = Ok invoke_url ∧
    trace w' =
      got ++ [EvCacheAdd "gcp" (benchmark cp) (language_name cp) package
                (new_entry cp func_name size invoke_url)
                (env_storage_buckets env got).1 (env_storage_buckets env got).2].
Proof.
  intros Hc H. unfold get_function in H.
  apply bind_ok in H; destruct H as (cfg & ? & [= <- <-] & H).
  apply bind_ok in H; destruct H as (? & ? & [= <-] & H).
  apply bind_ok in H; destruct H as (? & ? & [= <-] & H).
  rewrite Hc in H. simpl in H. subst.
  apply bind_ok in H; destruct H as ([package size] & w1 & Hpackage & H).
  apply bind_ok in H; destruct H as (? & ? & [_ ->]%attribute_ok & H).
  apply bind_ok in H; destruct H as ([bucket idx] & ? & [Hbucket ->]%outside_ok & H).
  apply bind_ok in H; destruct H as (? & ? & [_ ->]%attribute_ok & H).
  apply bind_ok in H; destruct H as (? & ? & [_ ->]%outside_ok & H).
  apply bind_ok in H; destruct H as (? & ? & ->%emit_ok & H).
  apply bind_ok in H; destruct H as (? & ? & [_ ->]%attribute_ok & H).
  apply bind_ok in H; destruct H as (res & ? & [Hres ->]%outside_ok & H).
  apply bind_ok in H; destruct H as (listed & ? & [Hlisted ->]%names_decision & H).
  apply bind_ok in H; destruct H as (? & w2 & Hdeploy & H).
  apply bind_ok in H; destruct H as (? & ? & [_ ->]%attribute_ok & H).
  apply bind_ok in H; destruct H as (res_get & ? & [Hget ->]%outside_ok & H).
  apply bind_ok in H; destruct H as (trigger & ? & [Htrigger ->]%lift_ok & H).
  apply bind_ok in H; destruct H as (invoke_url & ? & [Hurl ->]%lift_ok & H).
  apply bind_ok in H; destruct H as (? & ? & [_ ->]%attribute_ok & H).
  apply bind_ok in H; destruct H as (past & ? & [= <- <-] & H).
  apply bind_ok in H; destruct H as (? & ? & [_ ->]%outside_ok & H).
  injection H as <- <-. simpl in *. rewrite <- !app_assoc in *. simpl in *.
  unfold dict_get in Htrigger.
  destruct (res_get !! "httpsTrigger") as [trigger'|] eqn:Htr; [|done].
  injection Htrigger as ->.
  destruct listed.
  - apply update_function_ok in Hdeploy as (bucket' & idx' & Hbucket' & ->); [|done].
    simpl in *. rewrite <- !app_assoc in *. simpl in *.
    eexists package, size, w1, bucket, idx, res, true, _, res_get, trigger, invoke_url.
    split; [exact Hpackage|]. split; [exact Hbucket|].
    split; [exact Hres|]. split; [exact Hlisted|].
    split.
    { exists bucket', idx'. split; [|reflexivity].
      unfold staging_events. rewrite <- app_assoc. exact Hbucket'. }
    simpl. rewrite <- !app_assoc. simpl.
    split; [exact Hget|]. split; [exact Htr|]. split; [exact Hurl|]. reflexivity.
  - apply bind_ok in Hdeploy; destruct Hdeploy as (? & ? & [_ ->]%attribute_ok & Hd).
    apply bind_ok in Hd; destruct Hd as (? & ? & [_ ->]%outside_ok & Hd).
    injection Hd as _ <-. simpl in *. rewrite <- !app_assoc in *. simpl in *.
    eexists package, size, w1, bucket, idx, res, false, _, res_get, trigger, invoke_url.
    split; [exact Hpackage|]. split; [exact Hbucket|].
    split; [exact Hres|]. split; [exact Hlisted|].
    split; [reflexivity|].
    simpl. rewrite <- !app_assoc. simpl.
    split; [exact Hget|]. split; [exact Htr|]. split; [exact Hurl|]. reflexivity.
Qed.

End UncachedRun.

Section ReconcilerProperties.

Variable env : Env.

(** X8: a completed uncached [get_function] stages the archive, then
    lists the registry, and lets the listing decide: when it names the
    function, one [patch] and no [create]; otherwise one [create] and
    no [patch], the created function being the derived one and its
    archive the object just staged. Nothing is staged after the
    listing. *)
Theorem get_function_creates_unless_listed cp w f w' :
  is_cached cp = false →
  get_function env cp w = (Ok f, w') →
  let parent :=
    parent_name (config_project_name (config (self w))) (region (config (self w))) in
  let full_func_name :=
    full_name (config_project_name (config (self w))) (region (config (self w)))
      (derive_func_name (benchmark cp) (language_name cp)
         (memory (benchmark_config cp))) in
  ∃ before after res listed location,
    trace w' = trace w ++ before ++ EvRegistry (ReqList parent) :: after ∧
    List.filter is_registry before = [] ∧
    staged_archives before = [location] ∧
    staged_archives after = [] ∧
    env_registry env (trace w ++ before ++ [EvRegistry (ReqList parent)]) = Ok res ∧
    listed_in res full_func_name = Ok listed ∧
    if listed then
      List.filter is_create after = [] ∧ length (List.filter is_patch after) = 1%nat
    else
      List.filter is_patch after = [] ∧
      ∃ body,
        List.filter is_create after = [EvRegistry (ReqCreate parent body)] ∧
        body_name body = full_func_name ∧
        body_sourceArchiveUrl body = location.
Proof.
  intros Hc H parent full_func_name.
  apply get_function_uncached_run in H
    as (package & size & w1 & bucket & idx & res & listed & deployment & res_get
        & trigger & url & Hpackage & _ & Hres & Hlisted & Hdeploy & _ & _ & _ & Htrace);
    [|done].
  apply package_code_ok in Hpackage as (run & _ & _ & ->). simpl in *.
  fold parent full_func_name in Hres, Hlisted, Hdeploy, Htrace.
  exists (packaging_events env cp (run_directory run) (run_size run)
          ++ [EvAddInputBucket (benchmark cp);
              EvUpload bucket (Py.basename package) package;
              EvLogInfo ("Uploading function "
                         +:+ derive_func_name (benchmark cp) (language_name cp)
                               (memory (benchmark_config cp))
                         +:+ " code to " +:+ bucket)]).
  eexists _, res, listed, _.
  split.
  { rewrite Htrace. unfold staging_events. rewrite <- !app_assoc. simpl. reflexivity. }
  split; [done|]. split; [reflexivity|].
  destruct listed.
  - destruct Hdeploy as (bucket' & idx' & _ & ->). simpl.
    split; [done|]. split; [|split; [done|]].
    + rewrite <- Hres. f_equal. unfold staging_events. by rewrite <- !app_assoc.
    + done.
  - subst deployment. simpl.
    split; [done|]. split; [|split; [done|]].
    + rewrite <- Hres. f_equal. unfold staging_events. by rewrite <- !app_assoc.
    + split; [done|]. by eexists.
Qed.

(** X9: the last thing a completed uncached [get_function] does is to
    add the cache entry, once: it holds the derived name, the byte size
    of the archive, the language version as runtime, the memory, the
    timeout and the hash of the benchmark, and as url the [url] of the
    [httpsTrigger] the registry returned for the function. *)
Theorem get_function_records_new_entry cp w f w' :
  is_cached cp = false →
  get_function env cp w = (Ok f, w') →
  let func_name :=
    derive_func_name (benchmark cp) (language_name cp) (memory (benchmark_config cp)) in
  let full_func_name :=
    full_name (config_project_name (config (self w))) (region (config (self w)))
      func_name in
  ∃ earlier package size w1 entry res_get trigger invoke_url,
    package_code env cp (located_world w) = (Ok (package, size), w1) ∧
    trace w' = trace w ++ earlier
               ++ [EvCacheAdd "gcp" (benchmark cp) (language_name cp) package entry
                     (env_storage_buckets env (trace w ++ earlier)).1
                     (env_storage_buckets env (trace w ++ earlier)).2] ∧
    List.filter is_cache_write earlier = [] ∧
    last earlier = Some (EvRegistry (ReqGet full_func_name)) ∧
    env_registry env (trace w ++ earlier) = Ok res_get ∧
    res_get !! "httpsTrigger" = Some trigger ∧
    json_index trigger "url" = Ok invoke_url ∧
    entry !! "name" = Some (JStr func_name) ∧
    entry !! "code_size" = Some (JInt size) ∧
    entry !! "runtime" = Some (JStr (language_version cp)) ∧
    entry !! "memory" = Some (JInt (memory (benchmark_config cp))) ∧
    entry !! "timeout" = Some (JInt (timeout (benchmark_config cp))) ∧
    entry !! "hash" = Some (JStr (hash cp)) ∧
    entry !! "url" = Some invoke_url ∧
    function_name f = JStr func_name.
Proof.
  intros Hc H func_name full_func_name.
  pose proof H as Hf.
  apply get_function_uncached_ok in Hf as (? & ? & ? & ? & ? & ? & _ & -> & _); [|done].
  apply get_function_uncached_run in H
    as (package & size & w1 & bucket & idx & res & listed & deployment & res_get
        & trigger & url & Hpackage & _ & _ & _ & Hdeploy & Hget & Htrigger & Hurl
        & Htrace);
    [|done].
  pose proof Hpackage as (run & _ & _ & Hw1)%package_code_ok.
  assert (trace w1 = trace w ++ packaging_events env cp (run_directory run)
                                  (run_size run)) as Htw1 by (by rewrite Hw1).
  fold func_name full_func_name in Hdeploy, Hget, Htrace.
  rewrite Htw1 in Hget, Htrace. rewrite <- !app_assoc in Hget, Htrace.
  set (parent := parent_name (config_project_name (config (self w)))
                   (region (config (self w)))) in *.
  exists (packaging_events env cp (run_directory run) (run_size run)
          ++ staging_events cp func_name bucket package parent
          ++ deployment ++ [EvRegistry (ReqGet full_func_name)]).
  exists package, size, w1, (new_entry cp func_name size url), res_get, trigger, url.
  split; [exact Hpackage|].
  split; [rewrite Htrace; by rewrite <- ?app_assoc|].
  split.
  { rewrite !List.filter_app. simpl.
    destruct listed; [destruct Hdeploy as (? & ? & _ & ->)|subst deployment]; done. }
  split.
  { rewrite !app_assoc. apply last_snoc. }
  split; [exact Hget|]. split; [exact Htrigger|]. split; [exact Hurl|].
  unfold new_entry.
  repeat (split; [by rewrite ?lookup_insert_eq, ?lookup_insert_ne by done|]).
  reflexivity.
Qed.

(** X10: a cache entry without a name stops [get_function] at once,
    whether the entry is valid or stale: it raises the key error and
    has neither packaged nor contacted anything. *)
Theorem get_function_nameless_entry cp w :
  is_cached cp = true →
  cached_config cp !! "name" = None →
  get_function env cp w = (Raise (KeyError "name"), located_world w).
Proof.
  intros Hc Hname. unfold get_function.
  rewrite (bind_run read_config _ w (config (self w)) w eq_refl).
  rewrite (bind_run (update_self _) _ w tt _ eq_refl).
  rewrite (bind_run (update_self _) _ _ tt _ eq_refl).
  rewrite Hc. simpl.
  destruct (is_cached_valid cp);
    (erewrite bind_fail; [reflexivity|]; unfold lift, dict_get; by rewrite Hname).
Qed.

(** X11: on an instance whose storage was never set, [get_function] on
    a benchmark without a valid cache entry packages the code first and
    only then raises the attribute error: the build directory is left
    packaged while nothing was staged, listed, patched or cached. *)
Theorem get_function_packages_before_storage cp w p w1 :
  is_cached_valid cp = false →
  (is_cached cp = true → is_Some (cached_config cp !! "name")) →
  storage (self w) = None →
  package_code env cp (located_world w) = (Ok p, w1) →
  get_function env cp w = (Raise (AttributeError "storage"), w1) ∧
  ∃ directory size,
    trace w1 = trace w ++ packaging_events env cp directory size ∧
    fs w1 !! archive_name cp ≠ None.
Proof.
  intros Hv Hname Hstorage Hpackage.
  assert (storage (self w1) = None) as Hs1.
  { pose proof (keeps_package_code env storage cp (located_world w)) as Hk.
    rewrite Hpackage in Hk. simpl in Hk. by rewrite Hk. }
  split.
  - unfold get_function.
    rewrite (bind_run read_config _ w (config (self w)) w eq_refl).
    rewrite (bind_run (update_self _) _ w tt _ eq_refl).
    rewrite (bind_run (update_self _) _ _ tt _ eq_refl).
    rewrite Hv, andb_false_r.
    destruct (is_cached cp) eqn:Hc.
    + destruct Hname as [name Hn]; [done|].
      erewrite bind_run by (unfold lift, dict_get; rewrite Hn; reflexivity).
      erewrite bind_run by exact Hpackage.
      erewrite bind_fail; [reflexivity|].
      unfold update_function. erewrite bind_fail; [reflexivity|].
      unfold attribute. by rewrite Hs1.
    + erewrite bind_run by exact Hpackage.
      erewrite bind_fail; [reflexivity|].
      unfold attribute. by rewrite Hs1.
  - pose proof Hpackage as (run & Hrun & _ & ->)%package_code_ok.
    exists (run_directory run), (run_size run). split; [done|]. simpl.
    destruct (completed_states env cp _ run Hrun)
      as (handler & (_ & _ & _ & Hao & Han & _) & _ & _ & Hfinal).
    rewrite Hfinal.
    by rewrite lookup_insert_ne, lookup_delete_ne, lookup_insert_eq.
Qed.

(** X12: [update_function] never stages, creates or writes the cache,
    whatever its outcome, and issues at most one [patch]; without a
    storage it raises at once; when the bucket allocation raises, the
    exception is propagated and no [patch] is issued. *)
Theorem update_function_only_patches b full_func_name code_package_name cp t m w :
  let r := update_function env b full_func_name code_package_name cp t m w in
  (∃ events,
     trace r.2 = trace w ++ events ∧
     forallb is_update events = true ∧
     (length (List.filter is_patch events) ≤ 1)%nat ∧
     List.filter is_create events = [] ∧
     List.filter is_upload events = [] ∧
     List.filter is_cache_write events = []) ∧
  (storage (self w) = None → r = (Raise (AttributeError "storage"), w)) ∧
  (∀ e, is_Some (storage (self w)) →
        env_add_input_bucket env (trace w ++ [EvAddInputBucket b]) = Raise e →
        r = (Raise e, set_trace (trace w ++ [EvAddInputBucket b]) w)).
Proof.
  intros r. unfold r, update_function, registry, log_info, outside, emit, attribute,
    bind, ret. simpl.
  split; [|split].
  - destruct (storage (self w)); simpl.
    2: { exists []. rewrite app_nil_r. repeat split; simpl; lia || done. }
    destruct (env_add_input_bucket _ _) as [[bucket idx]| |]; simpl.
    2,3: (exists [EvAddInputBucket b]; repeat split; simpl; lia || done).
    destruct (function_client (self w)); simpl.
    2: (exists [EvAddInputBucket b]; repeat split; simpl; lia || done).
    destruct (env_registry _ _); simpl.
    + eexists [_; _; _]. rewrite <- !app_assoc. simpl.
      repeat split; simpl; lia || done.
    + eexists [_; _]. rewrite <- !app_assoc. simpl.
      repeat split; simpl; lia || done.
    + eexists [_; _]. rewrite <- !app_assoc. simpl.
      repeat split; simpl; lia || done.
  - by intros ->.
  - intros e [st ->] ->. done.
Qed.

(** X13: a completed [get_function] on a stale entry patches the
    function named in the cache entry (not a name derived anew), with
    the memory and the timeout of the benchmark as it is now, the
    runtime made of the language and its version without dots, and the
    archive [package_code] has just written, in the bucket the storage
    answered; the handle it returns carries the cached name. *)
Theorem get_function_patches_cached_name cp w f w' :
  is_cached cp = true → is_cached_valid cp = false →
  get_function env cp w = (Ok f, w') →
  ∃ t name package size w1 bucket idx body,
    cached_config cp !! "name" = Some name ∧
    function_name f = name ∧
    package_code env cp (located_world w) = (Ok (package, size), w1) ∧
    env_add_input_bucket env (trace w1 ++ [EvAddInputBucket (benchmark cp)])
    = Ok (bucket, idx) ∧
    trace w' = trace w ++ t ∧
    List.filter is_registry t
    = [EvRegistry
         (ReqPatch (full_name (config_project_name (config (self w)))
                      (region (config (self w))) (format_json env name)) body)] ∧
    body_name body
    = full_name (config_project_name (config (self w))) (region (config (self w)))
        (format_json env name) ∧
    body_entryPoint body = "handler" ∧
    body_runtime body
    = language_name cp +:+ Py.replace "." EmptyString (language_version cp) ∧
    body_availableMemoryMb body = memory (benchmark_config cp) ∧
    body_timeout body = Py.str_int (timeout (benchmark_config cp)) +:+ "s" ∧
    body_sourceArchiveUrl body = "gs://" +:+ bucket +:+ "/" +:+ Py.basename package.
Proof.
  intros Hc Hv H. unfold get_function in H.
  apply bind_ok in H; destruct H as (cfg & ? & [= <- <-] & H).
  apply bind_ok in H; destruct H as (? & ? & [= <-] & H).
  apply bind_ok in H; destruct H as (? & ? & [= <-] & H).
  rewrite Hc, Hv in H. simpl in H. subst.
  apply bind_ok in H; destruct H as (name & ? & [Hname ->]%lift_ok & H).
  apply bind_ok in H; destruct H as ([package size] & w1 & Hpackage & H).
  apply bind_ok in H; destruct H as (? & w2 & Hupdate & H).
  apply bind_ok in H; destruct H as (code_size & ? & [_ ->]%outside_ok & H).
  apply bind_ok in H; destruct H as (? & ? & [_ ->]%outside_ok & H).
  apply bind_ok in H; destruct H as (? & ? & ->%emit_ok & H).
  injection H as <- <-.
  unfold update_function in Hupdate.
  apply bind_ok in Hupdate; destruct Hupdate as (? & ? & [_ ->]%attribute_ok & Hu).
  apply bind_ok in Hu; destruct Hu as ([bucket idx] & ? & [Hbucket ->]%outside_ok & Hu).
  apply bind_ok in Hu; destruct Hu as (? & ? & [_ ->]%attribute_ok & Hu).
  apply bind_ok in Hu; destruct Hu as (? & ? & [_ ->]%outside_ok & Hu).
  apply bind_ok in Hu; destruct Hu as (? & ? & ->%emit_ok & Hu).
  injection Hu as _ <-.
  pose proof Hpackage as (run & _ & _ & Hw1)%package_code_ok.
  assert (trace w1 = trace w ++ packaging_events env cp (run_directory run)
                                  (run_size run)) as Htw1 by (by rewrite Hw1).
  unfold dict_get in Hname. destruct (cached_config cp !! "name") as [name'|]; [|done].
  injection Hname as ->.
  eexists _, name, package, size, w1, bucket, idx, _.
  split; [done|]. split; [done|]. split; [exact Hpackage|]. split; [exact Hbucket|].
  split.
  { simpl. rewrite Htw1, <- !app_assoc. reflexivity. }
  split.
  { rewrite !List.filter_app. simpl. reflexivity. }
  done.
Qed.

End ReconcilerProperties.

(** ** Failures of the invocation poller *)

Section PollerFailures.

Variable env : Env.

Implicit Types (w : World) (full : string).

(** While the function is found pending, the loop goes round. *)
Lemma wait_reaches N : ∀ fuel full w,
  (∀ k, (k < N)%nat → reports_pending env (trace w ++ polls full k) full) →
  wait_until_deployed env (N + fuel) full w
  = wait_until_deployed env fuel full (set_trace (trace w ++ polls full N) w).
Proof.
  induction N as [|N IH]; intros fuel full w Hpending.
  - simpl. by rewrite app_nil_r, set_trace_same.
  - change (S N + fuel)%nat with (S (N + fuel)). rewrite wait_pending.
    2: { specialize (Hpending 0%nat). simpl in Hpending.
         rewrite app_nil_r in Hpending. apply Hpending. lia. }
    rewrite IH; simpl; [by rewrite <- !app_assoc|].
    intros k Hk. rewrite <- app_assoc. apply (Hpending (S k)). lia.
Qed.

(** A round whose [get] is not answered with a status. *)
Lemma wait_round_fails fuel full w e :
  match env_registry env (trace w ++ [EvRegistry (ReqGet full)]) with
  | Ok res => res !! "status" = None ∧ e = KeyError "status"
  | Raise e' => e = e'
  | OutOfFuel => False
  end →
  wait_until_deployed env (S fuel) full w
  = (Raise e, set_trace (trace w ++ [EvRegistry (ReqGet full)]) w).
Proof.
  simpl. unfold bind, registry, outside, emit, lift, dict_get, bind. simpl.
  destruct (env_registry _ _) as [res| |]; [|by intros ->|done].
  by intros [-> ->].
Qed.

(** X14: when, after [N] polls that found the function pending, the
    registry fails to answer a poll, or answers without a status,
    [invoke_sync] raises the exception of the registry, or the key
    error of the status, and stops there: the function is not called
    and nothing is logged. *)
Theorem invoke_sync_poll_failure w p l f N fuel name payload :
  established (self w) p l f →
  let full := full_name p l f in
  let asked := trace w ++ polls full N ++ [EvRegistry (ReqGet full)] in
  (∀ k, (k < N)%nat → reports_pending env (trace w ++ polls full k) full) →
  (N < fuel)%nat →
  (∀ e, env_registry env asked = Raise e →
        invoke_sync env fuel name payload w = (Raise e, set_trace asked w)) ∧
  (∀ res, env_registry env asked = Ok res → res !! "status" = None →
          invoke_sync env fuel name payload w
          = (Raise (KeyError "status"), set_trace asked w)) ∧
  List.filter is_call (polls full N ++ [EvRegistry (ReqGet full)]) = [] ∧
  List.filter is_log (polls full N ++ [EvRegistry (ReqGet full)]) = [].
Proof.
  intros Hattrs full asked Hpending Hfuel.
  assert (∀ e,
            match env_registry env asked with
            | Ok res => res !! "status" = None ∧ e = KeyError "status"
            | Raise e' => e = e'
            | OutOfFuel => False
            end →
            invoke_sync env fuel name payload w = (Raise e, set_trace asked w))
    as Hfail.
  { intros e He.
    rewrite (invoke_sync_wait_fails env fuel name payload w p l f (Raise e)
               (set_trace asked w)); [done..| |done].
    replace fuel with (N + S (fuel - S N))%nat by lia.
    fold full. rewrite wait_reaches by done.
    rewrite (wait_round_fails _ _ _ e); simpl.
    - unfold asked. by rewrite <- app_assoc.
    - unfold asked in He. by rewrite <- app_assoc. }
  split; [|split; [|split]].
  - intros e He. apply Hfail. by rewrite He.
  - intros res Hres Hst. apply Hfail. by rewrite Hres.
  - rewrite List.filter_app. by destruct (count_gets_polls full N) as (_ & _ & ->).
  - rewrite List.filter_app. simpl. rewrite app_nil_r.
    clear. induction N as [|N IH]; [done|]. simpl. exact IH.
Qed.

(** X15: an exception of the registry on the call itself is propagated
    as it is: [invoke_sync] does not log an invocation failure for it,
    does not call again and reads no result. *)
Theorem invoke_sync_call_exception w p l f fuel name payload w1 e :
  established (self w) p l f →
  let full := full_name p l f in
  let called := trace w1 ++ [EvRegistry (ReqCall full (json_dumps env payload))] in
  wait_until_deployed env fuel full w = (Ok tt, w1) →
  env_registry env called = Raise e →
  invoke_sync env fuel name payload w = (Raise e, set_trace called w1) ∧
  ∃ t, trace w1 = trace w ++ t ∧
       List.filter is_call t = [] ∧ List.filter is_log t = [].
Proof.
  intros Hattrs full called Hwait He.
  rewrite (invoke_sync_after_wait env fuel name payload w p l f _ Hattrs Hwait).
  simpl. fold full called. rewrite He. split; [done|].
  destruct (wait_events env fuel full w) as (t & Ht & _ & Hcalls & Hlogs & _).
  rewrite Hwait in Ht. simpl in Ht. by exists t.
Qed.

Lemma records_wait_until_deployed fuel full :
  records is_invocation (wait_until_deployed env fuel full).
Proof.
  induction fuel as [|fuel IH]; simpl; [records_step|].
  unfold registry, lift. records_all. exact IH.
Qed.

(** X16: whatever the state of the instance and whatever its outcome,
    [invoke_sync] records only polls, calls, sleeps and error log
    lines: it never lists, creates or patches a function, never builds
    or archives, and touches neither the storage nor the cache. *)
Theorem invoke_sync_only_polls_and_calls fuel name payload w :
  ∃ t, trace (invoke_sync env fuel name payload w).2 = trace w ++ t ∧
       forallb is_invocation t = true ∧
       List.filter is_create t = [] ∧
       List.filter is_patch t = [] ∧
       List.filter is_upload t = [] ∧
       List.filter is_cache_write t = [] ∧
       List.filter is_packaging t = [].
Proof.
  assert (records is_invocation (invoke_sync env fuel name payload)) as Hrec.
  { unfold invoke_sync, registry, log_error, now, lift, raise.
    records_all; apply records_wait_until_deployed. }
  destruct (Hrec w) as (t & Ht & Hkind). exists t. split; [done|]. split; [done|].
  clear Ht. induction t as [|ev t IH]; [done|]. simpl in Hkind.
  apply andb_prop in Hkind as [Hev Hkind].
  destruct (IH Hkind) as (H1 & H2 & H3 & H4 & H5).
  simpl. rewrite H1, H2, H3, H4, H5. destruct ev as [| | | | | | | | | |[]| | | | |]; done.
Qed.

End PollerFailures.

(** ** Failures and empty answers of the metrics collector *)

Section MetricsFailures.

Variable float : Type.
Variable list_time_series :
  list Metrics.query → result (list (Metrics.time_series float)).

Implicit Types (requests : gmap string (gmap string (list (Metrics.sample float)))).

Lemma collect_without_samples function_name metric key results requests :
  Metrics.matching_samples float function_name key results = [] →
  Metrics.collect float function_name metric key results requests = (requests, Ok tt).
Proof.
  induction results as [|series results IH]; [done|]. simpl.
  unfold Metrics.matching_samples in *. simpl.
  destruct (Metrics.labelled float function_name series).
  - intros [Hpts Hrest]%app_eq_nil. apply map_eq_nil in Hpts. rewrite Hpts. simpl.
    by apply IH.
  - apply IH.
Qed.

Lemma collect_key_error function_name metric key results requests missing :
  match requests !! function_name with
  | None => missing = function_name
  | Some buckets => buckets !! metric = None ∧ missing = metric
  end →
  Metrics.matching_samples float function_name key results ≠ [] →
  Metrics.collect float function_name metric key results requests
  = (requests, Raise (KeyError missing)).
Proof.
  intros Hmissing. induction results as [|series results IH]; [done|]. simpl.
  unfold Metrics.matching_samples in *. simpl.
  destruct (Metrics.labelled float function_name series); [|apply IH].
  destruct (Metrics.points series) as [|p pts]; simpl; [apply IH|].
  intros _. unfold Metrics.append_sample.
  destruct (requests !! function_name) as [buckets|]; [|by subst].
  destruct Hmissing as [-> ->]. done.
Qed.

(** X17: when no point of either answer belongs to a series labelled
    with the function, a call leaves the accumulator as it is and
    succeeds after its two queries, even if the accumulator has no
    entry for the function. *)
Theorem download_metrics_without_samples cfg function_name start_time end_time
    requests results1 results2 :
  let q1 :=
    Metrics.widened_query cfg Metrics.execution_times_filter start_time end_time in
  let q2 :=
    Metrics.widened_query cfg Metrics.user_memory_bytes_filter start_time end_time in
  list_time_series [q1] = Ok results1 →
  list_time_series [q1; q2] = Ok results2 →
  Metrics.matching_samples float function_name "mean_time" results1 = [] →
  Metrics.matching_samples float function_name "mean_memory" results2 = [] →
  Metrics.download_metrics float list_time_series cfg function_name
    start_time end_time requests
  = {| Metrics.out_requests := requests; Metrics.out_queries := [q1; q2];
       Metrics.out_result := Ok tt |}.
Proof.
  intros q1 q2 H1 H2 Hs1 Hs2. unfold Metrics.download_metrics.
  unfold Metrics.widened_query in q1, q2. fold q1 q2. rewrite H1.
  rewrite (collect_without_samples _ _ _ _ _ Hs1), H2.
  by rewrite (collect_without_samples _ _ _ _ _ Hs2).
Qed.

(** X18: when the accumulator has no entry for the function and the
    first answer has a point for it, the call raises the key error of
    the function name, leaves the accumulator as it is and does not
    make the second query. *)
Theorem download_metrics_unknown_function cfg function_name start_time end_time
    requests results1 :
  let q1 :=
    Metrics.widened_query cfg Metrics.execution_times_filter start_time end_time in
  requests !! function_name = None →
  list_time_series [q1] = Ok results1 →
  Metrics.matching_samples float function_name "mean_time" results1 ≠ [] →
  Metrics.download_metrics float list_time_series cfg function_name
    start_time end_time requests
  = {| Metrics.out_requests := requests; Metrics.out_queries := [q1];
       Metrics.out_result := Raise (KeyError function_name) |}.
Proof.
  intros q1 Hnone H1 Hs1. unfold Metrics.download_metrics.
  unfold Metrics.widened_query in q1. fold q1. rewrite H1.
  rewrite (collect_key_error _ _ _ _ _ function_name); [done| |done].
  by rewrite Hnone.
Qed.

(** X19: a call is not atomic: when the entry of the function has its
    list of execution times but no list of memory samples, and the
    second answer has a point for the function, the call raises the key
    error of the missing list after it has appended the execution
    times. *)
Theorem download_metrics_partial_update cfg function_name start_time end_time
    requests buckets times results1 results2 :
  let q1 :=
    Metrics.widened_query cfg Metrics.execution_times_filter start_time end_time in
  let q2 :=
    Metrics.widened_query cfg Metrics.user_memory_bytes_filter start_time end_time in
  requests !! function_name = Some buckets →
  buckets !! "execution_times" = Some times →
  buckets !! "user_memory_bytes" = None →
  list_time_series [q1] = Ok results1 →
  list_time_series [q1; q2] = Ok results2 →
  Metrics.matching_samples float function_name "mean_memory" results2 ≠ [] →
  Metrics.download_metrics float list_time_series cfg function_name
    start_time end_time requests
  = {| Metrics.out_requests :=
         <[function_name :=
             <["execution_times" :=
                 times ++ Metrics.matching_samples float function_name "mean_time"
                            results1]> buckets]> requests;
       Metrics.out_queries := [q1; q2];
       Metrics.out_result := Raise (KeyError "user_memory_bytes") |}.
Proof.
  intros q1 q2 Hb Ht Hm H1 H2 Hs2. unfold Metrics.download_metrics.
  unfold Metrics.widened_query in q1, q2. fold q1 q2. rewrite H1.
  rewrite (collect_ok _ _ _ _ _ _ _ _ Hb Ht), H2.
  rewrite (collect_key_error _ _ _ _ _ "user_memory_bytes"); [done| |done].
  rewrite lookup_insert_eq. split; [|done]. by rewrite lookup_insert_ne.
Qed.

(** X20: an exception of the telemetry backend is propagated: on the
    first query the accumulator is as it was; on the second query the
    execution times of the first answer have already been appended. *)
Theorem download_metrics_backend_exception cfg function_name start_time end_time
    requests e :
  let q1 :=
    Metrics.widened_query cfg Metrics.execution_times_filter start_time end_time in
  let q2 :=
    Metrics.widened_query cfg Metrics.user_memory_bytes_filter start_time end_time in
  let out :=
    Metrics.download_metrics float list_time_series cfg function_name
      start_time end_time requests in
  (list_time_series [q1] = Raise e →
   out = {| Metrics.out_requests := requests; Metrics.out_queries := [q1];
            Metrics.out_result := Raise e |}) ∧
  (∀ buckets times results1,
     requests !! function_name = Some buckets →
     buckets !! "execution_times" = Some times →
     list_time_series [q1] = Ok results1 →
     list_time_series [q1; q2] = Raise e →
     out = {| Metrics.out_requests :=
                <[function_name :=
                    <["execution_times" :=
                        times ++ Metrics.matching_samples float function_name
                                   "mean_time" results1]> buckets]> requests;
              Metrics.out_queries := [q1; q2];
              Metrics.out_result := Raise e |}).
Proof.
  intros q1 q2 out. unfold out, Metrics.download_metrics.
  unfold Metrics.widened_query in q1, q2. fold q1 q2. split.
  - by intros ->.
  - intros buckets times results1 Hb Ht H1 H2. rewrite H1.
    by rewrite (collect_ok _ _ _ _ _ _ _ _ Hb Ht), H2.
Qed.

End MetricsFailures.

(** ** The derived name, the listing and the initialisation *)

Section Naming.

Implicit Types (s : string) (c d : ascii).

Lemma append_assoc s1 s2 s3 : (s1 +:+ s2) +:+ s3 = s1 +:+ s2 +:+ s3.
Proof.
  induction s1 as [|a s1 IH]; [done|].
  change (String a ((s1 +:+ s2) +:+ s3) = String a (s1 +:+ s2 +:+ s3)).
  by rewrite IH.
Qed.

Lemma replace_single_app c d s1 s2 :
  Py.replace (String c EmptyString) (String d EmptyString) (s1 +:+ s2)
  = Py.replace (String c EmptyString) (String d EmptyString) s1
    +:+ Py.replace (String c EmptyString) (String d EmptyString) s2.
Proof.
  induction s1 as [|a s1 IH]; [done|].
  change (String a s1 +:+ s2) with (String a (s1 +:+ s2)).
  rewrite !replace_single_cons, IH. done.
Qed.

Lemma replace_single_absent c d s :
  Py.contains (String c EmptyString) s = false →
  Py.replace (String c EmptyString) (String d EmptyString) s = s.
Proof.
  induction s as [|a s IH]; [done|].
  rewrite contains_single_cons, replace_single_cons.
  intros [Hca Hs]%orb_false_elim. by rewrite Hca, IH.
Qed.

Lemma normalise_app s1 s2 : normalise (s1 +:+ s2) = normalise s1 +:+ normalise s2.
Proof.
  unfold normalise.
  by rewrite (replace_single_app "-" "_"), (replace_single_app "." "_").
Qed.

Lemma derive_func_name_parts b l m :
  derive_func_name b l m
  = "foo_" +:+ normalise b +:+ "_" +:+ normalise l +:+ "_"
    +:+ normalise (Py.str_int m).
Proof.
  unfold derive_func_name. fold (normalise ("foo_" +:+ b +:+ "-" +:+ l +:+ "-"
                                            +:+ Py.str_int m)).
  by rewrite !normalise_app.
Qed.

End Naming.

(** X21: the derived name is [foo_], then the benchmark name, the
    language and the memory in decimal, each with its hyphens and dots
    turned into underscores, joined by underscores; a part without hyphen
    or dot is kept as it is. The separators are normalised with the
    parts, so names collide: parts that differ only by hyphen, dot or
    underscore give the same name, and so do a benchmark [x-y] in
    language [l] and a benchmark [x] in language [y-l]. *)
Theorem derive_func_name_normalises b l m :
  derive_func_name b l m
  = "foo_" +:+ normalise b +:+ "_" +:+ normalise l +:+ "_" +:+ normalise (Py.str_int m) ∧
  (Py.contains "-" b = false → Py.contains "." b = false → normalise b = b) ∧
  (∀ b', normalise b' = normalise b → derive_func_name b' l m = derive_func_name b l m) ∧
  (∀ x y, b = x +:+ "-" +:+ y →
          derive_func_name b l m = derive_func_name x (y +:+ "-" +:+ l) m).
Proof.
  split; [apply derive_func_name_parts|]. split; [|split].
  - intros Hh Hd. unfold normalise.
    rewrite (replace_single_absent "-" "_" b Hh).
    by apply (replace_single_absent "." "_").
  - intros b' Hb. by rewrite !derive_func_name_parts, Hb.
  - intros x y ->. rewrite !derive_func_name_parts, !normalise_app.
    by rewrite !append_assoc.
Qed.

Lemma derive_func_name_normalises_witness :
  derive_func_name "dynamic-html" "python" 256 = "foo_dynamic_html_python_256" ∧
  derive_func_name "dynamic.html" "python" 256
  = derive_func_name "dynamic-html" "python" 256 ∧
  derive_func_name "dynamic-html" "python" 256
  = derive_func_name "dynamic" "html-python" 256.
Proof.
  destruct (derive_func_name_normalises "dynamic-html" "python" 256)
    as (Hparts & _ & Hsame & Hsplit).
  split; [by rewrite Hparts|]. split.
  - by apply Hsame.
  - by apply (Hsplit "dynamic" "html").
Defined.

Section Listing.

(** The listed functions that are dictionaries with a name. *)
Lemma names_of_list_named l :
  Forall (fun v => ∃ o n, v = JObj o ∧ o !! "name" = Some n) l →
  ∃ names, names_of_list l = Ok names ∧ length names = length l.
Proof.
  induction 1 as [|v l (o & n & -> & Hn) _ (names & IH & Hlen)]; [by exists []|].
  exists (n :: names). simpl. unfold dict_get. rewrite Hn, IH. simpl. by rewrite Hlen.
Qed.

Lemma names_of_list_nameless l1 o l2 :
  Forall (fun v => ∃ o n, v = JObj o ∧ o !! "name" = Some n) l1 →
  o !! "name" = None →
  names_of_list (l1 ++ JObj o :: l2) = Raise (KeyError "name").
Proof.
  intros Hl1 Ho. induction Hl1 as [|v l (o' & n & -> & Hn) _ IH]; simpl.
  - unfold dict_get. by rewrite Ho.
  - unfold dict_get. by rewrite Hn, IH.
Qed.

(** X22: the test whether the registry already lists the function looks
    at the name of every listed function before it compares: without a
    [functions] field the function counts as not listed; with a list of
    named functions the answer is whether one of the names is the full
    name; one listed function without a name makes the test raise the
    key error, wherever it stands in the list and whether or not the
    function looked for is listed too. *)
Theorem listing_test_reads_every_name (res : gmap string json) full_func_name :
  (res !! "functions" = None → listed_in res full_func_name = Ok false) ∧
  (∀ l, res !! "functions" = Some (JList l) →
        Forall (fun v => ∃ o n, v = JObj o ∧ o !! "name" = Some n) l →
        ∃ names,
          names_of_list l = Ok names ∧ length names = length l ∧
          listed_in res full_func_name = Ok (str_in_values full_func_name names)) ∧
  (∀ l1 o l2, res !! "functions" = Some (JList (l1 ++ JObj o :: l2)) →
              Forall (fun v => ∃ o n, v = JObj o ∧ o !! "name" = Some n) l1 →
              o !! "name" = None →
              listed_in res full_func_name = Raise (KeyError "name")).
Proof.
  unfold listed_in. split; [by intros ->|]. split.
  - intros l -> (names & Hnames & Hlen)%names_of_list_named.
    exists names. simpl. by rewrite Hnames.
  - intros l1 o l2 -> Hl1 Ho. simpl. by rewrite names_of_list_nameless.
Qed.

End Listing.

Section Initialisation.

Variable env : Env.

(** X23: [initialize] sets the registry client, then a storage that
    does not replace existing data, and allocates no bucket; the other
    attributes stay. It is not atomic: when making the client raises
    nothing is set, and when making the storage raises the client is
    already set while the storage is as it was. A client is available
    from [get_function_client] after a completed [initialize]. *)
Theorem initialize_sets_client_then_storage w :
  let started := trace w ++ [EvDiscoveryBuild] in
  let stored := started ++ [EvNewStorage false] in
  (∀ e, env_unit env started = Raise e →
        initialize env w = (Raise e, set_trace started w)) ∧
  (∀ e, env_unit env started = Ok tt → env_unit env stored = Raise e →
        ∃ w', initialize env w = (Raise e, w') ∧ trace w' = stored ∧
              function_client (self w') = Some CloudFunctionsV1 ∧
              storage (self w') = storage (self w)) ∧
  (env_unit env started = Ok tt → env_unit env stored = Ok tt →
   ∃ w', initialize env w = (Ok tt, w') ∧ trace w' = stored ∧
         function_client (self w') = Some CloudFunctionsV1 ∧
         storage (self w') = Some {| replace_existing := false |} ∧
         location (self w') = location (self w) ∧
         project_name (self w') = project_name (self w) ∧
         func_name (self w') = func_name (self w) ∧
         get_function_client w' = (Ok CloudFunctionsV1, w')).
Proof.
  intros started stored.
  unfold initialize, get_storage, get_function_client, outside, emit, update_self,
    attribute, bind, ret. simpl. fold started.
  split; [by intros e ->|]. split.
  - intros e -> Hs. simpl. fold stored. rewrite Hs. by eexists.
  - intros -> Hs. simpl. fold stored. rewrite Hs. by eexists.
Qed.

(** X24: [prepare_experiment] needs the storage: on an instance whose
    storage was not made it raises the attribute error and asks
    nothing; after a completed [initialize] it asks the storage once for
    the output bucket of the benchmark with the suffix [logs] and gives
    back its answer, raising what the storage raises. *)
Theorem prepare_experiment_after_initialize benchmark w :
  (storage (self w) = None →
   prepare_experiment env benchmark w = (Raise (AttributeError "storage"), w)) ∧
  (∀ w1, initialize env w = (Ok tt, w1) →
         let asked := trace w1 ++ [EvAddOutputBucket benchmark "logs"] in
         prepare_experiment env benchmark w1
         = (env_add_output_bucket env asked, set_trace asked w1)).
Proof.
  unfold prepare_experiment, initialize, get_storage, outside, emit, update_self,
    attribute, bind, ret. simpl. split; [by intros ->|].
  intros w1.
  destruct (env_unit env (trace w ++ [EvDiscoveryBuild])) as [[]| |]; simpl; [|done..].
  destruct (env_unit env ((trace w ++ [EvDiscoveryBuild]) ++ [EvNewStorage false]))
    as [[]| |]; simpl; [|done..].
  intros [= <-]. simpl. done.
Qed.

End Initialisation.

(** ** The further properties on concrete runs *)

Lemma package_code_completes_witness :
  ∃ w',
    package_code Mock.succeeding Mock.uncached_b1 Mock.fresh_world
    = (Ok ("/tmp/build/b1.zip", 2), w') ∧
    trace w' = packaging_events Mock.succeeding Mock.uncached_b1 "/tmp/build" 2 ∧
    cwd w' = "/home/user" ∧ self w' = self Mock.fresh_world ∧
    fs w' !! "b1.zip" = Some (File "PK").
Proof.
  apply (package_code_completes Mock.succeeding Mock.uncached_b1 Mock.fresh_world
           "/tmp/build" Mock.python_directory ("handler.py", "main.py")
           (File "def handler(): pass") "PK"); reflexivity.
Defined.

Lemma package_code_final_directory_witness :
  let w' := (package_code Mock.succeeding Mock.uncached_b1 Mock.fresh_world).2 in
  ∃ run,
    completed Mock.succeeding Mock.uncached_b1 Mock.fresh_world run ∧
    (∀ k, fs w' !! k
          = packaged_entry Mock.uncached_b1 (run_package_config run) (run_built run)
              (run_bytes run) k) ∧
    fs w' !! (run_names run).2 = None ∧
    ∀ k n, run_built run !! k = Some n → k ∉ run_package_config run →
           ∃ children, fs w' !! "function" = Some (Dir children) ∧
                       children !! k = Some n.
Proof.
  apply (package_code_final_directory Mock.succeeding Mock.uncached_b1
           Mock.fresh_world ("/tmp/build/b1.zip", 2)).
  vm_compute. reflexivity.
Defined.

Lemma package_code_unknown_language_witness :
  package_code Mock.succeeding Scenario.ruby_b1 Mock.fresh_world
  = (Raise (KeyError "ruby"),
     {| trace := [EvBuild "b1"]; fs := Mock.python_directory;
        cwd := "/home/user"; self := self Mock.fresh_world |}).
Proof.
  apply (package_code_unknown_language Mock.succeeding Scenario.ruby_b1
           Mock.fresh_world "/tmp/build" Mock.python_directory); reflexivity.
Defined.

Lemma package_code_not_repeatable_witness :
  let w1 := (package_code Mock.succeeding Mock.uncached_b1 Mock.fresh_world).2 in
  package_code Mock.succeeding Mock.uncached_b1 w1
  = (Raise (FileExistsError "function"), set_trace (trace w1 ++ [EvBuild "b1"]) w1).
Proof.
  apply (package_code_not_repeatable Mock.succeeding Mock.uncached_b1
           Mock.fresh_world ("/tmp/build/b1.zip", 2) _ "/tmp/build").
  - vm_compute. reflexivity.
  - reflexivity.
Defined.

Lemma package_code_missing_handler_witness :
  ∃ w',
    package_code Mock.succeeding Mock.uncached_b1
      (Mock.world Scenario.no_handler_directory None)
    = (Raise (FileNotFoundError "handler.py"), w') ∧
    trace w' = [EvBuild "b1"] ∧
    cwd w' = "/tmp/build" ∧
    fs w' !! "requirements.txt" = Some (File "google-cloud-storage") ∧
    is_Some (fs w' !! "function").
Proof.
  apply (package_code_missing_handler Mock.succeeding Mock.uncached_b1
           (Mock.world Scenario.no_handler_directory None)
           "/tmp/build" Scenario.no_handler_directory ("handler.py", "main.py"));
    reflexivity.
Defined.

Lemma package_code_archiving_failure_witness :
  ∃ w',
    package_code Mock.failing_zip Mock.uncached_b1 Mock.fresh_world
    = (Raise (ExternalError "zip failed"), w') ∧
    trace w' = [EvBuild "b1"; EvExecute "zip -qu -r9 b1.zip * ."] ∧
    fs w' !! "main.py" = Some (File "def handler(): pass") ∧
    fs w' !! "handler.py" = None ∧
    fs w' !! "b1.zip" = None ∧
    cwd w' = "/tmp/build".
Proof.
  apply (package_code_archiving_failure Mock.failing_zip Mock.uncached_b1
           Mock.fresh_world "/tmp/build" Mock.python_directory
           ("handler.py", "main.py") (File "def handler(): pass")
           (ExternalError "zip failed")); reflexivity.
Defined.

Lemma get_function_creates_unless_listed_witness :
  let parent := "projects/proj/locations/europe-west1" in
  let w' := (get_function Scenario.listing Mock.uncached_b1 Mock.fresh_world).2 in
  ∃ before after res listed location,
    trace w' = [] ++ before ++ EvRegistry (ReqList parent) :: after ∧
    List.filter is_registry before = [] ∧
    staged_archives before = [location] ∧
    staged_archives after = [] ∧
    env_registry Scenario.listing ([] ++ before ++ [EvRegistry (ReqList parent)])
    = Ok res ∧
    listed_in res Scenario.full_b1 = Ok listed ∧
    if listed then
      List.filter is_create after = [] ∧ length (List.filter is_patch after) = 1%nat
    else
      List.filter is_patch after = [] ∧
      ∃ body,
        List.filter is_create after = [EvRegistry (ReqCreate parent body)] ∧
        body_name body = Scenario.full_b1 ∧
        body_sourceArchiveUrl body = location.
Proof.
  intros parent w'. unfold w'.
  destruct (get_function Scenario.listing Mock.uncached_b1 Mock.fresh_world)
    as [[f| |] w1] eqn:H; [|vm_compute in H; discriminate H..].
  exact (get_function_creates_unless_listed Scenario.listing Mock.uncached_b1
           Mock.fresh_world f w1 eq_refl H).
Defined.

Lemma get_function_records_new_entry_witness :
  ∃ f w',
    get_function Mock.succeeding Mock.uncached_b1 Mock.fresh_world = (Ok f, w') ∧
    ∃ earlier package size w1 entry res_get trigger invoke_url,
      package_code Mock.succeeding Mock.uncached_b1 (located_world Mock.fresh_world)
      = (Ok (package, size), w1) ∧
      trace w' = [] ++ earlier
                 ++ [EvCacheAdd "gcp" "b1" "python" package entry
                       (env_storage_buckets Mock.succeeding ([] ++ earlier)).1
                       (env_storage_buckets Mock.succeeding ([] ++ earlier)).2] ∧
      List.filter is_cache_write earlier = [] ∧
      last earlier = Some (EvRegistry (ReqGet Scenario.full_b1)) ∧
      env_registry Mock.succeeding ([] ++ earlier) = Ok res_get ∧
      res_get !! "httpsTrigger" = Some trigger ∧
      json_index trigger "url" = Ok invoke_url ∧
      entry !! "name" = Some (JStr "foo_b1_python_256") ∧
      entry !! "code_size" = Some (JInt size) ∧
      entry !! "runtime" = Some (JStr "3.8") ∧
      entry !! "memory" = Some (JInt 256) ∧
      entry !! "timeout" = Some (JInt 60) ∧
      entry !! "hash" = Some (JStr "h1") ∧
      entry !! "url" = Some invoke_url ∧
      function_name f = JStr "foo_b1_python_256".
Proof.
  destruct (get_function Mock.succeeding Mock.uncached_b1 Mock.fresh_world)
    as [[f| |] w1] eqn:H; [|vm_compute in H; discriminate H..].
  exists f, w1. split; [reflexivity|].
  exact (get_function_records_new_entry Mock.succeeding Mock.uncached_b1
           Mock.fresh_world f w1 eq_refl H).
Defined.

Lemma get_function_nameless_entry_witness :
  get_function Mock.succeeding Scenario.nameless_b1 Mock.fresh_world
  = (Raise (KeyError "name"), located_world Mock.fresh_world).
Proof.
  apply (get_function_nameless_entry Mock.succeeding Scenario.nameless_b1
           Mock.fresh_world); reflexivity.
Defined.

Lemma get_function_packages_before_storage_witness :
  let w1 := (package_code Mock.succeeding Mock.uncached_b1
               (located_world Scenario.unset_world)).2 in
  get_function Mock.succeeding Mock.uncached_b1 Scenario.unset_world
  = (Raise (AttributeError "storage"), w1) ∧
  ∃ directory size,
    trace w1 = [] ++ packaging_events Mock.succeeding Mock.uncached_b1 directory size ∧
    fs w1 !! "b1.zip" ≠ None.
Proof.
  apply (get_function_packages_before_storage Mock.succeeding Mock.uncached_b1
           Scenario.unset_world ("/tmp/build/b1.zip", 2)).
  - reflexivity.
  - intros H. discriminate H.
  - reflexivity.
  - vm_compute. reflexivity.
Defined.

Lemma update_function_only_patches_witness :
  update_function Mock.succeeding "b1" Scenario.full_b1 "b1.zip" Mock.stale_b1 60 256
    Scenario.unset_world
  = (Raise (AttributeError "storage"), Scenario.unset_world).
Proof.
  destruct (update_function_only_patches Mock.succeeding "b1" Scenario.full_b1
              "b1.zip" Mock.stale_b1 60 256 Scenario.unset_world)
    as (_ & Hunset & _).
  by apply Hunset.
Defined.

Lemma get_function_patches_cached_name_witness :
  let w' := (get_function Mock.succeeding Mock.stale_b1 Mock.fresh_world).2 in
  ∃ t package size w1 bucket idx body,
    package_code Mock.succeeding Mock.stale_b1 (located_world Mock.fresh_world)
    = (Ok (package, size), w1) ∧
    env_add_input_bucket Mock.succeeding (trace w1 ++ [EvAddInputBucket "b1"])
    = Ok (bucket, idx) ∧
    trace w' = [] ++ t ∧
    List.filter is_registry t = [EvRegistry (ReqPatch Scenario.full_b1 body)] ∧
    body_runtime body = "python38" ∧
    body_availableMemoryMb body = 256 ∧
    body_timeout body = "60s" ∧
    body_sourceArchiveUrl body = "gs://" +:+ bucket +:+ "/" +:+ Py.basename package.
Proof.
  intros w'. unfold w'.
  destruct (get_function Mock.succeeding Mock.stale_b1 Mock.fresh_world)
    as [[f| |] w1] eqn:H; [|vm_compute in H; discriminate H..].
  destruct (get_function_patches_cached_name Mock.succeeding Mock.stale_b1
              Mock.fresh_world f w1 eq_refl eq_refl H)
    as (t & name & package & size & w2 & bucket & idx & body & Hname & _ & Hpackage
        & Hbucket & Htrace & Hregistry & _ & _ & Hruntime & Hmemory & Htimeout
        & Harchive).
  vm_compute in Hname. injection Hname as <-.
  exists t, package, size, w2, bucket, idx, body.
  split; [exact Hpackage|]. split; [exact Hbucket|]. split; [exact Htrace|].
  split; [exact Hregistry|]. split; [exact Hruntime|]. split; [exact Hmemory|].
  split; [exact Htimeout|]. exact Harchive.
Defined.

Lemma invoke_sync_poll_failure_witness :
  invoke_sync Scenario.statusless 3 "f" JNull Mock.ready_world
  = (Raise (KeyError "status"),
     set_trace [EvRegistry (ReqGet Mock.ready_name); EvSleep 5;
                EvRegistry (ReqGet Mock.ready_name)] Mock.ready_world).
Proof.
  destruct (invoke_sync_poll_failure Scenario.statusless Mock.ready_world
              "proj" "europe-west1" "foo_b1_python_256" 1 3 "f" JNull)
    as (_ & Hstatus & _).
  - repeat split. by eexists.
  - intros k Hk. destruct k as [|k]; [|lia]. eexists; split; by vm_compute.
  - lia.
  - apply (Hstatus ∅); reflexivity.
Defined.

Lemma invoke_sync_call_exception_witness :
  invoke_sync Scenario.refusing_calls 1 "f" JNull Mock.ready_world
  = (Raise (ExternalError "unavailable"),
     set_trace [EvRegistry (ReqGet Mock.ready_name);
                EvRegistry (ReqCall Mock.ready_name "{}")] Mock.ready_world).
Proof.
  destruct (invoke_sync_call_exception Scenario.refusing_calls Mock.ready_world
              "proj" "europe-west1" "foo_b1_python_256" 1 "f" JNull
              (wait_until_deployed Scenario.refusing_calls 1 Mock.ready_name
                 Mock.ready_world).2 (ExternalError "unavailable"))
    as [Hraise _].
  - repeat split. by eexists.
  - by vm_compute.
  - by vm_compute.
  - exact Hraise.
Defined.

Lemma download_metrics_without_samples_witness :
  let out :=
    Metrics.download_metrics Z Mock.telemetry Mock.gcp_config "h" 1000 2000
      Mock.requests in
  Metrics.out_requests out = Mock.requests ∧ Metrics.out_result out = Ok tt ∧
  length (Metrics.out_queries out) = 2%nat.
Proof.
  intros out. unfold out.
  rewrite (download_metrics_without_samples Z Mock.telemetry Mock.gcp_config "h"
             1000 2000 Mock.requests
             [Mock.labelled_series "f" [(120, 3); (80, 1)];
              Mock.labelled_series "g" [(5, 1)]]
             [Mock.labelled_series "f" [(4096, 4)]]); done.
Defined.

Lemma download_metrics_unknown_function_witness :
  let out :=
    Metrics.download_metrics Z Mock.telemetry Mock.gcp_config "g" 1000 2000
      Mock.requests in
  Metrics.out_requests out = Mock.requests ∧
  Metrics.out_result out = Raise (KeyError "g") ∧
  length (Metrics.out_queries out) = 1%nat.
Proof.
  intros out. unfold out.
  rewrite (download_metrics_unknown_function Z Mock.telemetry Mock.gcp_config "g"
             1000 2000 Mock.requests
             [Mock.labelled_series "f" [(120, 3); (80, 1)];
              Mock.labelled_series "g" [(5, 1)]]); done.
Defined.

Lemma download_metrics_partial_update_witness :
  let out :=
    Metrics.download_metrics Z Mock.telemetry Mock.gcp_config "f" 1000 2000
      Scenario.requests_without_memory in
  Metrics.out_result out = Raise (KeyError "user_memory_bytes") ∧
  Metrics.out_requests out !! "f"
  = Some (<["execution_times" :=
              [Mock.earlier_sample;
               {| Metrics.mean_key := "mean_time"; Metrics.mean_value := 120;
                  Metrics.executions_count := 3 |};
               {| Metrics.mean_key := "mean_time"; Metrics.mean_value := 80;
                  Metrics.executions_count := 1 |}]]>
            {["execution_times" := [Mock.earlier_sample]]}).
Proof.
  intros out. unfold out.
  rewrite (download_metrics_partial_update Z Mock.telemetry Mock.gcp_config "f"
             1000 2000 Scenario.requests_without_memory
             {["execution_times" := [Mock.earlier_sample]]}
             [Mock.earlier_sample]
             [Mock.labelled_series "f" [(120, 3); (80, 1)];
              Mock.labelled_series "g" [(5, 1)]]
             [Mock.labelled_series "f" [(4096, 4)]]); done.
Defined.

Lemma download_metrics_backend_exception_witness :
  let out :=
    Metrics.download_metrics Z Scenario.failing_telemetry Mock.gcp_config "f" 1000 2000
      Mock.requests in
  Metrics.out_requests out = Mock.requests ∧
  Metrics.out_result out = Raise (ExternalError "deadline exceeded") ∧
  length (Metrics.out_queries out) = 1%nat.
Proof.
  intros out. unfold out.
  rewrite (proj1 (download_metrics_backend_exception Z Scenario.failing_telemetry
                    Mock.gcp_config "f" 1000 2000 Mock.requests
                    (ExternalError "deadline exceeded")) eq_refl).
  done.
Defined.

Lemma listing_test_reads_every_name_witness :
  listed_in {["functions" := JList [JObj {["name" := JStr Scenario.full_b1]}; JObj ∅] ]}
    Scenario.full_b1
  = Raise (KeyError "name").
Proof.
  destruct (listing_test_reads_every_name
              {["functions" := JList [JObj {["name" := JStr Scenario.full_b1]}; JObj ∅] ]}
              Scenario.full_b1) as (_ & _ & Hnameless).
  apply (Hnameless [JObj {["name" := JStr Scenario.full_b1]}] ∅ []).
  - reflexivity.
  - apply Forall_cons. split; [|apply Forall_nil_2].
    exists {["name" := JStr Scenario.full_b1]}, (JStr Scenario.full_b1).
    split; reflexivity.
  - reflexivity.
Defined.

Lemma initialize_sets_client_then_storage_witness :
  ∃ w', initialize Mock.succeeding Scenario.unset_world = (Ok tt, w') ∧
        trace w' = [EvDiscoveryBuild; EvNewStorage false] ∧
        function_client (self w') = Some CloudFunctionsV1 ∧
        storage (self w') = Some {| replace_existing := false |} ∧
        func_name (self w') = None.
Proof.
  destruct (initialize_sets_client_then_storage Mock.succeeding Scenario.unset_world)
    as (_ & _ & Hdone).
  destruct (Hdone eq_refl eq_refl)
    as (w' & Hrun & Htrace & Hclient & Hstorage & _ & _ & Hname & _).
  exists w'. split; [exact Hrun|]. split; [exact Htrace|]. split; [exact Hclient|].
  split; [exact Hstorage|]. exact Hname.
Defined.

Lemma prepare_experiment_after_initialize_witness :
  prepare_experiment Mock.succeeding "b1" Scenario.unset_world
  = (Raise (AttributeError "storage"), Scenario.unset_world) ∧
  (prepare_experiment Mock.succeeding "b1"
     (initialize Mock.succeeding Scenario.unset_world).2).1
  = Ok "bucket-logs".
Proof.
  destruct (prepare_experiment_after_initialize Mock.succeeding "b1"
              Scenario.unset_world) as [Hunset Hready].
  split; [by apply Hunset|].
  by rewrite (Hready (initialize Mock.succeeding Scenario.unset_world).2 eq_refl).
Defined.
